(** * Canvas renderer for tile layers

    A shallow embedding of [ol/renderer/canvas/TileLayer.js]
    (class [CanvasTileLayerRenderer]) and the properties of its frame
    pass: tile selection, zoom ordering, destination rectangles and the
    drawing of one tile image.

    JavaScript numbers are IEEE 754 binary64 values and are modelled by
    Rocq's primitive floats; tile coordinates and zoom levels, which the
    program only ever uses as integers, are modelled by [Z]. *)

From Stdlib Require Import ZArith List Bool Lia String Permutation Sorted.
From Stdlib Require Import QArith Qround.
From Stdlib Require Import Floats.PrimFloat Floats.SpecFloat Floats.FloatOps.
From Stdlib Require Import Floats.FloatAxioms.
From Stdlib Require Import Numbers.Cyclic.Int63.Uint63.
Import ListNotations.

Open Scope Z_scope.

(** ** JavaScript numbers *)

Module JS.

Definition number := float.

(** The number holding an integer; exact for [|n| < 2^53]. *)
Definition of_Z (n : Z) : number :=
  if n <? 0 then PrimFloat.opp (PrimFloat.of_uint63 (Uint63.of_Z (- n)))
  else PrimFloat.of_uint63 (Uint63.of_Z n).

(** [a === b] and [a == b] on two numbers: IEEE equality
    ([NaN] differs from itself, [+0] equals [-0]). *)
Definition strictEq (a b : number) : bool := PrimFloat.eqb a b.

(** [a !== b] and [a != b] on two numbers. *)
Definition strictNe (a b : number) : bool := negb (PrimFloat.eqb a b).

(** Truthiness of a number, as in [if (rotation)]: every number but
    [+0], [-0] and [NaN]. *)
Definition truthy (a : number) : bool :=
  negb (PrimFloat.eqb a PrimFloat.zero) && PrimFloat.eqb a a.

(** [Math.round]: the integer nearest to [x], ties towards [+Infinity];
    [NaN], the infinities, the zeros and integers are returned as they
    are, and a result of zero keeps the sign of [x].  The rounding is
    computed exactly, on the mantissa and exponent of [x]. *)
Definition Math_round (x : number) : number :=
  match Prim2SF x with
  | S754_finite s m e =>
      if 0 <=? e then x
      else
        let v := if s then Z.neg m else Z.pos m in
        let n := (2 * v + 2 ^ (- e)) / 2 ^ (1 - e) in
        if n =? 0 then (if s then PrimFloat.opp PrimFloat.zero else PrimFloat.zero)
        else of_Z n
  | _ => x
  end.

Definition Math_sqrt (x : number) : number := PrimFloat.sqrt x.

(** [Array.prototype.sort(comparefn)] on an array of numbers.  ECMAScript
    leaves the algorithm open; a stable insertion sort driven by the sign
    of [comparefn] is used here.  [sort_unique] below shows that for the
    comparator of [renderFrame] the outcome does not depend on that
    choice. *)
Fixpoint insertBy (comparefn : Z -> Z -> Z) (a : Z) (l : list Z) : list Z :=
  match l with
  | [] => [a]
  | b :: l' => if comparefn a b <=? 0 then a :: l else b :: insertBy comparefn a l'
  end.

Definition Array_sort (comparefn : Z -> Z -> Z) (l : list Z) : list Z :=
  fold_right (insertBy comparefn) [] l.

(** An array is in sorted order for [comparefn] when no element compares
    greater than a later one. *)
Definition sortedBy (comparefn : Z -> Z -> Z) (l : list Z) : Prop :=
  ForallOrdPairs (fun a b => comparefn a b <= 0) l.

End JS.

Import JS.

(** ** Data model *)

(** Modelled from the spec: [ol/TileState.js] is not part of the sources;
    the lifecycle states are the five the specification lists. *)
Inductive TileState : Set := IDLE | LOADING | LOADED | ERROR | EMPTY.

Definition TileState_eqb (a b : TileState) : bool :=
  match a, b with
  | IDLE, IDLE | LOADING, LOADING | LOADED, LOADED | ERROR, ERROR | EMPTY, EMPTY => true
  | _, _ => false
  end.

(** A tile coordinate [[z, x, y]]. *)
Definition TileCoord := (Z * Z * Z)%type.

Definition coordZ (c : TileCoord) : Z := fst (fst c).
Definition coordX (c : TileCoord) : Z := snd (fst c).
Definition coordY (c : TileCoord) : Z := snd c.

Definition TileCoord_eqb (a b : TileCoord) : bool :=
  (coordZ a =? coordZ b) && (coordX a =? coordX b) && (coordY a =? coordY b).

(** An inclusive range of tile coordinates at one zoom level. *)
Record TileRange := mkTileRange { minX : Z; maxX : Z; minY : Z; maxY : Z }.

(** A range no [for (x = minX; x <= maxX; ++x)
    for (y = minY; y <= maxY; ++y)] loop enters. *)
Definition TileRange_isEmpty (r : TileRange) : bool :=
  (maxX r <? minX r) || (maxY r <? minY r).

(** An extent [[minx, miny, maxx, maxy]]. *)
Record Extent := mkExtent { e0 : number; e1 : number; e2 : number; e3 : number }.

Definition Coordinate := (number * number)%type.

(** The image of a tile. *)
Record Image := mkImage { img_width : number; img_height : number }.

(** Tiles are objects shared by reference between the source, its cache
    and the renderer; a reference is an address in the tile store. *)
Definition TileRef := nat.

Definition Uid := string.

(** [tilesToDrawByZ]: a JavaScript object from zoom level to an object
    from tile-coordinate key to tile.  The key [tileCoord.toString()] is
    ["z,x,y"], which determines and is determined by the coordinate, so
    the inner object is keyed by the coordinate; own string keys are
    enumerated in insertion order, so it is an association list to which
    new keys are appended. *)
Definition TilesAtZ := list (TileCoord * TileRef).
Definition TilesByZ := list (Z * TilesAtZ).

Fixpoint setTileAtZ (c : TileCoord) (t : TileRef) (l : TilesAtZ) : TilesAtZ :=
  match l with
  | [] => [(c, t)]
  | (c', t') :: l' =>
      if TileCoord_eqb c' c then (c', t) :: l' else (c', t') :: setTileAtZ c t l'
  end.

(** [tilesToDrawByZ[z][key] = tile]; a [TypeError] ([None]) when
    [tilesToDrawByZ[z]] is undefined. *)
Fixpoint setTileToDraw (z : Z) (c : TileCoord) (t : TileRef) (m : TilesByZ)
  : option TilesByZ :=
  match m with
  | [] => None
  | (z', l) :: m' =>
      if z' =? z then Some ((z', setTileAtZ c t l) :: m')
      else option_map (cons (z', l)) (setTileToDraw z c t m')
  end.

(** [tilesToDrawByZ[z]]. *)
Fixpoint tilesAtZ (z : Z) (m : TilesByZ) : option TilesAtZ :=
  match m with
  | [] => None
  | (z', l) :: m' => if z' =? z then Some l else tilesAtZ z m'
  end.

(** [Object.keys(tilesToDrawByZ).map(Number)].  JavaScript lists integer
    keys in ascending order and the list here is in insertion order; the
    keys are sorted before they are used, and [sort_any_order] shows that
    the order they start in makes no difference. *)
Definition zoomKeys (m : TilesByZ) : list Z := map fst m.

(** ** Collaborators of the renderer

    The renderer is written against the tile, the tile grid, the tile
    source and the layer; of these only their methods are used.  The
    types below list the methods [TileLayer.js] calls. *)

Section Renderer.

(** A projection, an affine transform ([ol/transform.js]) and the
    transition bookkeeping a tile keeps per consumer ([ol/Tile.js]). *)
Context {Projection Transform Transition : Type}.

(** A tile object: [tile.tileCoord], [tile.getState()], its transition
    bookkeeping, and [tile.getImage()] ([None] for no image). *)
Record Tile := mkTile {
  tileCoord : TileCoord;
  state : TileState;
  tile_transition : Transition;
  image : option Image
}.

(** The tile store: what every tile reference currently points to. *)
Definition TileStore := TileRef -> Tile.

(** [tile.inTransition(id)], [tile.getAlpha(id, time)] (which may start
    the transition), [tile.endTransition(id)] and
    [tile.getInterimTile()]. *)
Record TileMethods := mkTileMethods {
  inTransition : Transition -> Uid -> bool;
  getAlpha : Transition -> Uid -> number -> number * Transition;
  endTransition : Transition -> Uid -> Transition;
  getInterimTile : TileStore -> TileRef -> TileRef
}.

(** The function [createLoadedTileFinder] returns: called with a zoom
    level and a tile range, it registers the loaded tiles of the range in
    [tilesToDrawByZ] and tells whether they cover it. *)
Definition LoadedTileFinder := Z -> TileRange -> TilesByZ -> bool * TilesByZ.

Record TileGrid := mkTileGrid {
  getZForResolution : number -> Z -> Z;
  getResolution : Z -> number;
  getTileRangeForExtentAndZ : Extent -> Z -> TileRange;
  getTileCoordChildTileRange : TileCoord -> option TileRange;
  forEachTileCoordParentTileRange :
    TileCoord -> LoadedTileFinder -> TilesByZ -> bool * TilesByZ;
  getTileCoordForCoordAndZ : Coordinate -> Z -> TileCoord;
  getTileCoordExtent : TileCoord -> Extent
}.

Record TileSource := mkTileSource {
  source_getTile : Z -> Z -> Z -> number -> Projection -> TileRef;
  getRevision : Z;
  getTileGridForProjection : Projection -> TileGrid;
  getTilePixelRatio : number -> number;
  getTilePixelSize : Z -> number -> Projection -> number * number;
  getGutterForProjection : Projection -> number;
  getOpaque : Projection -> bool
}.

Record TileLayer := mkTileLayer {
  getSource : TileSource;
  getUseInterimTilesOnError : bool;
  getPreload : Z
}.

(** ** State *)

(** The canvas element: its dimensions, the number
    [parseFloat(canvas.style.opacity)] reads and [canvas.style.transform]. *)
Record Canvas := mkCanvas {
  canvas_width : number;
  canvas_height : number;
  style_opacity : number;
  style_transform : string
}.

(** The 2D context: its canvas, [globalAlpha] and the values of
    [globalAlpha] that [save()] has stacked. *)
Record Context2D := mkContext2D {
  canvas : Canvas;
  globalAlpha : number;
  saved : list number
}.

Record Renderer := mkRenderer {
  layer : TileLayer;
  ol_uid : Uid;
  context : Context2D;
  pixelTransform_ : Transform;
  inversePixelTransform_ : Transform;
  tempTransform_ : Transform;
  renderedResolution : option number;
  renderedExtent_ : option Extent;
  renderedRevision : option Z;
  renderedTiles : list TileRef;
  newTiles_ : bool;
  zDirection : Z
}.

Record ViewState := mkViewState {
  projection : Projection;
  resolution : number;
  center : Coordinate;
  rotation : number
}.

Record FrameState := mkFrameState {
  viewState : ViewState;
  pixelRatio : number;
  extent : Extent;
  size : number * number;
  time : number;
  animate : bool
}.

Record LayerState := mkLayerState {
  ls_extent : option Extent;
  opacity : number
}.

(** What the renderer does to the drawing surface and which methods of
    its base class and of its collaborators it calls, in order. *)
Inductive Event : Type :=
| ClearRect (x y w h : number)
| Save
| Restore
| DrawImage (img : Image) (sx sy sw sh dx dy dw dh : number) (alpha : number)
| SetCanvasWidth (w : number)
| SetCanvasHeight (h : number)
| FindLoadedTiles (z : Z) (r : TileRange)
| ForEachTileCoordParentTileRange (c : TileCoord)
| ClipUnrotated (e : Extent)
| PreRender
| PostRender
| UpdateUsedTiles (t : TileRef)
| ManageTilePyramid (e : Extent) (z : Z) (preload : Z)
| ScheduleExpireCache.

(** The tile store, the renderer ([this]), the frame state object handed
    in by the map, and the trace of events so far (oldest first). *)
Record World := mkWorld {
  tiles : TileStore;
  this : Renderer;
  frameState : FrameState;
  trace : list Event
}.

(** Computations over the world that may throw ([None]). *)
Definition M (A : Type) : Type := World -> option (A * World).

Definition ret {A} (a : A) : M A := fun w => Some (a, w).

Definition bind {A B} (c : M A) (k : A -> M B) : M B :=
  fun w => match c w with
           | Some (a, w') => k a w'
           | None => None
           end.

Definition throw {A} : M A := fun _ => None.

Definition gets {A} (f : World -> A) : M A := fun w => Some (f w, w).

Definition modify (f : World -> World) : M unit := fun w => Some (tt, f w).

Definition when (b : bool) (c : M unit) : M unit := if b then c else ret tt.

Notation "x <- c ;; k" := (bind c (fun x => k))
  (at level 61, c at next level, right associativity).
Notation "c ;;; k" := (bind c (fun _ => k))
  (at level 61, right associativity).

(** Field updates. *)
Definition with_tiles (f : TileStore -> TileStore) (w : World) : World :=
  mkWorld (f (tiles w)) (this w) (frameState w) (trace w).

Definition with_this (f : Renderer -> Renderer) (w : World) : World :=
  mkWorld (tiles w) (f (this w)) (frameState w) (trace w).

Definition with_frameState (f : FrameState -> FrameState) (w : World) : World :=
  mkWorld (tiles w) (this w) (f (frameState w)) (trace w).

Definition emit (e : Event) : M unit :=
  modify (fun w => mkWorld (tiles w) (this w) (frameState w) (trace w ++ [e])).

Definition set_context (c : Context2D) (r : Renderer) : Renderer :=
  mkRenderer (layer r) (ol_uid r) c (pixelTransform_ r) (inversePixelTransform_ r)
    (tempTransform_ r) (renderedResolution r) (renderedExtent_ r)
    (renderedRevision r) (renderedTiles r) (newTiles_ r) (zDirection r).

Definition set_transforms (p i t : Transform) (r : Renderer) : Renderer :=
  mkRenderer (layer r) (ol_uid r) (context r) p i t (renderedResolution r)
    (renderedExtent_ r) (renderedRevision r) (renderedTiles r) (newTiles_ r)
    (zDirection r).

Definition set_rendered (res : number) (e : Extent) (rev : Z) (r : Renderer)
  : Renderer :=
  mkRenderer (layer r) (ol_uid r) (context r) (pixelTransform_ r)
    (inversePixelTransform_ r) (tempTransform_ r) (Some res) (Some e) (Some rev)
    (renderedTiles r) (newTiles_ r) (zDirection r).

Definition set_renderedTiles (l : list TileRef) (r : Renderer) : Renderer :=
  mkRenderer (layer r) (ol_uid r) (context r) (pixelTransform_ r)
    (inversePixelTransform_ r) (tempTransform_ r) (renderedResolution r)
    (renderedExtent_ r) (renderedRevision r) l (newTiles_ r) (zDirection r).

Definition set_newTiles_ (b : bool) (r : Renderer) : Renderer :=
  mkRenderer (layer r) (ol_uid r) (context r) (pixelTransform_ r)
    (inversePixelTransform_ r) (tempTransform_ r) (renderedResolution r)
    (renderedExtent_ r) (renderedRevision r) (renderedTiles r) b (zDirection r).

Definition set_animate (b : bool) (f : FrameState) : FrameState :=
  mkFrameState (viewState f) (pixelRatio f) (extent f) (size f) (time f) b.

Definition set_state (s : TileState) (t : Tile) : Tile :=
  mkTile (tileCoord t) s (tile_transition t) (image t).

Definition set_transition (tr : Transition) (t : Tile) : Tile :=
  mkTile (tileCoord t) (state t) tr (image t).

(** Update of the object a reference points to. *)
Definition update (r : TileRef) (f : Tile -> Tile) (s : TileStore) : TileStore :=
  fun r' => if Nat.eqb r' r then f (s r') else s r'.

(** ** Library functions the renderer imports

    [ol/extent.js], [ol/transform.js] and [createLoadedTileFinder] of the
    base class are not part of the sources; they are parameters.
    [composeTransform] and [makeInverse] overwrite their target, so only
    the transform they leave there is kept. *)
Record Library := mkLibrary {
  getIntersection : Extent -> Extent -> Extent;
  getTopLeft : Extent -> Coordinate;
  composeTransform :
    number -> number -> number -> number -> number -> number -> number -> Transform;
  makeInverse : Transform -> Transform;
  applyTransform : Transform -> Coordinate -> Coordinate;
  transformToString : Transform -> string;
  createLoadedTileFinder : TileSource -> Projection -> TileStore -> LoadedTileFinder
}.

Variable tm : TileMethods.
Variable lib : Library.

(** ** Methods of the tile, over the store *)

Definition getUid : M Uid := gets (fun w => ol_uid (this w)).

Definition getLayer : M TileLayer := gets (fun w => layer (this w)).

Definition Tile_getState (t : TileRef) : M TileState :=
  gets (fun w => state (tiles w t)).

Definition Tile_tileCoord (t : TileRef) : M TileCoord :=
  gets (fun w => tileCoord (tiles w t)).

Definition Tile_setState (t : TileRef) (s : TileState) : M unit :=
  modify (with_tiles (update t (set_state s))).

Definition Tile_inTransition (t : TileRef) (id : Uid) : M bool :=
  gets (fun w => inTransition tm (tile_transition (tiles w t)) id).

Definition Tile_getAlpha (t : TileRef) (id : Uid) (now : number) : M number :=
  fun w =>
    let r := getAlpha tm (tile_transition (tiles w t)) id now in
    Some (fst r, with_tiles (update t (set_transition (snd r))) w).

Definition Tile_endTransition (t : TileRef) (id : Uid) : M unit :=
  modify (with_tiles
    (update t (fun o => set_transition (endTransition tm (tile_transition o) id) o))).

Definition Tile_getInterimTile (t : TileRef) : M TileRef :=
  gets (fun w => getInterimTile tm (tiles w) t).

(** ** The 2D context *)

Definition getContext : M Context2D := gets (fun w => context (this w)).

Definition putContext (c : Context2D) : M unit := modify (with_this (set_context c)).

Definition ctx_clearRect (x y w h : number) : M unit := emit (ClearRect x y w h).

Definition ctx_save : M unit :=
  c <- getContext ;;
  putContext (mkContext2D (canvas c) (globalAlpha c) (globalAlpha c :: saved c)) ;;;
  emit Save.

(** [restore()] does nothing to the state when nothing was saved. *)
Definition ctx_restore : M unit :=
  c <- getContext ;;
  match saved c with
  | a :: rest => putContext (mkContext2D (canvas c) a rest)
  | [] => ret tt
  end ;;;
  emit Restore.

(** [context.globalAlpha = a]: values outside [0, 1] are ignored. *)
Definition ctx_set_globalAlpha (a : number) : M unit :=
  c <- getContext ;;
  when (PrimFloat.leb 0 a && PrimFloat.leb a 1)
    (putContext (mkContext2D (canvas c) a (saved c))).

Definition ctx_drawImage (img : Image) (sx sy sw sh dx dy dw dh : number) : M unit :=
  c <- getContext ;;
  emit (DrawImage img sx sy sw sh dx dy dw dh (globalAlpha c)).

(** [canvas.width = w] and [canvas.height = h]: setting a dimension also
    resets the context to its default state. *)
Definition setCanvasWidth (w : number) : M unit :=
  c <- getContext ;;
  putContext (mkContext2D
    (mkCanvas w (canvas_height (canvas c)) (style_opacity (canvas c)) (style_transform (canvas c)))
    1%float []) ;;;
  emit (SetCanvasWidth w).

Definition setCanvasHeight (h : number) : M unit :=
  c <- getContext ;;
  putContext (mkContext2D
    (mkCanvas (canvas_width (canvas c)) h (style_opacity (canvas c)) (style_transform (canvas c)))
    1%float []) ;;;
  emit (SetCanvasHeight h).

Definition setStyleOpacity (o : number) : M unit :=
  c <- getContext ;;
  putContext (mkContext2D
    (mkCanvas (canvas_width (canvas c)) (canvas_height (canvas c)) o
       (style_transform (canvas c)))
    (globalAlpha c) (saved c)).

Definition setStyleTransform (t : string) : M unit :=
  c <- getContext ;;
  putContext (mkContext2D
    (mkCanvas (canvas_width (canvas c)) (canvas_height (canvas c))
       (style_opacity (canvas c)) t)
    (globalAlpha c) (saved c)).

(** Modelled from the spec: [clipUnrotated] of the base class is not part
    of the sources; it saves the drawing state and clips to the extent
    for the rest of the frame. *)
Definition clipUnrotated (e : Extent) : M unit :=
  ctx_save ;;; emit (ClipUnrotated e).

(** ** The renderer's methods *)

(** The constructor, on the renderer that [super(tileLayer)] has set up:
    [this.renderedRevision;] assigns nothing, and the two scratch objects
    [tmpExtent] and [tmpTileRange_] carry no state from call to call. *)
Definition constructor (base : Renderer) : Renderer :=
  mkRenderer (layer base) (ol_uid base) (context base)
    (pixelTransform_ base) (inversePixelTransform_ base) (tempTransform_ base)
    (renderedResolution base) None (renderedRevision base) [] false 0.

(** [isDrawableTile(tile)], on the state the tile has. *)
Definition isDrawable (tileLayer : TileLayer) (tileState : TileState) : bool :=
  let useInterimTilesOnError := getUseInterimTilesOnError tileLayer in
  TileState_eqb tileState LOADED
  || TileState_eqb tileState EMPTY
  || TileState_eqb tileState ERROR && negb useInterimTilesOnError.

Definition isDrawableTile (tile : TileRef) : M bool :=
  tileLayer <- getLayer ;;
  tileState <- Tile_getState tile ;;
  ret (isDrawable tileLayer tileState).

Definition getTile (z x y : Z) (pixelRatio : number) (projection : Projection)
  : M TileRef :=
  tileLayer <- getLayer ;;
  let tileSource := getSource tileLayer in
  let tile := source_getTile tileSource z x y pixelRatio projection in
  tileState <- Tile_getState tile ;;
  (if TileState_eqb tileState ERROR then
     if negb (getUseInterimTilesOnError tileLayer) then
       Tile_setState tile LOADED
     else if getPreload tileLayer >? 0 then
       modify (with_this (set_newTiles_ true))
     else ret tt
   else ret tt) ;;;
  drawable <- isDrawableTile tile ;;
  if negb drawable then Tile_getInterimTile tile else ret tile.

Definition prepareFrame {F L : Type} (frameState : F) (layerState : L) : bool := true.

Definition getTileImage (tile : TileRef) : M (option Image) :=
  gets (fun w => image (tiles w tile)).

Definition drawTileImage (tile : TileRef) (x y w h gutter : number)
  (transition : bool) : M unit :=
  image <- getTileImage tile ;;
  match image with
  | None => ret tt
  | Some image =>
      uid <- getUid ;;
      frameState <- gets frameState ;;
      alpha <- (if transition then Tile_getAlpha tile uid (time frameState)
                else ret 1%float) ;;
      tileLayer <- getLayer ;;
      let tileSource := getSource tileLayer in
      when (strictEq alpha 1%float && negb (getOpaque tileSource (projection (viewState frameState))))
        (ctx_clearRect x y w h) ;;;
      c <- getContext ;;
      let alphaChanged := strictNe alpha (globalAlpha c) in
      when alphaChanged (ctx_save ;;; ctx_set_globalAlpha alpha) ;;;
      ctx_drawImage image gutter gutter
        (img_width image - 2 * gutter)%float (img_height image - 2 * gutter)%float
        x y w h ;;;
      when alphaChanged ctx_restore ;;;
      if strictNe alpha 1%float then modify (with_frameState (set_animate true))
      else if transition then Tile_endTransition tile uid
      else ret tt
  end.

(** [for (let i = lo; i <= hi; ++i) body], threading the local [s]. *)
Fixpoint forFrom {S : Type} (n : nat) (i : Z) (body : Z -> S -> M S) (s : S) : M S :=
  match n with
  | O => ret s
  | Datatypes.S n' => s' <- body i s ;; forFrom n' (i + 1) body s'
  end.

Definition forRange {S : Type} (lo hi : Z) (body : Z -> S -> M S) (s : S) : M S :=
  forFrom (Z.to_nat (hi - lo + 1)) lo body s.

Fixpoint forEach {A : Type} (l : list A) (body : A -> M unit) : M unit :=
  match l with
  | [] => ret tt
  | a :: l' => body a ;;; forEach l' body
  end.

(** The body of the selection loop of [renderFrame] (lines 179-203), for
    the coordinate [(z, x, y)]; [findLoadedTiles] is the finder made by
    [createLoadedTileFinder], which reads the tile store. *)
Definition selectTile (z : Z) (tileGrid : TileGrid)
  (findLoadedTiles : TileStore -> LoadedTileFinder)
  (x y : Z) (tilesToDrawByZ : TilesByZ) : M TilesByZ :=
  frameState <- gets frameState ;;
  tile <- getTile z x y (pixelRatio frameState) (projection (viewState frameState)) ;;
  drawable <- isDrawableTile tile ;;
  r <- (if drawable then
          uid <- getUid ;;
          tileState <- Tile_getState tile ;;
          m <- (if TileState_eqb tileState LOADED then
                  coord <- Tile_tileCoord tile ;;
                  match setTileToDraw z coord tile tilesToDrawByZ with
                  | None => throw
                  | Some m =>
                      inTransition <- Tile_inTransition tile uid ;;
                      rdr <- gets this ;;
                      when (negb (newTiles_ rdr)
                            && (inTransition
                                || negb (existsb (Nat.eqb tile) (renderedTiles rdr))))
                        (modify (with_this (set_newTiles_ true))) ;;;
                      ret m
                  end
                else ret tilesToDrawByZ) ;;
          alpha <- Tile_getAlpha tile uid (time frameState) ;;
          ret (strictEq alpha 1%float, m)
        else ret (false, tilesToDrawByZ)) ;;
  if fst r then ret (snd r)
  else
    coord <- Tile_tileCoord tile ;;
    let childTileRange := getTileCoordChildTileRange tileGrid coord in
    c <- match childTileRange with
         | Some range =>
             emit (FindLoadedTiles (z + 1) range) ;;;
             store <- gets tiles ;;
             ret (findLoadedTiles store (z + 1) range (snd r))
         | None => ret (false, snd r)
         end ;;
    if negb (fst c) then
      emit (ForEachTileCoordParentTileRange coord) ;;;
      store <- gets tiles ;;
      ret (snd (forEachTileCoordParentTileRange tileGrid coord
                  (findLoadedTiles store) (snd c)))
    else ret (snd c).

(** The comparator [renderFrame] sorts the zoom levels with. *)
Definition compareZoom (z a b : Z) : Z :=
  if a =? z then 1
  else if b =? z then -1
  else if a >? b then 1 else if a <? b then -1 else 0.

(** Lines 275-282: the destination rectangle [(x, y, w, h)] of the tile
    at [tileCoord].  The coordinates are integers below [2^53], so their
    difference is exact. *)
Definition destinationRect (origin : Coordinate) (originTileCoord tileCoord : TileCoord)
  (dx dy : number) : number * number * number * number :=
  let floatX := (fst origin - of_Z (coordX originTileCoord - coordX tileCoord) * dx)%float in
  let nextX := Math_round (floatX + dx)%float in
  let floatY := (snd origin - of_Z (coordY originTileCoord - coordY tileCoord) * dy)%float in
  let nextY := Math_round (floatY + dy)%float in
  let x := Math_round floatX in
  let y := Math_round floatY in
  let w := (nextX - x)%float in
  let h := (nextY - y)%float in
  (x, y, w, h).

(** The two edges of lines 275-280 with the arithmetic done exactly, on
    rationals: the rounded left edge [x] and the rounded right edge
    [nextX] of the tile that lies [n] columns left of the origin tile. *)
Definition round_exact (q : Q) : Z := Qfloor (q + (1 # 2))%Q.

Definition edges_exact (origin dx : Q) (n : Z) : Z * Z :=
  let floatX := (origin - inject_Z n * dx)%Q in
  (round_exact floatX, round_exact (floatX + dx)%Q).

(** The left edge [x] and the right edge [x + w] of a rectangle. *)
Definition leftEdge (r : number * number * number * number) : number :=
  let '(x, _, _, _) := r in x.

Definition rightEdge (r : number * number * number * number) : number :=
  let '(x, _, w, _) := r in (x + w)%float.

(** The body of the drawing loop of [renderFrame] (lines 256-287), for
    the zoom level [currentZ]. *)
Definition drawZoom (z : Z) (tileSource : TileSource) (tileGrid : TileGrid)
  (tileResolution canvasScale tilePixelRatio : number) (canvasExtent : Extent)
  (tilesToDrawByZ : TilesByZ) (currentZ : Z) : M unit :=
  frameState <- gets frameState ;;
  let pixelRatio := pixelRatio frameState in
  let projection := projection (viewState frameState) in
  let currentTilePixelSize := getTilePixelSize tileSource currentZ pixelRatio projection in
  let currentResolution := getResolution tileGrid currentZ in
  let currentScale := (currentResolution / tileResolution)%float in
  let dx := (fst currentTilePixelSize * currentScale * canvasScale)%float in
  let dy := (snd currentTilePixelSize * currentScale * canvasScale)%float in
  let originTileCoord :=
    getTileCoordForCoordAndZ tileGrid (getTopLeft lib canvasExtent) currentZ in
  let originTileExtent := getTileCoordExtent tileGrid originTileCoord in
  rdr <- gets this ;;
  let origin := applyTransform lib (tempTransform_ rdr)
    (Math_round (tilePixelRatio * (e0 originTileExtent - e0 canvasExtent) / tileResolution)%float,
     Math_round (tilePixelRatio * (e3 canvasExtent - e3 originTileExtent) / tileResolution)%float) in
  let tileGutter := (tilePixelRatio * getGutterForProjection tileSource projection)%float in
  match tilesAtZ currentZ tilesToDrawByZ with
  | None => ret tt
  | Some tilesToDraw =>
      forEach tilesToDraw (fun kv =>
        let tile := snd kv in
        tileCoord <- Tile_tileCoord tile ;;
        let '(x, y, w, h) := destinationRect origin originTileCoord tileCoord dx dy in
        drawTileImage tile x y w h tileGutter (z =? currentZ) ;;;
        modify (with_this (fun r => set_renderedTiles (renderedTiles r ++ [tile]) r)) ;;;
        emit (UpdateUsedTiles tile))
  end.

(** What [renderFrame] computes from its arguments before it selects
    tiles (lines 125-164): the ideal zoom [z], its resolution, the extent
    to cover, the tile pixel ratio, the canvas dimensions, the extent of
    the canvas and the tile range. *)
Record FrameGeometry := mkFrameGeometry {
  g_z : Z;
  g_tileResolution : number;
  g_extent : Extent;
  g_tilePixelRatio : number;
  g_width : number;
  g_height : number;
  g_canvasExtent : Extent;
  g_tileRange : TileRange
}.

Definition frameGeometry (rdr : Renderer) (frameState : FrameState)
  (layerState : LayerState) : FrameGeometry :=
  let viewState := viewState frameState in
  let projection := projection viewState in
  let viewResolution := resolution viewState in
  let viewCenter := center viewState in
  let rotation := rotation viewState in
  let pixelRatio := pixelRatio frameState in
  let tileSource := getSource (layer rdr) in
  let tileGrid := getTileGridForProjection tileSource projection in
  let z := getZForResolution tileGrid viewResolution (zDirection rdr) in
  let tileResolution := getResolution tileGrid z in
  let extent :=
    match ls_extent layerState with
    | Some e => getIntersection lib (extent frameState) e
    | None => extent frameState
    end in
  let tilePixelRatio := getTilePixelRatio tileSource pixelRatio in
  let width0 := Math_round (fst (size frameState) * tilePixelRatio)%float in
  let height0 := Math_round (snd (size frameState) * tilePixelRatio)%float in
  let rotated :=
    Math_round (Math_sqrt (width0 * width0 + height0 * height0)%float) in
  let width := if truthy rotation then rotated else width0 in
  let height := if truthy rotation then rotated else height0 in
  let dx := (tileResolution * width / 2 / tilePixelRatio)%float in
  let dy := (tileResolution * height / 2 / tilePixelRatio)%float in
  let canvasExtent :=
    mkExtent (fst viewCenter - dx)%float (snd viewCenter - dy)%float
             (fst viewCenter + dx)%float (snd viewCenter + dy)%float in
  let tileRange := getTileRangeForExtentAndZ tileGrid extent z in
  mkFrameGeometry z tileResolution extent tilePixelRatio width height
    canvasExtent tileRange.

Definition renderFrame (layerState : LayerState) : M Canvas :=
  frameState <- gets frameState ;;
  let projection := projection (viewState frameState) in
  let viewResolution := resolution (viewState frameState) in
  let rotation := rotation (viewState frameState) in
  tileLayer <- getLayer ;;
  let tileSource := getSource tileLayer in
  let sourceRevision := getRevision tileSource in
  let tileGrid := getTileGridForProjection tileSource projection in
  rdr <- gets this ;;
  let g := frameGeometry rdr frameState layerState in
  let z := g_z g in
  let tileResolution := g_tileResolution g in
  let extent := g_extent g in
  let tilePixelRatio := g_tilePixelRatio g in
  let width := g_width g in
  let height := g_height g in
  let canvasExtent := g_canvasExtent g in
  let tileRange := g_tileRange g in
  let findLoadedTiles := createLoadedTileFinder lib tileSource projection in
  modify (with_this (set_newTiles_ false)) ;;;
  tilesToDrawByZ <-
    forRange (minX tileRange) (maxX tileRange) (fun x =>
      forRange (minY tileRange) (maxY tileRange) (fun y =>
        selectTile z tileGrid findLoadedTiles x y)) [(z, [])] ;;
  let canvasScale := (tileResolution / viewResolution)%float in
  modify (with_this (fun r =>
    let pixelTransform := composeTransform lib
      (fst (size frameState) / 2)%float (snd (size frameState) / 2)%float
      (1 / tilePixelRatio)%float (1 / tilePixelRatio)%float
      rotation
      (- width / 2)%float (- height / 2)%float in
    set_transforms pixelTransform (makeInverse lib pixelTransform)
      (composeTransform lib (width / 2)%float (height / 2)%float
         canvasScale canvasScale 0%float (- width / 2)%float (- height / 2)%float)
      r)) ;;;
  c <- getContext ;;
  (if strictNe (canvas_width (canvas c)) width
      || strictNe (canvas_height (canvas c)) height then
     setCanvasWidth width ;;; setCanvasHeight height
   else ctx_clearRect 0%float 0%float width height) ;;;
  match ls_extent layerState with
  | Some e => clipUnrotated e
  | None => ret tt
  end ;;;
  emit PreRender ;;;
  modify (with_this (set_renderedTiles [])) ;;;
  let zs := Array_sort (compareZoom z) (zoomKeys tilesToDrawByZ) in
  forEach zs (drawZoom z tileSource tileGrid tileResolution canvasScale
                tilePixelRatio canvasExtent tilesToDrawByZ) ;;;
  modify (with_this (set_rendered tileResolution canvasExtent sourceRevision)) ;;;
  emit (ManageTilePyramid extent z (getPreload tileLayer)) ;;;
  emit ScheduleExpireCache ;;;
  emit PostRender ;;;
  match ls_extent layerState with
  | Some _ => ctx_restore
  | None => ret tt
  end ;;;
  c <- getContext ;;
  when (strictNe (opacity layerState) (style_opacity (canvas c)))
    (setStyleOpacity (opacity layerState)) ;;;
  rdr <- gets this ;;
  let canvasTransform := transformToString lib (pixelTransform_ rdr) in
  when (negb (String.eqb canvasTransform (style_transform (canvas c))))
    (setStyleTransform canvasTransform) ;;;
  c <- getContext ;;
  ret (canvas c).

(** ** Relations between the world before and after a computation *)

(** The state of a tile after a step: kept, or turned from ERROR to
    LOADED by a layer that does not use interim tiles on error. *)
Definition state_kept (tileLayer : TileLayer) (before after : TileState)
  : Prop :=
  after = before
  \/ (before = ERROR /\ getUseInterimTilesOnError tileLayer = false /\ after = LOADED).

Definition states_kept (s s' : World) : Prop :=
  layer (this s') = layer (this s)
  /\ forall r, state_kept (layer (this s)) (state (tiles s r)) (state (tiles s' r)).

Definition states_same (s s' : World) : Prop :=
  layer (this s') = layer (this s)
  /\ forall r, state (tiles s' r) = state (tiles s r).

(** A computation all of whose runs relate the world before and after. *)
Definition preserves (R : World -> World -> Prop) {A : Type} (c : M A) : Prop :=
  forall s a s', c s = Some (a, s') -> R s s'.

(** ** The rest of the class, and the frame pass by phases *)

(** [context ? context.canvas : null]. *)
Definition canvasOf (context : option Context2D) : option Canvas :=
  match context with
  | Some c => Some (canvas c)
  | None => None
  end.

(** [getImage()]; the renderer has had its context since the base class
    constructed it. *)
Definition getImage : M (option Canvas) :=
  c <- getContext ;;
  ret (canvasOf (Some c)).

(** [tilesToDraw[tileCoordKey]]: the tile registered for a coordinate. *)
Fixpoint tileAt (c : TileCoord) (l : TilesAtZ) : option TileRef :=
  match l with
  | [] => None
  | (c', t) :: l' => if TileCoord_eqb c' c then Some t else tileAt c l'
  end.

(** The tiles registered at a zoom level, in the order [for ... in]
    visits them (none when the level has no entry). *)
Definition tilesToDrawAt (z : Z) (m : TilesByZ) : list TileRef :=
  match tilesAtZ z m with
  | Some l => map snd l
  | None => []
  end.

(** Lines 176-206 of [renderFrame]: the selection of the tiles of the
    range. *)
Definition selectTiles (frameState : FrameState) (tileLayer : TileLayer)
  (g : FrameGeometry) : M TilesByZ :=
  let projection := projection (viewState frameState) in
  let tileSource := getSource tileLayer in
  let tileGrid := getTileGridForProjection tileSource projection in
  let findLoadedTiles := createLoadedTileFinder lib tileSource projection in
  modify (with_this (set_newTiles_ false)) ;;;
  forRange (minX (g_tileRange g)) (maxX (g_tileRange g)) (fun x =>
    forRange (minY (g_tileRange g)) (maxY (g_tileRange g)) (fun y =>
      selectTile (g_z g) tileGrid findLoadedTiles x y)) [(g_z g, [])].

(** Lines 209-242: the transforms, the canvas, the clip and the reset of
    [renderedTiles]. *)
Definition prepareCanvas (frameState : FrameState) (g : FrameGeometry)
  (layerState : LayerState) : M unit :=
  let rotation := rotation (viewState frameState) in
  let tilePixelRatio := g_tilePixelRatio g in
  let width := g_width g in
  let height := g_height g in
  let canvasScale :=
    (g_tileResolution g / resolution (viewState frameState))%float in
  modify (with_this (fun r =>
    let pixelTransform := composeTransform lib
      (fst (size frameState) / 2)%float (snd (size frameState) / 2)%float
      (1 / tilePixelRatio)%float (1 / tilePixelRatio)%float
      rotation
      (- width / 2)%float (- height / 2)%float in
    set_transforms pixelTransform (makeInverse lib pixelTransform)
      (composeTransform lib (width / 2)%float (height / 2)%float
         canvasScale canvasScale 0%float (- width / 2)%float (- height / 2)%float)
      r)) ;;;
  c <- getContext ;;
  (if strictNe (canvas_width (canvas c)) width
      || strictNe (canvas_height (canvas c)) height then
     setCanvasWidth width ;;; setCanvasHeight height
   else ctx_clearRect 0%float 0%float width height) ;;;
  match ls_extent layerState with
  | Some e => clipUnrotated e
  | None => ret tt
  end ;;;
  emit PreRender ;;;
  modify (with_this (set_renderedTiles [])).

(** Lines 244-288: the zoom levels in drawing order, and the drawing of
    their tiles. *)
Definition drawOrder (z : Z) (tilesToDrawByZ : TilesByZ) : list Z :=
  Array_sort (compareZoom z) (zoomKeys tilesToDrawByZ).

Definition drawTiles (frameState : FrameState) (tileLayer : TileLayer)
  (g : FrameGeometry) (tilesToDrawByZ : TilesByZ) : M unit :=
  let projection := projection (viewState frameState) in
  let tileSource := getSource tileLayer in
  let tileGrid := getTileGridForProjection tileSource projection in
  let canvasScale :=
    (g_tileResolution g / resolution (viewState frameState))%float in
  forEach (drawOrder (g_z g) tilesToDrawByZ)
    (drawZoom (g_z g) tileSource tileGrid (g_tileResolution g) canvasScale
       (g_tilePixelRatio g) (g_canvasExtent g) tilesToDrawByZ).

(** Lines 291-315: the bookkeeping, the tile pyramid, the end of the clip
    and the style of the canvas. *)
Definition finishFrame (tileLayer : TileLayer) (g : FrameGeometry)
  (layerState : LayerState) : M Canvas :=
  modify (with_this (set_rendered (g_tileResolution g) (g_canvasExtent g)
                       (getRevision (getSource tileLayer)))) ;;;
  emit (ManageTilePyramid (g_extent g) (g_z g) (getPreload tileLayer)) ;;;
  emit ScheduleExpireCache ;;;
  emit PostRender ;;;
  match ls_extent layerState with
  | Some _ => ctx_restore
  | None => ret tt
  end ;;;
  c <- getContext ;;
  when (strictNe (opacity layerState) (style_opacity (canvas c)))
    (setStyleOpacity (opacity layerState)) ;;;
  rdr <- gets this ;;
  let canvasTransform := transformToString lib (pixelTransform_ rdr) in
  when (negb (String.eqb canvasTransform (style_transform (canvas c))))
    (setStyleTransform canvasTransform) ;;;
  c <- getContext ;;
  ret (canvas c).

(** The four phases in sequence. *)
Definition renderFrame_phases (layerState : LayerState) : M Canvas :=
  fun s =>
    let g := frameGeometry (this s) (frameState s) layerState in
    (tilesToDrawByZ <- selectTiles (frameState s) (layer (this s)) g ;;
     prepareCanvas (frameState s) g layerState ;;;
     drawTiles (frameState s) (layer (this s)) g tilesToDrawByZ ;;;
     finishFrame (layer (this s)) g layerState) s.

(** ** What a trace says *)

(** The tiles handed to [updateUsedTiles], in order. *)
Definition usedTiles (tr : list Event) : list TileRef :=
  flat_map (fun e => match e with UpdateUsedTiles t => [t] | _ => [] end) tr.

(** The number of [save()] calls not yet undone by a [restore()]. *)
Definition saveDepth (tr : list Event) : Z :=
  fold_right (fun e d => match e with
                         | Save => d + 1
                         | Restore => d - 1
                         | _ => d
                         end) 0 tr.

(** A trace in which the drawing state is neither saved nor restored. *)
Definition saveFree (tr : list Event) : bool :=
  forallb (fun e => match e with Save | Restore => false | _ => true end) tr.

(** A trace in which [save()] and [restore()] come in pairs that do not
    nest.  The trace is read from left to right, [waiting] telling
    whether a [save] is waiting for its [restore]: a [save] comes only
    when none is waiting, a [restore] only when one is, between the two
    nothing happens but the drawing of images, and at the end no [save]
    is left waiting. *)
Fixpoint paired (waiting : bool) (tr : list Event) : bool :=
  match tr with
  | [] => negb waiting
  | Save :: tr' => negb waiting && paired true tr'
  | Restore :: tr' => waiting && paired false tr'
  | DrawImage _ _ _ _ _ _ _ _ _ _ :: tr' => paired waiting tr'
  | _ :: tr' => negb waiting && paired false tr'
  end.

(** The events added between two worlds satisfy [P]. *)
Definition appended (P : list Event -> bool) (s s' : World) : Prop :=
  exists tr, trace s' = trace s ++ tr /\ P tr = true.

(** What selecting tiles may change: the tiles and the flag
    [newTiles_]; it saves and restores nothing and hands no tile to
    [updateUsedTiles]. *)
Definition selected (s s' : World) : Prop :=
  this s' = set_newTiles_ (newTiles_ (this s')) (this s)
  /\ frameState s' = frameState s
  /\ usedTiles (trace s') = usedTiles (trace s)
  /\ saveDepth (trace s') = saveDepth (trace s).

(** What drawing the tiles [l] changes: the tiles, [renderedTiles], to
    which [l] is appended, the trace, in which [l] is handed to
    [updateUsedTiles] and every [save] is undone, and the flag
    [animate], which is never cleared. *)
Definition drawn (l : list TileRef) (s s' : World) : Prop :=
  this s' = set_renderedTiles (renderedTiles (this s) ++ l) (this s)
  /\ usedTiles (trace s') = usedTiles (trace s) ++ l
  /\ saveDepth (trace s') = saveDepth (trace s)
  /\ frameState s' = set_animate (animate (frameState s')) (frameState s)
  /\ (animate (frameState s) = true -> animate (frameState s') = true).

(** A finder or an ancestor walk that keeps the entry of zoom [z] in
    [tilesToDrawByZ]. *)
Definition keepsEntry (z : Z) (f : TilesByZ -> bool * TilesByZ) : Prop :=
  forall m, tilesAtZ z m <> None -> tilesAtZ z (snd (f m)) <> None.

End Renderer.

(** ** A concrete layer, source, grid and tile store

    Small instances of the collaborators, on which the methods can be
    run: a grid whose only zoom level in view is 4, a source with tiles
    of 256 pixels, and a store of five kinds of tile. *)

Module Sample.

Definition Projection := string.

(** A transform, kept as the arguments it was composed from. *)
Definition Transform := list number.

(** The transition bookkeeping of a sample tile is the alpha it has. *)
Definition Transition := number.

Definition tileMethods : @TileMethods Transition :=
  mkTileMethods
    (fun tr _ => PrimFloat.ltb tr 1)
    (fun tr _ _ => (tr, tr))
    (fun _ _ => 1%float)
    (fun _ t => t).

Definition library : @Library Projection Transform Transition :=
  mkLibrary
    (fun _ b => b)
    (fun e => (e0 e, e3 e))
    (fun a b c d e f g => [a; b; c; d; e; f; g])
    (fun t => t)
    (fun _ c => c)
    (fun _ => "matrix(1, 0, 0, 1, 0, 0)"%string)
    (fun _ _ _ _ _ m => (false, m)).

(** A grid that answers every extent with [range] and every tile with
    the child range [children]. *)
Definition grid (range : TileRange) (children : option TileRange) : TileGrid :=
  mkTileGrid
    (fun _ _ => 4)
    (fun _ => 1%float)
    (fun _ _ => range)
    (fun _ => children)
    (fun _ _ m => (false, m))
    (fun _ z => (z, 0, 0))
    (fun _ => mkExtent 0%float 0%float 256%float 256%float).

(** The source hands out the tile whose reference is the column [x]. *)
Definition source (range : TileRange) (children : option TileRange) (opaque : bool)
  : @TileSource Projection :=
  mkTileSource
    (fun _ x _ _ _ => Z.to_nat x)
    7
    (fun _ => grid range children)
    (fun r => r)
    (fun _ _ _ => (256%float, 256%float))
    (fun _ => 0%float)
    (fun _ => opaque).

Definition picture : Image := mkImage 256%float 256%float.

(** Tile 0 is loaded and opaque, tile 1 failed to load, tile 2 is idle,
    tile 3 is loaded and half-way through its transition; the others are
    loading. *)
Definition store : @TileStore Transition :=
  fun r =>
    match r with
    | 0%nat => mkTile (4, 0, 0) LOADED 1%float (Some picture)
    | 1%nat => mkTile (4, 1, 0) ERROR 1%float None
    | 2%nat => mkTile (4, 2, 0) IDLE 1%float None
    | 3%nat => mkTile (4, 3, 0) LOADED 0.5%float (Some picture)
    | _ => mkTile (4, Z.of_nat r, 0) LOADING 1%float None
    end.

Definition renderer (l : @TileLayer Projection) : @Renderer Projection Transform :=
  mkRenderer l "42"%string
    (mkContext2D (mkCanvas 300%float 150%float PrimFloat.nan EmptyString) 1%float [])
    [] [] [] None None None [] false 0.

Definition frame (size : number * number) : @FrameState Projection :=
  mkFrameState (mkViewState "EPSG:3857"%string 1%float (0%float, 0%float) 0%float)
    1%float (mkExtent 0%float 0%float 0%float 0%float) size 1000%float false.

Definition world (range : TileRange) (children : option TileRange)
  (opaque useInterimTilesOnError : bool) (preload : Z) (size : number * number)
  : @World Projection Transform Transition :=
  mkWorld store
    (renderer (mkTileLayer (source range children opaque) useInterimTilesOnError preload))
    (frame size) [].

Definition layerState : LayerState := mkLayerState None 1%float.

Definition oneTile : TileRange := mkTileRange 0 0 0 0.
Definition noTile : TileRange := mkTileRange 0 (-1) 0 0.
Definition fourTiles : TileRange := mkTileRange 0 3 0 0.
Definition childTiles : TileRange := mkTileRange 4 5 0 1.

Definition viewport : number * number := (500%float, 300%float).

(** A source that is not opaque under a layer that does not use interim
    tiles on error; the grid has no child range. *)
Definition plain : @World Projection Transform Transition :=
  world oneTile None false false 0 viewport.

(** The same under a layer that uses interim tiles on error and does not
    preload. *)
Definition interim : @World Projection Transform Transition :=
  world oneTile None false true 0 viewport.

(** The same as [plain] on a grid with a child range for every tile. *)
Definition withChildren : @World Projection Transform Transition :=
  world oneTile (Some childTiles) false false 0 viewport.

(** Four tiles in range, no tile in range, and one tile in range under a
    viewport of zero size. *)
Definition fourInRange : @World Projection Transform Transition :=
  world fourTiles None false false 0 viewport.

Definition noneInRange : @World Projection Transform Transition :=
  world noTile None false false 0 viewport.

Definition zeroSize : @World Projection Transform Transition :=
  world oneTile None false false 0 (0%float, 0%float).

(** The store in which the failed tile has an image and is half-way
    through its transition, under a layer that does not use interim
    tiles on error, with the column of that tile in range and a child
    range for every tile. *)
Definition failedStore : @TileStore Transition :=
  fun r =>
    match r with
    | 1%nat => mkTile (4, 1, 0) ERROR 0.5%float (Some picture)
    | _ => store r
    end.

Definition secondTile : TileRange := mkTileRange 1 1 0 0.

Definition failedHalfway : @World Projection Transform Transition :=
  mkWorld failedStore
    (renderer (mkTileLayer (source secondTile (Some childTiles) false) false 0))
    (frame viewport) [].

End Sample.

(** ** Colours ([ol/color.js]) *)

Module Color.

(** [new ol.Color(r, g, b, a)]. *)
Record Color := mkColor { r : number; g : number; b : number; a : number }.

Section FromString.

(** The Closure library is not part of the sources:
    [goog.color.parse(str).hex] is the hex form of a colour string
    ([None] when [parse] throws on a string that is no colour), and
    [goog.color.hexToRgb] gives the three components of a hex form. *)
Variable parse_hex : string -> option string.
Variable hexToRgb : string -> number * number * number.

Definition createFromString (str : string) (opt_a : option number) : option Color :=
  match parse_hex str with
  | None => None
  | Some hex =>
      let rgb := hexToRgb hex in
      let alpha :=
        match opt_a with
        | Some x => if truthy x then x else 255%float
        | None => 255%float
        end in
      Some (mkColor (fst (fst rgb)) (snd (fst rgb)) (snd rgb) alpha)
  end.

End FromString.

Definition equals (color1 color2 : Color) : bool :=
  strictEq (r color1) (r color2)
  && strictEq (g color1) (g color2)
  && strictEq (b color1) (b color2)
  && strictEq (a color1) (a color2).

End Color.

(** * Properties *)

(** ** Numbers *)

Lemma SFeqb_true (x y : spec_float) :
  SFeqb x y = true ->
  (x = y /\ x <> S754_nan)
  \/ (exists s s', x = S754_zero s /\ y = S754_zero s').
Proof.
  unfold SFeqb, SFcompare.
  destruct x as [sx|sx| |sx mx ex], y as [sy|sy| |sy my ey];
    try discriminate; try (destruct sx; discriminate); try (destruct sy; discriminate).
  - intros _. right. eauto.
  - destruct sx, sy; try discriminate; intros _; left; split; congruence.
  - destruct sx, sy; try discriminate;
      destruct (ex ?= ey) eqn:He; try discriminate;
      destruct (Pos.compare_cont Eq mx my) eqn:Hm; try discriminate;
      intros _; left;
      apply Z.compare_eq in He; apply Pos.compare_eq in Hm; subst;
      split; congruence.
Qed.

Lemma SFeqb_sym (x y : spec_float) : SFeqb x y = SFeqb y x.
Proof.
  unfold SFeqb, SFcompare.
  destruct x as [sa|sa| |sa ma ea], y as [sb|sb| |sb mb eb];
    try reflexivity; try (destruct sa, sb; reflexivity); try (destruct sa; reflexivity);
    try (destruct sb; reflexivity).
  rewrite (Z.compare_antisym ea eb).
  replace (Pos.compare_cont Eq mb ma) with (CompOpp (Pos.compare_cont Eq ma mb))
    by (rewrite Pos.compare_cont_antisym; reflexivity).
  destruct sa, sb; try reflexivity;
    destruct (ea ?= eb)%Z; simpl; try reflexivity;
    destruct (Pos.compare_cont Eq ma mb); reflexivity.
Qed.

Lemma strictEq_sym (x y : number) : strictEq x y = strictEq y x.
Proof. unfold strictEq. rewrite !FloatAxioms.eqb_spec. apply SFeqb_sym. Qed.

Lemma strictEq_trans (x y w : number) :
  strictEq x y = true -> strictEq y w = true -> strictEq x w = true.
Proof.
  unfold strictEq. rewrite !FloatAxioms.eqb_spec. intros Hxy Hyw.
  destruct (SFeqb_true _ _ Hxy) as [[Heq _] | (sx & sy & Hx & Hy)].
  - now rewrite Heq.
  - rewrite Hx. rewrite Hy in Hyw.
    destruct (SFeqb_true _ _ Hyw) as [[Heq _] | (sy' & sw & _ & Hw)].
    + now rewrite <- Heq.
    + now rewrite Hw.
Qed.

(** The zeros, and what is finite. *)
Lemma strictEq_zero_spec (a : number) :
  strictEq a 0%float = true -> exists sg, Prim2SF a = S754_zero sg.
Proof.
  unfold strictEq. rewrite FloatAxioms.eqb_spec.
  change (Prim2SF 0%float) with (S754_zero false).
  unfold SFeqb, SFcompare.
  destruct (Prim2SF a) as [sg|sg| |sg m e];
    try discriminate; try (destruct sg; discriminate).
  intros _. now exists sg.
Qed.

Lemma zero_strictEq (a : number) (sg : bool) :
  Prim2SF a = S754_zero sg -> strictEq a 0%float = true.
Proof.
  intros H. unfold strictEq. rewrite FloatAxioms.eqb_spec, H. reflexivity.
Qed.

Lemma is_finite_spec (b : number) :
  PrimFloat.is_finite b = true ->
  match Prim2SF b with
  | S754_nan | S754_infinity _ => False
  | _ => True
  end.
Proof.
  unfold PrimFloat.is_finite, PrimFloat.is_nan, PrimFloat.is_infinity.
  rewrite !FloatAxioms.eqb_spec, FloatAxioms.abs_spec.
  change (Prim2SF infinity) with (S754_infinity false).
  destruct (Prim2SF b) as [sg|sg| |sg m e]; simpl; try discriminate; auto.
  destruct sg; discriminate.
Qed.

(** Zero times a finite number is a zero. *)
Lemma mul_zero (a b : number) (sg : bool) :
  Prim2SF a = S754_zero sg -> PrimFloat.is_finite b = true ->
  exists sg', Prim2SF (a * b)%float = S754_zero sg'.
Proof.
  intros Ha Hb. apply is_finite_spec in Hb.
  rewrite FloatAxioms.mul_spec, Ha. unfold SF64mul, SFmul.
  destruct (Prim2SF b) as [sb|sb| |sb m e]; try contradiction; eauto.
Qed.

Lemma Math_round_zero (x : number) (sg : bool) :
  Prim2SF x = S754_zero sg -> Math_round x = x.
Proof. intros H. unfold Math_round. now rewrite H. Qed.

(** The diagonal of a canvas of zero width and zero height. *)
Lemma rotated_zero (w h : number) (sw sh : bool) :
  Prim2SF w = S754_zero sw -> Prim2SF h = S754_zero sh ->
  Prim2SF (Math_round (Math_sqrt (w * w + h * h)%float)) = S754_zero false.
Proof.
  intros Hw Hh.
  assert (H : Prim2SF (Math_sqrt (w * w + h * h)%float) = S754_zero false).
  { unfold Math_sqrt.
    rewrite FloatAxioms.sqrt_spec, FloatAxioms.add_spec, !FloatAxioms.mul_spec, Hw, Hh.
    destruct sw, sh; reflexivity. }
  now rewrite (Math_round_zero _ _ H).
Qed.

(** A dimension that is, or equals as a number, a computed zero. *)
Lemma dimension_zero (d computed : number) (sg : bool) :
  d = computed \/ strictNe d computed = false ->
  Prim2SF computed = S754_zero sg ->
  strictEq d 0%float = true.
Proof.
  intros [-> | Hne] Hz; [now apply (zero_strictEq _ sg)|].
  apply (strictEq_trans d computed); [|now apply (zero_strictEq _ sg)].
  unfold strictNe in Hne. unfold strictEq. now apply negb_false_iff.
Qed.

(** ** Zoom ordering *)

Section ZoomOrder.

Variable z : Z.

Lemma compareZoom_ideal_first (b : Z) : compareZoom z z b = 1.
Proof. unfold compareZoom. now rewrite Z.eqb_refl. Qed.

Lemma compareZoom_ideal_second (a : Z) : a <> z -> compareZoom z a z = -1.
Proof.
  intros Ha. unfold compareZoom.
  apply Z.eqb_neq in Ha. now rewrite Ha, Z.eqb_refl.
Qed.

Lemma compareZoom_numeric (a b : Z) :
  a <> z -> b <> z -> (compareZoom z a b <=? 0) = (a <=? b).
Proof.
  intros Ha Hb. unfold compareZoom.
  apply Z.eqb_neq in Ha, Hb. rewrite Ha, Hb.
  destruct (Z.gtb_spec a b), (Z.ltb_spec a b), (Z.leb_spec a b);
    simpl; try reflexivity; lia.
Qed.

Lemma insertBy_ideal (l : list Z) : insertBy (compareZoom z) z l = l ++ [z].
Proof.
  induction l as [|b l IH]; simpl; [reflexivity|].
  rewrite compareZoom_ideal_first. simpl. now rewrite IH.
Qed.

Lemma insertBy_before_ideal (a : Z) (l : list Z) :
  a <> z -> ~ In z l ->
  insertBy (compareZoom z) a (l ++ [z]) = insertBy (compareZoom z) a l ++ [z].
Proof.
  intros Ha. induction l as [|b l IH]; intros Hz; simpl.
  - now rewrite compareZoom_ideal_second.
  - destruct (compareZoom z a b <=? 0); [reflexivity|].
    simpl. rewrite IH; [reflexivity|]. intros H. apply Hz. now right.
Qed.

Lemma insertBy_perm (cmp : Z -> Z -> Z) (a : Z) (l : list Z) :
  Permutation (a :: l) (insertBy cmp a l).
Proof.
  induction l as [|b l IH]; simpl; [reflexivity|].
  destruct (cmp a b <=? 0); [reflexivity|].
  rewrite perm_swap. now constructor.
Qed.

Lemma Array_sort_perm (cmp : Z -> Z -> Z) (l : list Z) :
  Permutation l (Array_sort cmp l).
Proof.
  induction l as [|a l IH]; simpl; [reflexivity|].
  rewrite <- insertBy_perm. now constructor.
Qed.

Lemma insertBy_Forall (P : Z -> Prop) (cmp : Z -> Z -> Z) (a : Z) (l : list Z) :
  P a -> Forall P l -> Forall P (insertBy cmp a l).
Proof.
  intros Ha Hl. eapply Permutation_Forall; [apply insertBy_perm|].
  now constructor.
Qed.

Lemma insertBy_ascending (a : Z) (l : list Z) :
  a <> z -> ~ In z l -> ~ In a l ->
  StronglySorted Z.lt l -> StronglySorted Z.lt (insertBy (compareZoom z) a l).
Proof.
  intros Ha. induction l as [|b l IH]; intros Hz Hal Hs; simpl.
  - repeat constructor.
  - assert (Hb : b <> z) by (intros ->; apply Hz; now left).
    assert (Hab : a <> b) by (intros ->; apply Hal; now left).
    inversion Hs as [|? ? Hs' Hall]; subst.
    rewrite compareZoom_numeric by assumption.
    destruct (Z.leb_spec a b).
    + constructor; [assumption|].
      constructor; [lia|].
      eapply Forall_impl; [|exact Hall]. simpl. intros; lia.
    + constructor.
      * apply IH; try assumption; intros H'; [apply Hz | apply Hal]; now right.
      * apply insertBy_Forall; [lia | assumption].
Qed.

(** What sorting gives, by induction on the keys: an ascending list
    without [z] while [z] has not been met, and an ascending list without
    [z] followed by [z] once it has. *)
Lemma Array_sort_shape (l : list Z) :
  NoDup l ->
  (~ In z l ->
     StronglySorted Z.lt (Array_sort (compareZoom z) l)) /\
  (In z l ->
     exists rest, Array_sort (compareZoom z) l = rest ++ [z]
       /\ ~ In z rest /\ StronglySorted Z.lt rest).
Proof.
  induction l as [|a l IH]; intros Hnd.
  - split; [intros _; constructor | intros []].
  - inversion Hnd as [|? ? Hal Hnd']; subst.
    destruct (IH Hnd') as [IHout IHin]. simpl.
    assert (Hperm := Array_sort_perm (compareZoom z) l).
    split.
    + intros Hz.
      assert (Hz' : ~ In z l) by (intros H; apply Hz; now right).
      apply insertBy_ascending.
      * intros ->. apply Hz. now left.
      * intros H. apply Hz'. eapply Permutation_in; [symmetry; exact Hperm|exact H].
      * intros H. apply Hal. eapply Permutation_in; [symmetry; exact Hperm|exact H].
      * now apply IHout.
    + intros [-> | Hz].
      * exists (Array_sort (compareZoom z) l).
        assert (Hzs : ~ In z (Array_sort (compareZoom z) l)).
        { intros H. apply Hal.
          eapply Permutation_in; [symmetry; exact Hperm|exact H]. }
        split; [apply insertBy_ideal|]. split; [exact Hzs|]. now apply IHout.
      * destruct (IHin Hz) as (rest & Heq & Hzr & Hs).
        assert (Haz : a <> z) by (intros ->; now apply Hal).
        exists (insertBy (compareZoom z) a rest).
        rewrite Heq. split; [now apply insertBy_before_ideal|].
        assert (Har : ~ In a rest).
        { intros H. apply Hal.
          eapply Permutation_in; [symmetry; exact Hperm|].
          rewrite Heq. apply in_or_app. now left. }
        split.
        -- intros H.
           apply (Permutation_in _ (Permutation_sym (insertBy_perm _ a rest))) in H.
           destruct H as [H|H]; [now apply Haz | now apply Hzr].
        -- now apply insertBy_ascending.
Qed.

(** Two strictly ascending lists with the same elements are equal. *)
Lemma ascending_unique (l1 l2 : list Z) :
  StronglySorted Z.lt l1 -> StronglySorted Z.lt l2 -> Permutation l1 l2 -> l1 = l2.
Proof.
  revert l2. induction l1 as [|a l1 IH]; intros l2 H1 H2 Hp.
  - now apply Permutation_nil in Hp.
  - destruct l2 as [|b l2].
    + symmetry in Hp. now apply Permutation_nil in Hp.
    + inversion H1 as [|? ? H1' Ha]; subst.
      inversion H2 as [|? ? H2' Hb]; subst.
      assert (Hab : a = b).
      { assert (Hin1 : In a (b :: l2))
          by (eapply Permutation_in; [exact Hp | now left]).
        assert (Hin2 : In b (a :: l1))
          by (eapply Permutation_in; [symmetry; exact Hp | now left]).
        destruct Hin1 as [Hba | Hin1]; [now symmetry|].
        destruct Hin2 as [Hab | Hin2]; [assumption|].
        rewrite Forall_forall in Ha, Hb.
        specialize (Ha _ Hin2). specialize (Hb _ Hin1). lia. }
      subst b. f_equal. apply IH; try assumption.
      now apply Permutation_cons_inv in Hp.
Qed.

Lemma sortedBy_shape (l : list Z) :
  NoDup l -> sortedBy (compareZoom z) l ->
  (~ In z l -> StronglySorted Z.lt l) /\
  (In z l ->
     exists rest, l = rest ++ [z] /\ ~ In z rest /\ StronglySorted Z.lt rest).
Proof.
  induction l as [|a l IH]; intros Hnd Hs.
  - split; [intros _; constructor | intros []].
  - inversion Hnd as [|? ? Hal Hnd']; subst.
    inversion Hs as [|? ? Ha Hs']; subst.
    destruct (IH Hnd' Hs') as [IHout IHin].
    rewrite Forall_forall in Ha.
    destruct (Z.eq_dec a z) as [->|Haz].
    + assert (l = []) as ->.
      { destruct l as [|b l]; [reflexivity|].
        specialize (Ha b (or_introl eq_refl)).
        rewrite compareZoom_ideal_first in Ha. lia. }
      split; [intros H; exfalso; apply H; now left|].
      intros _. exists []. repeat split; [intros [] | constructor].
    + assert (Hlt : forall b, In b l -> b <> z -> a < b).
      { intros b Hb Hbz. specialize (Ha b Hb).
        assert (Hc := compareZoom_numeric a b Haz Hbz).
        destruct (Z.leb_spec a b) as [Hle|Hgt].
        - assert (a <> b) by (intros ->; now apply Hal). lia.
        - apply Z.leb_gt in Hc. lia. }
      split.
      * intros Hz.
        assert (Hz' : ~ In z l) by (intros H; apply Hz; now right).
        constructor; [now apply IHout|].
        apply Forall_forall. intros b Hb. apply Hlt; [assumption|].
        intros ->. now apply Hz'.
      * intros [Heq | Hz]; [congruence|].
        destruct (IHin Hz) as (rest & -> & Hzr & Hsr).
        exists (a :: rest). split; [reflexivity|]. split.
        -- intros [H|H]; [now apply Haz | now apply Hzr].
        -- constructor; [assumption|].
           apply Forall_forall. intros b Hb.
           apply Hlt; [apply in_or_app; now left|].
           intros ->. now apply Hzr.
Qed.

(** The outcome of [Array_sort] is in sorted order for the comparator. *)
Lemma Array_sort_sortedBy (zs : list Z) :
  NoDup zs -> In z zs -> sortedBy (compareZoom z) (Array_sort (compareZoom z) zs).
Proof.
  intros Hnd Hz.
  destruct (Array_sort_shape zs Hnd) as [_ Hin].
  destruct (Hin Hz) as (rest & -> & Hzr & Hsr).
  clear Hin Hnd Hz. unfold sortedBy.
  induction rest as [|a rest IH]; simpl.
  - repeat constructor.
  - inversion Hsr as [|? ? Hsr' Ha]; subst.
    assert (Haz : a <> z) by (intros ->; apply Hzr; now left).
    assert (Hzr' : ~ In z rest) by (intros H; apply Hzr; now right).
    constructor; [|now apply IH].
    apply Forall_app. split.
    + rewrite Forall_forall in Ha. apply Forall_forall. intros b Hb.
      assert (Hbz : b <> z) by (intros ->; now apply Hzr').
      assert (Hc := compareZoom_numeric a b Haz Hbz).
      specialize (Ha b Hb).
      destruct (Z.leb_spec a b); [|lia].
      now apply Z.leb_le in Hc.
    + constructor; [|constructor].
      rewrite compareZoom_ideal_second by assumption. lia.
Qed.

(** For duplicate-free keys that hold [z], the comparator of
    [renderFrame] has one sorted order only: whichever algorithm a
    JavaScript engine sorts with, the outcome is that of [Array_sort]. *)
Lemma sort_unique (zs l : list Z) :
  NoDup zs -> In z zs -> Permutation zs l -> sortedBy (compareZoom z) l ->
  l = Array_sort (compareZoom z) zs.
Proof.
  intros Hnd Hz Hp Hs.
  destruct (Array_sort_shape zs Hnd) as [_ Hin].
  destruct (Hin Hz) as (rest & Heq & Hzr & Hsr).
  assert (Hnd' : NoDup l) by (eapply Permutation_NoDup; eassumption).
  assert (Hz' : In z l) by (eapply Permutation_in; eassumption).
  destruct (sortedBy_shape l Hnd' Hs) as [_ Hin'].
  destruct (Hin' Hz') as (rest' & -> & Hzr' & Hsr').
  rewrite Heq. f_equal.
  apply ascending_unique; try assumption.
  apply Permutation_app_inv_r with (l := [z]).
  rewrite <- Heq. rewrite <- Hp. rewrite <- (Array_sort_perm (compareZoom z) zs).
  reflexivity.
Qed.

(** The order the keys are enumerated in does not matter. *)
Lemma sort_any_order (zs zs' : list Z) :
  NoDup zs -> In z zs -> Permutation zs zs' ->
  Array_sort (compareZoom z) zs' = Array_sort (compareZoom z) zs.
Proof.
  intros Hnd Hz Hp.
  apply sort_unique; try assumption.
  - rewrite Hp. apply Array_sort_perm.
  - apply Array_sort_sortedBy.
    + eapply Permutation_NoDup; eassumption.
    + eapply Permutation_in; eassumption.
Qed.

End ZoomOrder.

(** Registering a tile adds no zoom level and removes none. *)
Lemma setTileToDraw_keys (z : Z) (c : TileCoord) (t : TileRef) (m m' : TilesByZ) :
  setTileToDraw z c t m = Some m' -> zoomKeys m' = zoomKeys m.
Proof.
  revert m'. induction m as [|[z' l] m IH]; simpl; intros m' H; [discriminate|].
  destruct (z' =? z).
  - now injection H as <-.
  - destruct (setTileToDraw z c t m) as [m1|]; [|discriminate].
    injection H as <-. simpl. f_equal. now apply IH.
Qed.

(** C4: the zoom levels to draw are a duplicate-free list of keys that
    holds the ideal zoom [z] ([tilesToDrawByZ[z]] is created before
    anything else); sorting them with the comparator of [renderFrame]
    puts [z] last, and before it all the other levels in ascending
    numeric order. *)
Theorem zoom_draw_order (z : Z) (zs : list Z) :
  NoDup zs -> In z zs ->
  exists rest,
    Array_sort (compareZoom z) zs = rest ++ [z]
    /\ ~ In z rest
    /\ StronglySorted Z.lt rest
    /\ Permutation zs (rest ++ [z]).
Proof.
  intros Hnd Hz.
  destruct (Array_sort_shape z zs Hnd) as [_ Hin].
  destruct (Hin Hz) as (rest & Heq & Hzr & Hs).
  exists rest. repeat split; try assumption.
  rewrite <- Heq. apply Array_sort_perm.
Qed.

Example sort_3_5_7_ideal_5 : Array_sort (compareZoom 5) [3; 5; 7] = [3; 7; 5].
Proof. reflexivity. Qed.

Example sort_7_5_3_ideal_5 : Array_sort (compareZoom 5) [7; 5; 3] = [3; 7; 5].
Proof. reflexivity. Qed.

(** ** Destination rectangles *)

(** With exact arithmetic the right edge of a tile is the left edge of
    its right neighbour, whatever the origin and the step: in
    [destinationRect] the two can only part through the rounding of the
    floating-point operations. *)
Lemma seam_exact (origin dx : Q) (n : Z) :
  snd (edges_exact origin dx n) = fst (edges_exact origin dx (n - 1)).
Proof.
  unfold edges_exact, round_exact. cbn [fst snd].
  apply Qfloor_comp.
  unfold Z.sub. rewrite inject_Z_plus.
  change (inject_Z (- (1))) with (- (1))%Q. ring.
Qed.

(** C1: with tiles of 256 pixels drawn at the scale 1.3 (a step of
    [256 * 1.3] pixels) from the origin [-520.9000000000001], the tile two
    columns right of the origin tile is given the rectangle
    [x = 145, w = 332], whose right edge is 477, and the tile three
    columns right is given [x = 478]: the edges the two tiles share are
    rounded from [477.49999999999994] and from [477.5] and differ by one
    pixel. *)
Theorem destinationRect_seam_gap :
  let origin := ((-0x1.0473333333334p+9)%float, 0%float) in
  let dx := (256 * 1 * 0x1.4cccccccccccdp+0)%float in
  let first := destinationRect origin (4, 0, 0) (4, 2, 0) dx dx in
  let second := destinationRect origin (4, 0, 0) (4, 3, 0) dx dx in
  first = (145%float, 0%float, 332%float, 333%float)
  /\ second = (478%float, 0%float, 332%float, 333%float)
  /\ rightEdge first = 477%float
  /\ leftEdge second = 478%float
  /\ strictEq (rightEdge first) (leftEdge second) = false.
Proof. vm_compute. repeat split; reflexivity. Qed.

(** ** The renderer's methods *)

Section RendererProperties.

Context {Projection Transform Transition : Type}.
Variable tm : @TileMethods Transition.
Variable lib : @Library Projection Transform Transition.

Local Abbreviation World := (@World Projection Transform Transition).
Local Abbreviation Run := (@M Projection Transform Transition).
Local Abbreviation keeps := (@preserves Projection Transform Transition).

Ltac run :=
  unfold bind, ret, gets, modify, emit, when, throw,
    getUid, getLayer, getContext, putContext,
    Tile_getState, Tile_tileCoord, Tile_setState, Tile_inTransition,
    Tile_getAlpha, Tile_endTransition, Tile_getInterimTile, getTileImage;
  simpl.

Lemma isDrawableTile_run (tile : TileRef) (s : World) :
  isDrawableTile tile s =
    Some (isDrawable (layer (this s)) (state (tiles s tile)), s).
Proof. reflexivity. Qed.

(** C3: [isDrawableTile] returns true for a LOADED and for an EMPTY
    tile, for an ERROR tile it returns true exactly when the layer does
    not use interim tiles on error, and it returns false for a LOADING
    and for an IDLE tile; it changes nothing. *)
Theorem isDrawableTile_truth_table (tile : TileRef) (s : World) :
  isDrawableTile tile s =
    Some (match state (tiles s tile) with
          | LOADED | EMPTY => true
          | ERROR => negb (getUseInterimTilesOnError (layer (this s)))
          | LOADING | IDLE => false
          end, s).
Proof.
  unfold isDrawableTile, isDrawable. run.
  destruct (state (tiles s tile)); reflexivity.
Qed.

(** C9: [prepareFrame] returns true whatever the frame state and the
    layer state are, of whatever type. *)
Theorem prepareFrame_true (F L : Type) (frameState : F) (layerState : L) :
  prepareFrame frameState layerState = true.
Proof. reflexivity. Qed.

(** C10: when the tile has no image, [drawTileImage] returns at once:
    the world (drawing context, trace of drawing operations, frame state
    and tiles) is the one it was called in. *)
Theorem drawTileImage_no_image (tile : TileRef) (x y w h gutter : number)
  (transition : bool) (s : World) :
  image (tiles s tile) = None ->
  drawTileImage tm tile x y w h gutter transition s = Some (tt, s).
Proof.
  intros Himg. unfold drawTileImage. run. now rewrite Himg.
Qed.

(** C7: what [drawTileImage] does with a tile that has an image.  With
    [alpha] the alpha of the tile when a transition is asked for and 1
    otherwise: the rectangle is cleared, before the image is drawn,
    exactly when [alpha] is 1 and the source is not opaque; the image is
    drawn between [save] and [restore] with [alpha] when [alpha] differs
    from the current [globalAlpha]; when [alpha] is not 1 the frame's
    [animate] flag is set and nothing is cleared; when [alpha] is 1 and a
    transition was asked for, the transition of the tile is ended. *)
Theorem drawTileImage_blend (tile : TileRef) (x y w h gutter : number)
  (transition : bool) (img : Image) (s : World) :
  image (tiles s tile) = Some img ->
  let uid := ol_uid (this s) in
  let started :=
    if transition
    then getAlpha tm (tile_transition (tiles s tile)) uid (time (frameState s))
    else (1%float, tile_transition (tiles s tile)) in
  let alpha := fst started in
  let opaque :=
    getOpaque (getSource (layer (this s))) (projection (viewState (frameState s))) in
  let alphaChanged := strictNe alpha (globalAlpha (context (this s))) in
  let drawn :=
    if alphaChanged && (PrimFloat.leb 0 alpha && PrimFloat.leb alpha 1)
    then alpha else globalAlpha (context (this s)) in
  exists s',
    drawTileImage tm tile x y w h gutter transition s = Some (tt, s')
    /\ trace s' =
         trace s
         ++ (if strictEq alpha 1%float && negb opaque then [ClearRect x y w h] else [])
         ++ (if alphaChanged then [Save] else [])
         ++ [DrawImage img gutter gutter
               (img_width img - 2 * gutter)%float (img_height img - 2 * gutter)%float
               x y w h drawn]
         ++ (if alphaChanged then [Restore] else [])
    /\ animate (frameState s') =
         (if strictNe alpha 1%float then true else animate (frameState s))
    /\ tile_transition (tiles s' tile) =
         (if strictNe alpha 1%float then snd started
          else if transition then endTransition tm (snd started) uid
          else snd started)
    /\ globalAlpha (context (this s')) = globalAlpha (context (this s)).
Proof.
  intros Himg. cbv zeta. unfold drawTileImage. run. rewrite Himg.
  unfold strictNe, strictEq, ctx_clearRect, ctx_save, ctx_restore,
    ctx_set_globalAlpha.
  destruct transition; simpl.
  - destruct (getAlpha tm (tile_transition (tiles s tile)) (ol_uid (this s))
                (time (frameState s))) as [a tr]; simpl.
    destruct (PrimFloat.eqb a 1) eqn:E1;
      destruct (getOpaque (getSource (layer (this s)))
                  (projection (viewState (frameState s))));
      run;
      destruct (PrimFloat.eqb a (globalAlpha (context (this s)))) eqn:E2;
      run;
      try (destruct (PrimFloat.leb 0 a && PrimFloat.leb a 1); run);
      (eexists; split; [reflexivity|]; simpl;
       unfold update; rewrite ?Nat.eqb_refl; simpl;
       rewrite <- ?app_assoc; simpl; repeat split; reflexivity).
  - destruct (getOpaque (getSource (layer (this s)))
                (projection (viewState (frameState s))));
      run;
      destruct (PrimFloat.eqb 1 (globalAlpha (context (this s)))) eqn:E2;
      run;
      (eexists; split; [reflexivity|]; simpl;
       rewrite <- ?app_assoc; simpl; repeat split; reflexivity).
Qed.


(** *** What [getTile] does *)

(** [getTile] always returns; the tile it returns and the world it
    leaves are these. *)
Lemma getTile_run (z x y : Z) (pixelRatio : number) (proj : Projection) (s : World) :
  let tileLayer := layer (this s) in
  let tile := source_getTile (getSource tileLayer) z x y pixelRatio proj in
  getTile tm z x y pixelRatio proj s =
    match state (tiles s tile) with
    | ERROR =>
        if getUseInterimTilesOnError tileLayer then
          let s' := if getPreload tileLayer >? 0
                    then with_this (set_newTiles_ true) s else s in
          Some (getInterimTile tm (tiles s) tile, s')
        else Some (tile, with_tiles (update tile (set_state LOADED)) s)
    | LOADED | EMPTY => Some (tile, s)
    | LOADING | IDLE => Some (getInterimTile tm (tiles s) tile, s)
    end.
Proof.
  cbv zeta. unfold getTile, isDrawableTile, isDrawable. run.
  destruct (state (tiles s _)) eqn:Hst; simpl; try (rewrite Hst; reflexivity).
  destruct (getUseInterimTilesOnError (layer (this s))) eqn:Hu; simpl.
  - destruct (getPreload (layer (this s)) >? 0); run;
      rewrite ?Hst, ?Hu; reflexivity.
  - unfold update. rewrite Nat.eqb_refl. simpl. rewrite ?Hu. reflexivity.
Qed.

(** *** Tile states over a frame *)

Lemma states_same_refl (s : World) : states_same s s.
Proof. split; reflexivity. Qed.

Lemma states_same_trans (s1 s2 s3 : World) :
  states_same s1 s2 -> states_same s2 s3 -> states_same s1 s3.
Proof.
  intros [L1 H1] [L2 H2]. split; [congruence|].
  intros r. now rewrite H2, H1.
Qed.

Lemma states_kept_refl (s : World) : states_kept s s.
Proof. split; [reflexivity|]. intros r. now left. Qed.

Lemma states_kept_trans (s1 s2 s3 : World) :
  states_kept s1 s2 -> states_kept s2 s3 -> states_kept s1 s3.
Proof.
  intros [L1 H1] [L2 H2]. split; [congruence|].
  intros r. specialize (H1 r). specialize (H2 r). rewrite L1 in H2.
  unfold state_kept in *.
  destruct H1 as [H1 | (Hb & Hu & Ha)], H2 as [H2 | (Hb' & Hu' & Ha')].
  - left. congruence.
  - right. repeat split; congruence.
  - right. repeat split; congruence.
  - rewrite Ha in Hb'. discriminate.
Qed.

Lemma states_same_kept (s s' : World) : states_same s s' -> states_kept s s'.
Proof. intros [L H]. split; [exact L|]. intros r. left. apply H. Qed.

Section Keeps.

Variable R : World -> World -> Prop.
Hypothesis R_refl : forall s, R s s.
Hypothesis R_trans : forall s1 s2 s3, R s1 s2 -> R s2 s3 -> R s1 s3.

Lemma keeps_ret {A : Type} (a : A) : keeps R (ret a).
Proof. intros s a' s' H. injection H as _ <-. apply R_refl. Qed.

Lemma keeps_throw {A : Type} : keeps R (@throw _ _ _ A).
Proof. intros s a s' H. discriminate. Qed.

Lemma keeps_gets {A : Type} (f : World -> A) : keeps R (gets f).
Proof. intros s a' s' H. injection H as _ <-. apply R_refl. Qed.

Lemma keeps_bind {A B : Type} (c : M A) (k : A -> M B) :
  keeps R c -> (forall a, keeps R (k a)) -> keeps R (bind c k).
Proof.
  intros Hc Hk s b s' H. unfold bind in H.
  destruct (c s) as [[a s1]|] eqn:Hcs; [|discriminate].
  eapply R_trans; [eapply Hc; exact Hcs | eapply Hk; exact H].
Qed.

Lemma keeps_when (b : bool) (c : M unit) : keeps R c -> keeps R (when b c).
Proof. intros Hc. destruct b; [exact Hc | apply keeps_ret]. Qed.

Lemma keeps_forFrom {S : Type} (body : Z -> S -> M S) :
  (forall i s, keeps R (body i s)) ->
  forall n i s, keeps R (forFrom n i body s).
Proof.
  intros Hb. induction n as [|n IH]; intros i s; simpl.
  - apply keeps_ret.
  - apply keeps_bind; [apply Hb | intros; apply IH].
Qed.

Lemma keeps_forRange {S : Type} (lo hi : Z) (body : Z -> S -> M S) (s : S) :
  (forall i s, keeps R (body i s)) -> keeps R (forRange lo hi body s).
Proof. intros Hb. apply keeps_forFrom, Hb. Qed.

Lemma keeps_forEach {A : Type} (l : list A) (body : A -> M unit) :
  (forall a, keeps R (body a)) -> keeps R (forEach l body).
Proof.
  intros Hb. induction l as [|a l IH]; simpl.
  - apply keeps_ret.
  - apply keeps_bind; [apply Hb | intros; apply IH].
Qed.

End Keeps.

Lemma keeps_weaken {A : Type} (c : Run A) :
  keeps states_same c -> keeps states_kept c.
Proof. intros H s a s' Hc. apply states_same_kept. eapply H, Hc. Qed.

Lemma keeps_modify_this (f : Renderer -> Renderer) :
  (forall r, layer (f r) = layer r) -> keeps states_same (modify (with_this f)).
Proof.
  intros Hf s a s' H. injection H as _ <-. split; [apply Hf | reflexivity].
Qed.

Lemma keeps_modify_frameState (f : FrameState -> FrameState) :
  keeps states_same (modify (with_frameState f)).
Proof. intros s a s' H. injection H as _ <-. split; reflexivity. Qed.

Lemma keeps_emit (e : Event) : keeps states_same (emit e).
Proof. intros s a s' H. injection H as _ <-. split; reflexivity. Qed.

Lemma keeps_set_transition (t : TileRef) (f : Tile -> Transition) :
  keeps states_same (modify (with_tiles (update t (fun o => set_transition (f o) o)))).
Proof.
  intros s a s' H. injection H as _ <-. split; [reflexivity|].
  intros r. simpl. unfold update. now destruct (Nat.eqb r t).
Qed.

Lemma keeps_Tile_getAlpha (t : TileRef) (id : Uid) (now : number) :
  keeps states_same (Tile_getAlpha tm t id now).
Proof.
  intros s a s' H. injection H as _ <-. split; [reflexivity|].
  intros r. simpl. unfold update. now destruct (Nat.eqb r t).
Qed.

Lemma keeps_Tile_endTransition (t : TileRef) (id : Uid) :
  keeps states_same (Tile_endTransition tm t id).
Proof. apply keeps_set_transition. Qed.

Lemma keeps_putContext (c : Context2D) : keeps states_same (putContext c).
Proof. now apply keeps_modify_this. Qed.

Ltac keeps_step refl trans :=
  first
    [ apply keeps_ret; apply refl
    | apply keeps_gets; apply refl
    | apply keeps_throw
    | apply keeps_when; [apply refl|]
    | apply keeps_bind; [apply trans | | intro]
    | apply keeps_forEach; [apply refl | apply trans | intro]
    | apply keeps_forRange; [apply refl | apply trans | intros ? ?]
    | match goal with
      | |- keeps _ (if ?b then _ else _) => destruct b
      | |- keeps _ (match ?o with _ => _ end) => destruct o
      end ].

Ltac keeps_same :=
  repeat first
    [ apply keeps_emit
    | apply keeps_putContext
    | apply keeps_modify_frameState
    | apply keeps_Tile_getAlpha
    | apply keeps_Tile_endTransition
    | apply keeps_modify_this; reflexivity
    | keeps_step states_same_refl states_same_trans ].

Lemma keeps_ctx_save : keeps states_same ctx_save.
Proof. unfold ctx_save, getContext. keeps_same. Qed.

Lemma keeps_ctx_restore : keeps states_same ctx_restore.
Proof. unfold ctx_restore, getContext. keeps_same. Qed.

Lemma keeps_ctx_set_globalAlpha (a : number) : keeps states_same (ctx_set_globalAlpha a).
Proof. unfold ctx_set_globalAlpha, getContext. keeps_same. Qed.

Lemma keeps_drawTileImage tile x y w h gutter transition :
  keeps states_same (drawTileImage tm tile x y w h gutter transition).
Proof.
  unfold drawTileImage, getTileImage, getUid, getLayer, getContext,
    ctx_clearRect, ctx_drawImage, getContext.
  keeps_same; first [apply keeps_ctx_save | apply keeps_ctx_restore
                    | apply keeps_ctx_set_globalAlpha].
Qed.

Lemma keeps_isDrawableTile (t : TileRef) : keeps states_same (isDrawableTile t).
Proof. unfold isDrawableTile, getLayer, Tile_getState. keeps_same. Qed.

Lemma keeps_clipUnrotated (e : Extent) : keeps states_same (clipUnrotated e).
Proof. unfold clipUnrotated. keeps_same. Qed.

Lemma keeps_setCanvasWidth (w : number) : keeps states_same (setCanvasWidth w).
Proof. unfold setCanvasWidth, getContext. keeps_same. Qed.

Lemma keeps_setCanvasHeight (h : number) : keeps states_same (setCanvasHeight h).
Proof. unfold setCanvasHeight, getContext. keeps_same. Qed.

Lemma keeps_setStyleOpacity (o : number) : keeps states_same (setStyleOpacity o).
Proof. unfold setStyleOpacity, getContext. keeps_same. Qed.

Lemma keeps_setStyleTransform (t : string) : keeps states_same (setStyleTransform t).
Proof. unfold setStyleTransform, getContext. keeps_same. Qed.

Lemma keeps_getTile (z x y : Z) (pixelRatio : number) (proj : Projection) :
  keeps states_kept (getTile tm z x y pixelRatio proj).
Proof.
  intros s t s' H. rewrite getTile_run in H. cbv zeta in H.
  destruct (state (tiles s _)) eqn:Hst;
    try (injection H as _ <-; apply states_kept_refl).
  destruct (getUseInterimTilesOnError (layer (this s))) eqn:Hu.
  - destruct (getPreload (layer (this s)) >? 0); injection H as _ <-;
      [|apply states_kept_refl].
    split; [reflexivity|]. intros r. now left.
  - injection H as _ <-. split; [reflexivity|].
    intros r. simpl. unfold update.
    destruct (Nat.eqb_spec r (source_getTile (getSource (layer (this s))) z x y
                                pixelRatio proj)) as [->|Hne].
    + right. simpl. auto.
    + now left.
Qed.

Ltac keeps_atom :=
  first
    [ apply keeps_emit
    | apply keeps_putContext
    | apply keeps_modify_frameState
    | apply keeps_Tile_getAlpha
    | apply keeps_Tile_endTransition
    | apply keeps_modify_this; reflexivity
    | apply keeps_drawTileImage
    | apply keeps_isDrawableTile
    | apply keeps_clipUnrotated
    | apply keeps_ctx_restore
    | apply keeps_setCanvasWidth
    | apply keeps_setCanvasHeight
    | apply keeps_setStyleOpacity
    | apply keeps_setStyleTransform ].

Ltac keeps_kept :=
  repeat first
    [ apply keeps_getTile
    | apply keeps_weaken; solve [keeps_atom]
    | keeps_step states_kept_refl states_kept_trans
    | progress cbv zeta
    | match goal with
      | |- keeps _ (let '(_, _) := ?p in _) => destruct p
      end ].

Lemma keeps_selectTile (z : Z) (tileGrid : TileGrid)
  (findLoadedTiles : TileStore -> LoadedTileFinder) (x y : Z) (m : TilesByZ) :
  keeps states_kept (selectTile tm z tileGrid findLoadedTiles x y m).
Proof.
  unfold selectTile, getUid, Tile_getState, Tile_tileCoord, Tile_inTransition.
  keeps_kept.
Qed.

Lemma keeps_drawZoom (z : Z) (tileSource : TileSource) (tileGrid : TileGrid)
  (tileResolution canvasScale tilePixelRatio : number) (canvasExtent : Extent)
  (m : TilesByZ) (currentZ : Z) :
  keeps states_kept
    (drawZoom tm lib z tileSource tileGrid tileResolution canvasScale tilePixelRatio
       canvasExtent m currentZ).
Proof.
  unfold drawZoom, Tile_tileCoord.
  keeps_kept.
Qed.

Lemma keeps_renderFrame (layerState : LayerState) :
  keeps states_kept (renderFrame tm lib layerState).
Proof.
  unfold renderFrame, getLayer, getContext, ctx_clearRect.
  keeps_kept; first [apply keeps_selectTile | apply keeps_drawZoom].
Qed.

(** [drawTileImage] always returns. *)
Lemma drawTileImage_total (tile : TileRef) (x y w h gutter : number)
  (transition : bool) (s : World) :
  exists s', drawTileImage tm tile x y w h gutter transition s = Some (tt, s').
Proof.
  unfold drawTileImage. run.
  destruct (image (tiles s tile)) as [img|]; [|eexists; reflexivity].
  unfold strictNe, strictEq, ctx_clearRect, ctx_save, ctx_restore,
    ctx_set_globalAlpha.
  destruct transition; simpl.
  - destruct (getAlpha tm (tile_transition (tiles s tile)) (ol_uid (this s))
                (time (frameState s))) as [a tr]; simpl.
    destruct (PrimFloat.eqb a 1);
      destruct (getOpaque (getSource (layer (this s)))
                  (projection (viewState (frameState s))));
      run;
      destruct (PrimFloat.eqb a (globalAlpha (context (this s))));
      run;
      try (destruct (PrimFloat.leb 0 a && PrimFloat.leb a 1); run);
      eexists; reflexivity.
  - destruct (getOpaque (getSource (layer (this s)))
                (projection (viewState (frameState s))));
      run;
      destruct (PrimFloat.eqb 1 (globalAlpha (context (this s))));
      run; eexists; reflexivity.
Qed.

(** C5: the renderer changes the state of a tile in one place only.
    [getTile] leaves every state as it was, except that of the tile it
    fetched when that tile is in state ERROR and the layer does not use
    interim tiles on error: this one becomes LOADED; when the layer uses
    interim tiles on error no state changes.  [drawTileImage], which
    does the transition bookkeeping, changes no state.  Over a whole
    frame the state of every tile is kept, or has gone from ERROR to
    LOADED under a layer that does not use interim tiles on error. *)
Theorem tile_states_over_frame :
  (forall z x y pixelRatio proj (s : World),
     exists t s',
       getTile tm z x y pixelRatio proj s = Some (t, s')
       /\ forall r,
            state (tiles s' r) =
              if Nat.eqb r (source_getTile (getSource (layer (this s))) z x y
                              pixelRatio proj)
                 && TileState_eqb (state (tiles s r)) ERROR
                 && negb (getUseInterimTilesOnError (layer (this s)))
              then LOADED else state (tiles s r))
  /\ (forall tile x y w h gutter transition (s : World),
        exists s',
          drawTileImage tm tile x y w h gutter transition s = Some (tt, s')
          /\ forall r, state (tiles s' r) = state (tiles s r))
  /\ (forall layerState (s : World) c s',
        renderFrame tm lib layerState s = Some (c, s') ->
        forall r,
          state (tiles s' r) = state (tiles s r)
          \/ (state (tiles s r) = ERROR
              /\ getUseInterimTilesOnError (layer (this s)) = false
              /\ state (tiles s' r) = LOADED)).
Proof.
  split; [|split].
  - intros z x y pixelRatio proj s. rewrite getTile_run. cbv zeta.
    destruct (state (tiles s _)) eqn:Hst;
      try (eexists; eexists; split; [reflexivity|]; intros r;
           destruct (Nat.eqb_spec r (source_getTile (getSource (layer (this s)))
                                       z x y pixelRatio proj)) as [->|Hne];
           simpl; rewrite ?Hst; reflexivity).
    destruct (getUseInterimTilesOnError (layer (this s))) eqn:Hu.
    + eexists; eexists; split; [reflexivity|]. intros r.
      rewrite andb_false_r.
      now destruct (getPreload (layer (this s)) >? 0).
    + eexists; eexists; split; [reflexivity|]. intros r. simpl. unfold update.
      destruct (Nat.eqb_spec r (source_getTile (getSource (layer (this s)))
                                  z x y pixelRatio proj)) as [->|Hne]; simpl.
      * now rewrite Hst.
      * reflexivity.
  - intros tile x y w h gutter transition s.
    destruct (drawTileImage_total tile x y w h gutter transition s) as [s' Hrun].
    exists s'. split; [exact Hrun|].
    apply (keeps_drawTileImage _ _ _ _ _ _ _ _ _ _ Hrun).
  - intros layerState s c s' Hrun r.
    apply (keeps_renderFrame layerState s c s' Hrun).
Qed.

(** *** The selection loop *)

Lemma setTileToDraw_defined (z : Z) (c : TileCoord) (t : TileRef) (m : TilesByZ) :
  tilesAtZ z m <> None -> exists m1, setTileToDraw z c t m = Some m1.
Proof.
  induction m as [|[z' l] m IH]; simpl; intros H; [congruence|].
  destruct (z' =? z); [eexists; reflexivity|].
  destruct (IH H) as [m1 ->]. eexists; reflexivity.
Qed.

(** [getTile] draws nothing and touches neither the frame state nor the
    identity of the renderer. *)
Lemma getTile_frame (z x y : Z) (pixelRatio : number) (proj : Projection)
  (s : World) :
  exists t s1,
    getTile tm z x y pixelRatio proj s = Some (t, s1)
    /\ trace s1 = trace s
    /\ frameState s1 = frameState s
    /\ ol_uid (this s1) = ol_uid (this s)
    /\ layer (this s1) = layer (this s).
Proof.
  rewrite getTile_run. cbv zeta.
  destruct (state (tiles s _));
    try (eexists; eexists; split; [reflexivity|]; repeat split).
  destruct (getUseInterimTilesOnError (layer (this s)));
    [destruct (getPreload (layer (this s)) >? 0)|];
    (eexists; eexists; split; [reflexivity|]; repeat split).
Qed.

(** C2: the selection of one coordinate, started with a
    [tilesToDrawByZ] that has an entry for [z].  With [tile] the tile
    [getTile] returns: when it is drawable and its alpha at the frame
    time is 1, neither the finder nor the ancestor walk is called.
    Otherwise the finder is called on the child tile range at [z + 1]
    when the grid has one for the tile, and it is not called when the
    grid has none; the ancestor walk is then called exactly when there
    is no child range or the finder reports the range as not covered. *)
Theorem selectTile_gating (z : Z) (tileGrid : TileGrid)
  (findLoadedTiles : TileStore -> LoadedTileFinder) (x y : Z) (m : TilesByZ)
  (s : World) :
  tilesAtZ z m <> None ->
  exists tile s1,
    getTile tm z x y (pixelRatio (frameState s)) (projection (viewState (frameState s))) s
      = Some (tile, s1)
    /\ let drawable := isDrawable (layer (this s1)) (state (tiles s1 tile)) in
       let alpha :=
         fst (getAlpha tm (tile_transition (tiles s1 tile)) (ol_uid (this s1))
                (time (frameState s1))) in
       let coord := tileCoord (tiles s1 tile) in
       let children := getTileCoordChildTileRange tileGrid coord in
       exists m1 m' s',
         selectTile tm z tileGrid findLoadedTiles x y m s = Some (m', s')
         /\ (if drawable && TileState_eqb (state (tiles s1 tile)) LOADED
             then setTileToDraw z coord tile m = Some m1 else m1 = m)
         /\ if drawable && strictEq alpha 1%float then
              trace s' = trace s
            else
              let covered :=
                match children with
                | Some range => fst (findLoadedTiles (tiles s') (z + 1) range m1)
                | None => false
                end in
              trace s' =
                trace s
                ++ match children with
                   | Some range => [FindLoadedTiles (z + 1) range]
                   | None => []
                   end
                ++ (if covered then [] else [ForEachTileCoordParentTileRange coord]).
Proof.
  intros Hz.
  destruct (getTile_frame z x y (pixelRatio (frameState s))
              (projection (viewState (frameState s))) s)
    as (tile & s1 & Hget & Htr & Hfs & Huid & Hl).
  exists tile, s1. split; [exact Hget|]. cbv zeta.
  unfold selectTile. unfold bind at 1. unfold gets at 1.
  unfold bind at 1. rewrite Hget.
  unfold bind at 1. rewrite isDrawableTile_run.
  rewrite <- Hfs, <- Htr.
  destruct (isDrawable (layer (this s1)) (state (tiles s1 tile))) eqn:Hd; simpl.
  - assert (Hreg : exists m1,
               (if TileState_eqb (state (tiles s1 tile)) LOADED
                then setTileToDraw z (tileCoord (tiles s1 tile)) tile m
                else Some m) = Some m1).
    { destruct (TileState_eqb (state (tiles s1 tile)) LOADED);
        [now apply setTileToDraw_defined | now exists m]. }
    destruct Hreg as [m1 Hreg]. exists m1.
    run.
    destruct (TileState_eqb (state (tiles s1 tile)) LOADED); run;
      [rewrite Hreg; run;
       destruct (negb (newTiles_ (this s1))
                 && (inTransition tm (tile_transition (tiles s1 tile)) (ol_uid (this s1))
                     || negb (existsb (Nat.eqb tile) (renderedTiles (this s1)))));
       run
      | injection Hreg as <-];
      (destruct (getAlpha tm (tile_transition (tiles s1 tile)) (ol_uid (this s1))
                   (time (frameState s1))) as [a tr]; simpl;
       destruct (strictEq a 1%float); run;
       unfold with_tiles, update; simpl; rewrite ?Nat.eqb_refl; simpl;
       [ eexists; eexists; split; [reflexivity|]; split; reflexivity
       | destruct (getTileCoordChildTileRange tileGrid (tileCoord (tiles s1 tile)))
           as [range|]; run;
         [ match goal with
           | |- context [findLoadedTiles ?st ?zz ?rr ?mm] =>
               destruct (findLoadedTiles st zz rr mm) as [cov m2] eqn:Hf
           end; simpl; destruct cov; simpl
         | ];
         (eexists; eexists; split; [reflexivity|]; split; [reflexivity|]; simpl;
          rewrite ?Hf; simpl; rewrite <- ?app_assoc; reflexivity) ]).
  - exists m. run.
    destruct (getTileCoordChildTileRange tileGrid (tileCoord (tiles s1 tile)))
      as [range|]; run;
      [ destruct (findLoadedTiles (tiles s1) (z + 1) range m) as [cov m2] eqn:Hf;
        simpl; destruct cov; simpl
      | ];
      (eexists; eexists; split; [reflexivity|]; split; [reflexivity|]; simpl;
       rewrite ?Hf; simpl; rewrite <- ?app_assoc; reflexivity).
Qed.


(** *** A frame without tiles *)

Lemma forFrom_skip {S : Type} (body : Z -> S -> Run S) :
  (forall i s w, body i s w = Some (s, w)) ->
  forall n i s w, forFrom n i body s w = Some (s, w).
Proof.
  intros Hb. induction n as [|n IH]; intros i s w; simpl; [reflexivity|].
  unfold bind. rewrite Hb. apply IH.
Qed.

(** Over an empty tile range the selection loops select nothing. *)
Lemma selection_empty {S : Type} (range : TileRange) (body : Z -> Z -> S -> Run S)
  (s : S) (w : World) :
  TileRange_isEmpty range = true ->
  forRange (minX range) (maxX range)
    (fun x => forRange (minY range) (maxY range) (body x)) s w = Some (s, w).
Proof.
  unfold TileRange_isEmpty. rewrite orb_true_iff, !Z.ltb_lt.
  intros [Hx | Hy]; unfold forRange.
  - replace (Z.to_nat (maxX range - minX range + 1)) with 0%nat by lia.
    reflexivity.
  - apply forFrom_skip. intros i s0 w0.
    replace (Z.to_nat (maxY range - minY range + 1)) with 0%nat by lia.
    reflexivity.
Qed.

(** ** More on [getTile] *)

Notation "x <- c ;; k" := (bind c (fun x => k))
  (at level 61, c at next level, right associativity).
Notation "c ;;; k" := (bind c (fun _ => k))
  (at level 61, right associativity).

Lemma set_newTiles_same (r : @Renderer Projection Transform) : set_newTiles_ (newTiles_ r) r = r.
Proof. now destruct r. Qed.

Lemma set_renderedTiles_same (r : @Renderer Projection Transform) :
  set_renderedTiles (renderedTiles r) r = r.
Proof. now destruct r. Qed.

(** X1: a second [getTile] for the same coordinate returns the tile the
    first one returned and changes nothing any more. *)
Theorem getTile_idempotent (z x y : Z) (pixelRatio : number) (proj : Projection)
  (s s1 : World) (t : TileRef) :
  getTile tm z x y pixelRatio proj s = Some (t, s1) ->
  getTile tm z x y pixelRatio proj s1 = Some (t, s1).
Proof.
  rewrite (getTile_run z x y pixelRatio proj s). cbv zeta.
  destruct (state (tiles s _)) eqn:Hst;
    try (intros H; injection H as <- <-; rewrite getTile_run; cbv zeta;
         rewrite Hst; reflexivity).
  destruct (getUseInterimTilesOnError (layer (this s))) eqn:Hu.
  - destruct (getPreload (layer (this s)) >? 0) eqn:Hp;
      intros H; injection H as <- <-; rewrite getTile_run; cbv zeta; simpl;
      rewrite Hst, Hu, ?Hp; reflexivity.
  - intros H; injection H as <- <-. rewrite getTile_run. cbv zeta. simpl.
    unfold update. rewrite Nat.eqb_refl. reflexivity.
Qed.

(** X2: [getTile] touches nothing but the lifecycle state of the tile it
    fetched and the flag [newTiles_], which it may set and never clears:
    the trace, the frame state, the other fields of the renderer, the
    other tiles, and the coordinate, transition and image of the fetched
    tile are as before. *)
Theorem getTile_touches_only (z x y : Z) (pixelRatio : number) (proj : Projection)
  (s : World) :
  let fetched := source_getTile (getSource (layer (this s))) z x y pixelRatio proj in
  exists t s',
    getTile tm z x y pixelRatio proj s = Some (t, s')
    /\ trace s' = trace s
    /\ frameState s' = frameState s
    /\ this s' = set_newTiles_ (newTiles_ (this s')) (this s)
    /\ (newTiles_ (this s) = true -> newTiles_ (this s') = true)
    /\ (forall r, r <> fetched -> tiles s' r = tiles s r)
    /\ tiles s' fetched = set_state (state (tiles s' fetched)) (tiles s fetched).
Proof.
  cbv zeta. rewrite getTile_run. cbv zeta.
  assert (Hsame : forall o : @Tile Transition, o = set_state (state o) o)
    by (now intros []).
  destruct (state (tiles s _)) eqn:Hst;
    try (eexists; eexists; split; [reflexivity|];
         rewrite set_newTiles_same; repeat split; auto).
  destruct (getUseInterimTilesOnError (layer (this s)));
    [destruct (getPreload (layer (this s)) >? 0)|];
    (eexists; eexists; split; [reflexivity|]); simpl;
    rewrite ?set_newTiles_same; repeat split; auto.
  - intros r Hr. unfold update. apply Nat.eqb_neq in Hr. now rewrite Hr.
  - unfold update. rewrite Nat.eqb_refl. reflexivity.
Qed.

(** X3: [getTile] returns the tile it fetched exactly when that tile is
    drawable once errors have been dealt with, and the interim tile of
    the fetched tile otherwise; under a layer that does not use interim
    tiles on error the fetched tile is never left in state ERROR. *)
Theorem getTile_result (z x y : Z) (pixelRatio : number) (proj : Projection)
  (s : World) :
  let fetched := source_getTile (getSource (layer (this s))) z x y pixelRatio proj in
  exists t s',
    getTile tm z x y pixelRatio proj s = Some (t, s')
    /\ t = (if isDrawable (layer (this s')) (state (tiles s' fetched))
            then fetched else getInterimTile tm (tiles s') fetched)
    /\ (getUseInterimTilesOnError (layer (this s)) = false ->
        state (tiles s' fetched) <> ERROR).
Proof.
  cbv zeta. rewrite getTile_run. cbv zeta. unfold isDrawable.
  destruct (state (tiles s _)) eqn:Hst;
    try (eexists; eexists; split; [reflexivity|]; rewrite Hst; simpl;
         split; [reflexivity | intros _; discriminate]).
  destruct (getUseInterimTilesOnError (layer (this s))) eqn:Hu;
    [destruct (getPreload (layer (this s)) >? 0)|];
    (eexists; eexists; split; [reflexivity|]); simpl; rewrite ?Hst, ?Hu; simpl.
  - split; [reflexivity | discriminate].
  - split; [reflexivity | discriminate].
  - unfold update. rewrite Nat.eqb_refl. simpl.
    split; [reflexivity | intros _; discriminate].
Qed.

(** ** More on [drawTileImage] *)

Lemma usedTiles_app (a b : list Event) : usedTiles (a ++ b) = usedTiles a ++ usedTiles b.
Proof. apply flat_map_app. Qed.

Lemma saveDepth_app (a b : list Event) : saveDepth (a ++ b) = saveDepth a + saveDepth b.
Proof.
  induction a as [|e a IH]; simpl; [reflexivity|].
  rewrite IH. destruct e; lia.
Qed.

(** The run of [drawTileImage], seen from the renderer and the frame. *)
Lemma drawTileImage_effects (tile : TileRef) (x y w h gutter : number)
  (transition : bool) (s : World) :
  exists s',
    drawTileImage tm tile x y w h gutter transition s = Some (tt, s')
    /\ this s' = this s
    /\ usedTiles (trace s') = usedTiles (trace s)
    /\ saveDepth (trace s') = saveDepth (trace s)
    /\ frameState s' = set_animate (animate (frameState s')) (frameState s)
    /\ (animate (frameState s) = true -> animate (frameState s') = true).
Proof.
  destruct s as [ts [l u [cv ga sv] pt ipt tt' rr re rv rt nt zd] fs tr].
  destruct fs as [vs pr ex sz tm' an].
  unfold drawTileImage. run.
  destruct (image (ts tile)) as [img|];
    [|eexists; split; [reflexivity|]; repeat split; auto].
  unfold strictNe, strictEq, ctx_clearRect, ctx_save, ctx_restore,
    ctx_set_globalAlpha, ctx_drawImage.
  destruct transition; simpl.
  - destruct (getAlpha tm (tile_transition (ts tile)) u tm') as [al tr']; simpl.
    destruct (PrimFloat.eqb al 1); destruct (getOpaque (getSource l) (projection vs));
      run; destruct (PrimFloat.eqb al ga); run;
      try (destruct (PrimFloat.leb 0 al && PrimFloat.leb al 1); run);
      (eexists; split; [reflexivity|]; simpl;
       rewrite ?usedTiles_app, ?saveDepth_app; simpl; rewrite ?app_nil_r;
       repeat split; auto; lia).
  - destruct (getOpaque (getSource l) (projection vs));
      run; destruct (PrimFloat.eqb 1 ga); run;
      (eexists; split; [reflexivity|]; simpl;
       rewrite ?usedTiles_app, ?saveDepth_app; simpl; rewrite ?app_nil_r;
       repeat split; auto; lia).
Qed.

(** X4: [drawTileImage] leaves the renderer as it found it: every field
    of the renderer, and with them the canvas, [globalAlpha] and the
    stack of saved states of the context, is the same after the call (a
    [save] it makes is undone by its [restore]); of the frame state it
    changes the [animate] flag only, which it may set and never clears. *)
Theorem drawTileImage_leaves_renderer (tile : TileRef) (x y w h gutter : number)
  (transition : bool) (s : World) :
  exists s',
    drawTileImage tm tile x y w h gutter transition s = Some (tt, s')
    /\ this s' = this s
    /\ saveDepth (trace s') = saveDepth (trace s)
    /\ frameState s' = set_animate (animate (frameState s')) (frameState s)
    /\ (animate (frameState s) = true -> animate (frameState s') = true).
Proof.
  destruct (drawTileImage_effects tile x y w h gutter transition s)
    as (s' & Hrun & Hthis & _ & Hdepth & Hfs & Han).
  exists s'. repeat split; assumption.
Qed.

(** ** The drawing loop *)

Lemma set_animate_same (f : @FrameState Projection) : set_animate (animate f) f = f.
Proof. now destruct f. Qed.

Lemma drawn_nil (s : World) : drawn [] s s.
Proof.
  unfold drawn. rewrite !app_nil_r, set_renderedTiles_same, set_animate_same.
  repeat split; auto.
Qed.

Lemma drawn_app (l1 l2 : list TileRef) (s s1 s2 : World) :
  drawn l1 s s1 -> drawn l2 s1 s2 -> drawn (l1 ++ l2) s s2.
Proof.
  intros (Ht1 & Hu1 & Hd1 & Hf1 & Ha1) (Ht2 & Hu2 & Hd2 & Hf2 & Ha2).
  unfold drawn. rewrite Ht2, Ht1, Hu2, Hu1, Hd2, Hd1. simpl.
  rewrite !app_assoc. repeat split.
  - rewrite Hf2, Hf1. reflexivity.
  - auto.
Qed.

(** The body of the loop over the tiles of one zoom level. *)
Lemma drawTile_drawn (origin : Coordinate) (originTileCoord : TileCoord)
  (dx dy tileGutter : number) (transition : bool) (tile : TileRef) (s : World) :
  exists s',
    (tileCoord <- Tile_tileCoord tile ;;
     let '(x, y, w, h) := destinationRect origin originTileCoord tileCoord dx dy in
     drawTileImage tm tile x y w h tileGutter transition ;;;
     modify (with_this (fun r => set_renderedTiles (renderedTiles r ++ [tile]) r)) ;;;
     emit (UpdateUsedTiles tile)) s = Some (tt, s')
    /\ drawn [tile] s s'.
Proof.
  unfold bind at 1. unfold Tile_tileCoord, gets at 1.
  destruct (destinationRect origin originTileCoord (tileCoord (tiles s tile)) dx dy)
    as [[[x y] w] h].
  destruct (drawTileImage_effects tile x y w h tileGutter transition s)
    as (s1 & Hrun & Hthis & Hused & Hdepth & Hfs & Han).
  unfold bind at 1. rewrite Hrun. run.
  eexists. split; [reflexivity|]. unfold drawn. simpl.
  rewrite Hthis, usedTiles_app, saveDepth_app, Hused, Hdepth. simpl.
  repeat split; auto. lia.
Qed.

Lemma drawTilesAtZ_drawn (origin : Coordinate) (originTileCoord : TileCoord)
  (dx dy tileGutter : number) (transition : bool) (l : TilesAtZ) (s : World) :
  exists s',
    forEach l (fun kv =>
      let tile := snd kv in
      tileCoord <- Tile_tileCoord tile ;;
      let '(x, y, w, h) := destinationRect origin originTileCoord tileCoord dx dy in
      drawTileImage tm tile x y w h tileGutter transition ;;;
      modify (with_this (fun r => set_renderedTiles (renderedTiles r ++ [tile]) r)) ;;;
      emit (UpdateUsedTiles tile)) s = Some (tt, s')
    /\ drawn (map snd l) s s'.
Proof.
  revert s. induction l as [|kv l IH]; intros s; cbn [forEach map].
  - exists s. split; [reflexivity | apply drawn_nil].
  - destruct (drawTile_drawn origin originTileCoord dx dy tileGutter transition
                (snd kv) s) as (s1 & Hrun & Hd1).
    destruct (IH s1) as (s2 & Hrest & Hd2).
    exists s2. split.
    + unfold bind at 1. cbv beta zeta. rewrite Hrun. exact Hrest.
    + exact (drawn_app [snd kv] (map snd l) s s1 s2 Hd1 Hd2).
Qed.

Lemma drawZoom_drawn (z : Z) (tileSource : TileSource) (tileGrid : TileGrid)
  (tileResolution canvasScale tilePixelRatio : number) (canvasExtent : Extent)
  (m : TilesByZ) (currentZ : Z) (s : World) :
  exists s',
    drawZoom tm lib z tileSource tileGrid tileResolution canvasScale tilePixelRatio
      canvasExtent m currentZ s = Some (tt, s')
    /\ drawn (tilesToDrawAt currentZ m) s s'.
Proof.
  unfold drawZoom, tilesToDrawAt.
  unfold bind at 1, gets at 1. cbv zeta. unfold bind at 1, gets at 1.
  destruct (tilesAtZ currentZ m) as [l|].
  - apply drawTilesAtZ_drawn.
  - exists s. split; [reflexivity | apply drawn_nil].
Qed.

(** X7: drawing one zoom level always returns, and it appends to
    [renderedTiles] exactly the tiles registered at that level, in the
    order they were registered in, whether they have an image or not, and
    hands the same tiles in the same order to [updateUsedTiles]; a zoom
    level without entry adds nothing. *)
Theorem drawZoom_records_tiles (z : Z) (tileSource : TileSource) (tileGrid : TileGrid)
  (tileResolution canvasScale tilePixelRatio : number) (canvasExtent : Extent)
  (m : TilesByZ) (currentZ : Z) (s : World) :
  exists s',
    drawZoom tm lib z tileSource tileGrid tileResolution canvasScale tilePixelRatio
      canvasExtent m currentZ s = Some (tt, s')
    /\ renderedTiles (this s') = renderedTiles (this s) ++ tilesToDrawAt currentZ m
    /\ usedTiles (trace s') = usedTiles (trace s) ++ tilesToDrawAt currentZ m.
Proof.
  destruct (drawZoom_drawn z tileSource tileGrid tileResolution canvasScale
              tilePixelRatio canvasExtent m currentZ s)
    as (s' & Hrun & Hthis & Hused & _).
  exists s'. split; [exact Hrun|]. split; [|exact Hused].
  rewrite Hthis. reflexivity.
Qed.

(** ** The frame pass by phases *)

Lemma drawTiles_drawn (fs : FrameState) (tileLayer : TileLayer) (g : FrameGeometry)
  (m : TilesByZ) (s : World) :
  exists s',
    drawTiles tm lib fs tileLayer g m s = Some (tt, s')
    /\ drawn (flat_map (fun currentZ => tilesToDrawAt currentZ m)
                (drawOrder (g_z g) m)) s s'.
Proof.
  unfold drawTiles. cbv zeta.
  generalize (drawOrder (g_z g) m) as zs. intros zs. revert s.
  induction zs as [|currentZ zs IH]; intros s; cbn [forEach flat_map].
  - exists s. split; [reflexivity | apply drawn_nil].
  - destruct (drawZoom_drawn (g_z g) (getSource tileLayer)
                (getTileGridForProjection (getSource tileLayer)
                   (projection (viewState fs)))
                (g_tileResolution g)
                (g_tileResolution g / resolution (viewState fs))%float
                (g_tilePixelRatio g) (g_canvasExtent g) m currentZ s)
      as (s1 & Hrun & Hd1).
    destruct (IH s1) as (s2 & Hrest & Hd2).
    exists s2. split.
    + unfold bind at 1. rewrite Hrun. exact Hrest.
    + exact (drawn_app _ _ s s1 s2 Hd1 Hd2).
Qed.

(** [renderFrame] is its four phases in sequence. *)
Lemma renderFrame_by_phases (layerState : LayerState) (s : World) :
  renderFrame tm lib layerState s = renderFrame_phases tm lib layerState s.
Proof.
  unfold renderFrame, renderFrame_phases, selectTiles, prepareCanvas, drawTiles,
    finishFrame, drawOrder.
  cbv zeta.
  remember (frameGeometry lib (this s) (frameState s) layerState) as g eqn:Hg.
  unfold bind at 1, gets at 1. unfold bind at 1, getLayer at 1, gets at 1.
  unfold bind at 1, gets at 1. cbv zeta. rewrite <- Hg.
  unfold setCanvasWidth, setCanvasHeight, ctx_clearRect, clipUnrotated, ctx_save,
    ctx_restore, setStyleOpacity, setStyleTransform.
  run.
  match goal with
  | |- context [forRange ?a ?b ?c ?d ?e] =>
      destruct (forRange a b c d e) as [[m s2]|]; [|reflexivity]
  end.
  run.
  destruct (strictNe (canvas_width (canvas (context (this s2)))) (g_width g)
            || strictNe (canvas_height (canvas (context (this s2)))) (g_height g));
    destruct (ls_extent layerState) as [e|]; run;
    match goal with
    | |- context [forEach ?a ?b ?c] =>
        destruct (forEach a b c) as [[[] s8]|]; [|reflexivity]
    end; reflexivity.
Qed.


(** *** Selecting *)

Lemma selected_refl (s : World) : selected s s.
Proof. unfold selected. rewrite set_newTiles_same. repeat split. Qed.

Lemma selected_trans (s1 s2 s3 : World) :
  selected s1 s2 -> selected s2 s3 -> selected s1 s3.
Proof.
  intros (Ht1 & Hf1 & Hu1 & Hd1) (Ht2 & Hf2 & Hu2 & Hd2).
  unfold selected. rewrite Ht2, Ht1, Hf2, Hf1, Hu2, Hu1, Hd2, Hd1.
  repeat split.
Qed.

Lemma selected_getTile (z x y : Z) (pixelRatio : number) (proj : Projection) :
  keeps selected (getTile tm z x y pixelRatio proj).
Proof.
  intros s t s' H. rewrite getTile_run in H. cbv zeta in H.
  destruct (state (tiles s _));
    try (injection H as _ <-; apply selected_refl).
  destruct (getUseInterimTilesOnError (layer (this s)));
    [destruct (getPreload (layer (this s)) >? 0)|];
    injection H as _ <-; try apply selected_refl;
    unfold selected; simpl; rewrite ?set_newTiles_same; repeat split.
Qed.

Lemma selected_tiles (f : TileStore -> TileStore) :
  keeps selected (modify (with_tiles f)).
Proof.
  intros s a s' H. injection H as _ <-.
  unfold selected. simpl. rewrite set_newTiles_same. repeat split.
Qed.

Lemma selected_Tile_getAlpha (t : TileRef) (id : Uid) (now : number) :
  keeps selected (Tile_getAlpha tm t id now).
Proof.
  intros s a s' H. injection H as _ <-.
  unfold selected. simpl. rewrite set_newTiles_same. repeat split.
Qed.

Lemma selected_newTiles (b : bool) :
  keeps selected (modify (with_this (set_newTiles_ b))).
Proof. intros s a s' H. injection H as _ <-. unfold selected. repeat split. Qed.

Lemma selected_emit_finder (z : Z) (r : TileRange) :
  keeps selected (emit (FindLoadedTiles z r)).
Proof.
  intros s a s' H. injection H as _ <-.
  unfold selected. simpl.
  rewrite set_newTiles_same, usedTiles_app, saveDepth_app. simpl.
  rewrite app_nil_r. repeat split. lia.
Qed.

Lemma selected_emit_walk (c : TileCoord) :
  keeps selected (emit (ForEachTileCoordParentTileRange c)).
Proof.
  intros s a s' H. injection H as _ <-.
  unfold selected. simpl.
  rewrite set_newTiles_same, usedTiles_app, saveDepth_app. simpl.
  rewrite app_nil_r. repeat split. lia.
Qed.

Ltac keeps_selected :=
  repeat first
    [ apply selected_getTile
    | apply selected_Tile_getAlpha
    | apply selected_newTiles
    | apply selected_emit_finder
    | apply selected_emit_walk
    | keeps_step selected_refl selected_trans
    | progress cbv zeta ].

Lemma selected_selectTile (z : Z) (tileGrid : TileGrid)
  (findLoadedTiles : TileStore -> LoadedTileFinder) (x y : Z) (m : TilesByZ) :
  keeps selected (selectTile tm z tileGrid findLoadedTiles x y m).
Proof.
  unfold selectTile, isDrawableTile, getLayer, getUid, Tile_getState, Tile_tileCoord,
    Tile_inTransition.
  keeps_selected.
Qed.

Lemma selected_selectTiles (fs : FrameState) (tileLayer : TileLayer) (g : FrameGeometry) :
  keeps selected (selectTiles tm lib fs tileLayer g).
Proof.
  unfold selectTiles.
  repeat first [apply selected_selectTile | keeps_selected].
Qed.

(** The run of [selectTile] in full: the tile [getTile] returns, the
    map after the registration, the map and the world after the search,
    and the flag [newTiles_]. *)
Lemma selectTile_run (z : Z) (tileGrid : TileGrid)
  (findLoadedTiles : TileStore -> LoadedTileFinder) (x y : Z) (m : TilesByZ)
  (s : World) :
  tilesAtZ z m <> None ->
  exists tile s1 m1 m' s',
    getTile tm z x y (pixelRatio (frameState s)) (projection (viewState (frameState s))) s
      = Some (tile, s1)
    /\ selectTile tm z tileGrid findLoadedTiles x y m s = Some (m', s')
    /\ let drawable := isDrawable (layer (this s1)) (state (tiles s1 tile)) in
       let loaded := drawable && TileState_eqb (state (tiles s1 tile)) LOADED in
       let alpha :=
         fst (getAlpha tm (tile_transition (tiles s1 tile)) (ol_uid (this s1))
                (time (frameState s1))) in
       let coord := tileCoord (tiles s1 tile) in
       (if loaded then setTileToDraw z coord tile m = Some m1 else m1 = m)
       /\ m' =
            (if drawable && strictEq alpha 1%float then m1
             else
               let c :=
                 match getTileCoordChildTileRange tileGrid coord with
                 | Some range => findLoadedTiles (tiles s') (z + 1) range m1
                 | None => (false, m1)
                 end in
               if fst c then snd c
               else snd (forEachTileCoordParentTileRange tileGrid coord
                           (findLoadedTiles (tiles s')) (snd c)))
       /\ newTiles_ (this s') =
            (if loaded
                && (inTransition tm (tile_transition (tiles s1 tile)) (ol_uid (this s1))
                    || negb (existsb (Nat.eqb tile) (renderedTiles (this s1))))
             then true else newTiles_ (this s1)).
Proof.
  intros Hz.
  destruct (getTile_frame z x y (pixelRatio (frameState s))
              (projection (viewState (frameState s))) s)
    as (tile & s1 & Hget & Htr & Hfs & Huid & Hl).
  exists tile, s1. cbv zeta.
  unfold selectTile. unfold bind at 1. unfold gets at 1.
  unfold bind at 1. rewrite Hget.
  unfold bind at 1. rewrite isDrawableTile_run.
  rewrite <- Hfs.
  destruct (isDrawable (layer (this s1)) (state (tiles s1 tile))) eqn:Hd; simpl.
  - assert (Hreg : exists m1,
               (if TileState_eqb (state (tiles s1 tile)) LOADED
                then setTileToDraw z (tileCoord (tiles s1 tile)) tile m
                else Some m) = Some m1).
    { destruct (TileState_eqb (state (tiles s1 tile)) LOADED);
        [now apply setTileToDraw_defined | now exists m]. }
    destruct Hreg as [m1 Hreg]. exists m1.
    run.
    destruct (TileState_eqb (state (tiles s1 tile)) LOADED); run;
      [rewrite Hreg; run;
       destruct (newTiles_ (this s1)) eqn:Hnt;
       destruct (inTransition tm (tile_transition (tiles s1 tile)) (ol_uid (this s1))
                 || negb (existsb (Nat.eqb tile) (renderedTiles (this s1))));
       run
      | injection Hreg as <-];
      (destruct (getAlpha tm (tile_transition (tiles s1 tile)) (ol_uid (this s1))
                   (time (frameState s1))) as [a tr]; simpl;
       destruct (strictEq a 1%float); run;
       unfold with_tiles, update; simpl; rewrite ?Nat.eqb_refl; simpl;
       [ eexists; eexists; split; [reflexivity|]; split; [reflexivity|];
         repeat split; auto
       | destruct (getTileCoordChildTileRange tileGrid (tileCoord (tiles s1 tile)))
           as [range|]; run;
         [ match goal with
           | |- context [findLoadedTiles ?st ?zz ?rr ?mm] =>
               destruct (findLoadedTiles st zz rr mm) as [cov m2] eqn:Hf
           end; simpl; destruct cov; simpl
         | ];
         (eexists; eexists; split; [reflexivity|]; split; [reflexivity|]; simpl;
          rewrite ?Hf; simpl; repeat split; auto) ]).
  - exists m. run.
    destruct (getTileCoordChildTileRange tileGrid (tileCoord (tiles s1 tile)))
      as [range|]; run;
      [ destruct (findLoadedTiles (tiles s1) (z + 1) range m) as [cov m2] eqn:Hf;
        simpl; destruct cov; simpl
      | ];
      (eexists; eexists; split; [reflexivity|]; split; [reflexivity|]; simpl;
       rewrite ?Hf; simpl; repeat split; auto).
Qed.

Lemma TileCoord_eqb_refl (c : TileCoord) : TileCoord_eqb c c = true.
Proof. unfold TileCoord_eqb. now rewrite !Z.eqb_refl. Qed.

Lemma TileCoord_eqb_eq (c c' : TileCoord) : TileCoord_eqb c c' = true -> c = c'.
Proof.
  destruct c as [[cz cx] cy], c' as [[cz' cx'] cy'].
  unfold TileCoord_eqb, coordZ, coordX, coordY. simpl.
  rewrite !andb_true_iff, !Z.eqb_eq. intros [[-> ->] ->]. reflexivity.
Qed.

Lemma setTileAtZ_lookup (c : TileCoord) (t : TileRef) (l : TilesAtZ) :
  tileAt c (setTileAtZ c t l) = Some t.
Proof.
  induction l as [|[c' t'] l IH]; simpl.
  - now rewrite TileCoord_eqb_refl.
  - destruct (TileCoord_eqb c' c) eqn:Hc; simpl; rewrite Hc; [reflexivity | exact IH].
Qed.

Lemma setTileAtZ_other (c c' : TileCoord) (t : TileRef) (l : TilesAtZ) :
  c' <> c -> tileAt c' (setTileAtZ c t l) = tileAt c' l.
Proof.
  intros Hne. induction l as [|[c0 t0] l IH]; simpl.
  - destruct (TileCoord_eqb c c') eqn:Hc; [|reflexivity].
    apply TileCoord_eqb_eq in Hc. congruence.
  - destruct (TileCoord_eqb c0 c) eqn:Hc; simpl.
    + destruct (TileCoord_eqb c0 c') eqn:Hc'; [|reflexivity].
      apply TileCoord_eqb_eq in Hc, Hc'. congruence.
    + now rewrite IH.
Qed.

(** Registering a tile: the entry of its zoom level holds it at its
    coordinate and is otherwise as before; the other levels are as
    before. *)
Lemma setTileToDraw_lookup (z : Z) (c : TileCoord) (t : TileRef) (m m1 : TilesByZ) :
  setTileToDraw z c t m = Some m1 ->
  exists l l1,
    tilesAtZ z m = Some l
    /\ tilesAtZ z m1 = Some l1
    /\ tileAt c l1 = Some t
    /\ (forall c', c' <> c -> tileAt c' l1 = tileAt c' l)
    /\ (forall z', z' <> z -> tilesAtZ z' m1 = tilesAtZ z' m).
Proof.
  revert m1. induction m as [|[z0 l0] m IH]; simpl; intros m1 H; [discriminate|].
  destruct (Z.eqb_spec z0 z) as [->|Hne].
  - injection H as <-. exists l0, (setTileAtZ c t l0). simpl.
    rewrite Z.eqb_refl. repeat split.
    + apply setTileAtZ_lookup.
    + intros c' Hc. now apply setTileAtZ_other.
    + intros z' Hz. apply Z.eqb_neq in Hz. rewrite Z.eqb_sym in Hz. now rewrite Hz.
  - destruct (setTileToDraw z c t m) as [m2|]; [|discriminate].
    injection H as <-.
    destruct (IH m2 eq_refl) as (l & l1 & Hl & Hl1 & Ht & Hc & Hz).
    exists l, l1. simpl. apply Z.eqb_neq in Hne. rewrite Hne.
    repeat split; try assumption.
    intros z' Hz'. destruct (z0 =? z'); [reflexivity | now apply Hz].
Qed.

Lemma getTile_keeps_rendered (z x y : Z) (pixelRatio : number) (proj : Projection)
  (s s1 : World) (t : TileRef) :
  getTile tm z x y pixelRatio proj s = Some (t, s1) ->
  renderedTiles (this s1) = renderedTiles (this s)
  /\ (newTiles_ (this s) = true -> newTiles_ (this s1) = true).
Proof.
  rewrite getTile_run. cbv zeta.
  destruct (state (tiles s _));
    try (intros H; injection H as _ <-; split; auto).
  destruct (getUseInterimTilesOnError (layer (this s)));
    [destruct (getPreload (layer (this s)) >? 0)|];
    intros H; injection H as _ <-; split; auto.
Qed.

(** X5: selecting a coordinate whose tile is LOADED sets [newTiles_]
    when the tile is in transition or was not among the tiles drawn by
    the last frame; selecting never clears the flag, and a tile in
    another state leaves it as [getTile] left it. *)
Theorem selectTile_newTiles (z : Z) (tileGrid : TileGrid)
  (findLoadedTiles : TileStore -> LoadedTileFinder) (x y : Z) (m : TilesByZ)
  (s : World) :
  tilesAtZ z m <> None ->
  exists tile s1 m' s',
    getTile tm z x y (pixelRatio (frameState s)) (projection (viewState (frameState s))) s
      = Some (tile, s1)
    /\ selectTile tm z tileGrid findLoadedTiles x y m s = Some (m', s')
    /\ (state (tiles s1 tile) = LOADED ->
        inTransition tm (tile_transition (tiles s1 tile)) (ol_uid (this s1)) = true
        \/ ~ In tile (renderedTiles (this s)) ->
        newTiles_ (this s') = true)
    /\ (newTiles_ (this s) = true -> newTiles_ (this s') = true)
    /\ (state (tiles s1 tile) <> LOADED -> newTiles_ (this s') = newTiles_ (this s1)).
Proof.
  intros Hz.
  destruct (selectTile_run z tileGrid findLoadedTiles x y m s Hz)
    as (tile & s1 & m1 & m' & s' & Hget & Hrun & _ & _ & Hnew).
  destruct (getTile_keeps_rendered _ _ _ _ _ _ _ _ Hget) as [Hrt Hmono].
  exists tile, s1, m', s'. split; [exact Hget|]. split; [exact Hrun|].
  unfold isDrawable in Hnew. repeat split.
  - intros Hst Hcond. rewrite Hnew, Hst. simpl.
    destruct Hcond as [-> | Hnot]; [reflexivity|].
    assert (Hex : existsb (Nat.eqb tile) (renderedTiles (this s1)) = false).
    { apply not_true_is_false. intros Hex. apply existsb_exists in Hex.
      destruct Hex as (t' & Hin & Heq). apply Nat.eqb_eq in Heq. subst t'.
      apply Hnot. now rewrite <- Hrt. }
    rewrite Hex. now rewrite orb_true_r.
  - intros Hs. rewrite Hnew.
    destruct (_ && _); [reflexivity | now apply Hmono].
  - intros Hst. rewrite Hnew.
    destruct (state (tiles s1 tile)); try reflexivity; try contradiction.
    + now rewrite andb_false_r.
Qed.

(** X6: a LOADED tile whose alpha is 1 is registered and nothing else
    happens to [tilesToDrawByZ]: afterwards the entry of zoom [z] holds
    the tile at its coordinate, the other coordinates of that entry and
    the other zoom levels are as before. *)
Theorem selectTile_registers (z : Z) (tileGrid : TileGrid)
  (findLoadedTiles : TileStore -> LoadedTileFinder) (x y : Z) (m : TilesByZ)
  (s : World) :
  tilesAtZ z m <> None ->
  exists tile s1 m' s',
    getTile tm z x y (pixelRatio (frameState s)) (projection (viewState (frameState s))) s
      = Some (tile, s1)
    /\ selectTile tm z tileGrid findLoadedTiles x y m s = Some (m', s')
    /\ (state (tiles s1 tile) = LOADED ->
        strictEq (fst (getAlpha tm (tile_transition (tiles s1 tile)) (ol_uid (this s1))
                         (time (frameState s1)))) 1%float = true ->
        exists l l',
          tilesAtZ z m = Some l
          /\ tilesAtZ z m' = Some l'
          /\ tileAt (tileCoord (tiles s1 tile)) l' = Some tile
          /\ (forall c, c <> tileCoord (tiles s1 tile) -> tileAt c l' = tileAt c l)
          /\ (forall z', z' <> z -> tilesAtZ z' m' = tilesAtZ z' m)).
Proof.
  intros Hz.
  destruct (selectTile_run z tileGrid findLoadedTiles x y m s Hz)
    as (tile & s1 & m1 & m' & s' & Hget & Hrun & Hreg & Hm' & _).
  exists tile, s1, m', s'. split; [exact Hget|]. split; [exact Hrun|].
  intros Hst Halpha. unfold isDrawable in Hreg, Hm'.
  rewrite Hst in Hreg, Hm'. simpl in Hreg, Hm'. rewrite Halpha in Hm'. subst m'.
  exact (setTileToDraw_lookup _ _ _ _ _ Hreg).
Qed.

(** X17: on a renderer fresh from its constructor every tile counts as
    new: selecting a coordinate whose tile is LOADED sets [newTiles_],
    whether the tile is in transition or not, since no tile has been
    rendered yet. *)
Theorem constructor_first_selection (base : @Renderer Projection Transform) (z : Z)
  (tileGrid : TileGrid) (findLoadedTiles : TileStore -> LoadedTileFinder) (x y : Z)
  (m : TilesByZ) (s : World) :
  this s = constructor base ->
  tilesAtZ z m <> None ->
  exists tile s1 m' s',
    getTile tm z x y (pixelRatio (frameState s)) (projection (viewState (frameState s))) s
      = Some (tile, s1)
    /\ selectTile tm z tileGrid findLoadedTiles x y m s = Some (m', s')
    /\ (state (tiles s1 tile) = LOADED -> newTiles_ (this s') = true).
Proof.
  intros Hnew Hz.
  destruct (selectTile_run z tileGrid findLoadedTiles x y m s Hz)
    as (tile & s1 & m1 & m' & s' & Hget & Hrun & _ & _ & Hflag).
  destruct (getTile_keeps_rendered _ _ _ _ _ _ _ _ Hget) as [Hrt _].
  exists tile, s1, m', s'. split; [exact Hget|]. split; [exact Hrun|].
  intros Hst. rewrite Hflag, Hrt, Hnew. unfold isDrawable. rewrite Hst. simpl.
  now rewrite orb_true_r.
Qed.

(** *** Preparing the canvas and finishing the frame *)

Lemma bind_inv {A B : Type} (c : Run A) (k : A -> Run B) (s : World) (r : B * World) :
  bind c k s = Some r -> exists a s1, c s = Some (a, s1) /\ k a s1 = Some r.
Proof.
  unfold bind. destruct (c s) as [[a s1]|]; [|discriminate].
  intros H. exists a, s1. split; [reflexivity | exact H].
Qed.

(** The world [prepareCanvas] leaves. *)
Lemma prepareCanvas_run (fs : FrameState) (g : FrameGeometry) (layerState : LayerState)
  (s : World) :
  exists s',
    prepareCanvas lib fs g layerState s = Some (tt, s')
    /\ tiles s' = tiles s
    /\ frameState s' = frameState s
    /\ layer (this s') = layer (this s)
    /\ renderedTiles (this s') = []
    /\ usedTiles (trace s') = usedTiles (trace s)
    /\ saveDepth (trace s') =
         saveDepth (trace s) + match ls_extent layerState with Some _ => 1 | None => 0 end
    /\ pixelTransform_ (this s') =
         composeTransform lib
           (fst (size fs) / 2)%float (snd (size fs) / 2)%float
           (1 / g_tilePixelRatio g)%float (1 / g_tilePixelRatio g)%float
           (rotation (viewState fs))
           (- g_width g / 2)%float (- g_height g / 2)%float
    /\ inversePixelTransform_ (this s') = makeInverse lib (pixelTransform_ (this s'))
    /\ (canvas_width (canvas (context (this s'))) = g_width g
        \/ strictNe (canvas_width (canvas (context (this s')))) (g_width g) = false)
    /\ (canvas_height (canvas (context (this s'))) = g_height g
        \/ strictNe (canvas_height (canvas (context (this s')))) (g_height g) = false).
Proof.
  unfold prepareCanvas, setCanvasWidth, setCanvasHeight, ctx_clearRect, clipUnrotated,
    ctx_save.
  run.
  destruct (strictNe (canvas_width (canvas (context (this s)))) (g_width g)) eqn:Hw;
    destruct (strictNe (canvas_height (canvas (context (this s)))) (g_height g)) eqn:Hh;
    destruct (ls_extent layerState) as [e|]; run;
    (eexists; split; [reflexivity|]; simpl;
     rewrite ?usedTiles_app, ?saveDepth_app; simpl; rewrite ?app_nil_r;
     repeat split; auto; lia).
Qed.

(** The canvas [finishFrame] returns and the world it leaves. *)
Lemma finishFrame_run (tileLayer : TileLayer) (g : FrameGeometry)
  (layerState : LayerState) (s : World) :
  exists c s',
    finishFrame lib tileLayer g layerState s = Some (c, s')
    /\ c = canvas (context (this s'))
    /\ tiles s' = tiles s
    /\ frameState s' = frameState s
    /\ renderedTiles (this s') = renderedTiles (this s)
    /\ usedTiles (trace s') = usedTiles (trace s)
    /\ saveDepth (trace s') =
         saveDepth (trace s) - match ls_extent layerState with Some _ => 1 | None => 0 end
    /\ renderedRevision (this s') = Some (getRevision (getSource tileLayer))
    /\ renderedResolution (this s') = Some (g_tileResolution g)
    /\ renderedExtent_ (this s') = Some (g_canvasExtent g)
    /\ pixelTransform_ (this s') = pixelTransform_ (this s)
    /\ inversePixelTransform_ (this s') = inversePixelTransform_ (this s)
    /\ canvas_width c = canvas_width (canvas (context (this s)))
    /\ canvas_height c = canvas_height (canvas (context (this s)))
    /\ style_transform c = transformToString lib (pixelTransform_ (this s))
    /\ (style_opacity c = opacity layerState
        \/ strictNe (opacity layerState) (style_opacity c) = false).
Proof.
  unfold finishFrame, ctx_restore, setStyleOpacity, setStyleTransform.
  destruct s as [ts [l u [[cw ch so st] ga sv] pt ipt tt' rr re rv rt nt zd] fs tr].
  run.
  destruct (ls_extent layerState) as [e|]; [destruct sv as [|a0 sv]|]; run;
    destruct (strictNe (opacity layerState) so) eqn:Ho; run;
    destruct (String.eqb (transformToString lib pt) st) eqn:Hs; run;
    try (apply String.eqb_eq in Hs);
    (eexists; eexists; split; [reflexivity|]; simpl;
     rewrite ?usedTiles_app, ?saveDepth_app; simpl; rewrite ?app_nil_r;
     repeat split; auto; lia).
Qed.

(** *** The events of a frame *)

Lemma saveFree_app (a b : list Event) : saveFree (a ++ b) = saveFree a && saveFree b.
Proof. apply forallb_app. Qed.

Lemma paired_app (a b : list Event) (waiting : bool) :
  paired waiting a = true -> paired waiting (a ++ b) = paired false b.
Proof.
  revert waiting. induction a as [|e a IH]; intros waiting; simpl.
  - destruct waiting; [discriminate | reflexivity].
  - destruct e; try (destruct waiting; simpl; try discriminate; apply IH); apply IH.
Qed.

Lemma appended_refl (P : list Event -> bool) (s : World) :
  P [] = true -> appended P s s.
Proof. intros HP. exists []. now rewrite app_nil_r. Qed.

Lemma appended_trans (P : list Event -> bool) (s1 s2 s3 : World) :
  (forall a b, P a = true -> P b = true -> P (a ++ b) = true) ->
  appended P s1 s2 -> appended P s2 s3 -> appended P s1 s3.
Proof.
  intros HP (a & Ha & Pa) (b & Hb & Pb). exists (a ++ b).
  rewrite Hb, Ha, app_assoc. split; [reflexivity | now apply HP].
Qed.

Lemma saveFree_refl (s : World) : appended saveFree s s.
Proof. now apply appended_refl. Qed.

Lemma saveFree_trans (s1 s2 s3 : World) :
  appended saveFree s1 s2 -> appended saveFree s2 s3 -> appended saveFree s1 s3.
Proof.
  apply appended_trans. intros a b Ha Hb. now rewrite saveFree_app, Ha, Hb.
Qed.

Lemma paired_refl (s : World) : appended (paired false) s s.
Proof. now apply appended_refl. Qed.

Lemma paired_trans (s1 s2 s3 : World) :
  appended (paired false) s1 s2 -> appended (paired false) s2 s3 ->
  appended (paired false) s1 s3.
Proof.
  apply appended_trans. intros a b Ha Hb. now rewrite (paired_app a b false Ha).
Qed.

(** A computation that adds no event. *)
Lemma appended_silent {A : Type} (P : list Event -> bool) (c : Run A) :
  P [] = true ->
  (forall s a s', c s = Some (a, s') -> trace s' = trace s) ->
  keeps (appended P) c.
Proof.
  intros HP Hc s a s' H. exists []. rewrite app_nil_r. split; [|exact HP].
  eapply Hc, H.
Qed.

Lemma appended_emit (P : list Event -> bool) (e : Event) :
  P [e] = true -> keeps (appended P) (emit e).
Proof. intros HP s a s' H. injection H as _ <-. now exists [e]. Qed.

Lemma appended_tiles (P : list Event -> bool) (f : TileStore -> TileStore) :
  P [] = true -> keeps (appended P) (modify (with_tiles f)).
Proof.
  intros HP. apply appended_silent; [exact HP|].
  intros s a s' H. now injection H as _ <-.
Qed.

Lemma appended_this (P : list Event -> bool)
  (f : @Renderer Projection Transform -> @Renderer Projection Transform) :
  P [] = true -> keeps (appended P) (modify (with_this f)).
Proof.
  intros HP. apply appended_silent; [exact HP|].
  intros s a s' H. now injection H as _ <-.
Qed.

Lemma appended_Tile_getAlpha (P : list Event -> bool) (t : TileRef) (id : Uid)
  (now : number) :
  P [] = true -> keeps (appended P) (Tile_getAlpha tm t id now).
Proof.
  intros HP. apply appended_silent; [exact HP|].
  intros s a s' H. now injection H as _ <-.
Qed.

Lemma appended_getTile (P : list Event -> bool) (z x y : Z) (pixelRatio : number)
  (proj : Projection) :
  P [] = true -> keeps (appended P) (getTile tm z x y pixelRatio proj).
Proof.
  intros HP. apply appended_silent; [exact HP|].
  intros s t s' H.
  destruct (getTile_frame z x y pixelRatio proj s) as (t0 & s0 & Hget & Htr & _).
  rewrite Hget in H. now injection H as _ <-.
Qed.

Ltac keeps_saveFree :=
  repeat first
    [ apply appended_getTile; reflexivity
    | apply appended_Tile_getAlpha; reflexivity
    | apply appended_this; reflexivity
    | apply appended_tiles; reflexivity
    | apply appended_emit; reflexivity
    | keeps_step saveFree_refl saveFree_trans
    | progress cbv zeta ].

(** Selecting tiles neither saves nor restores the drawing state. *)
Lemma saveFree_selectTiles (fs : FrameState) (tileLayer : TileLayer) (g : FrameGeometry) :
  keeps (appended saveFree) (selectTiles tm lib fs tileLayer g).
Proof.
  unfold selectTiles, selectTile, isDrawableTile, getLayer, getUid, Tile_getState,
    Tile_tileCoord, Tile_inTransition.
  keeps_saveFree.
Qed.

(** The events of [drawTileImage]: none for a tile without image; for a
    tile with an image, the clearing, and the drawing of the image
    between a [save] and a [restore] when the alpha has to change. *)
Lemma drawTileImage_trace (tile : TileRef) (x y w h gutter : number)
  (transition : bool) (s : World) :
  let alpha :=
    if transition
    then fst (getAlpha tm (tile_transition (tiles s tile)) (ol_uid (this s))
                (time (frameState s)))
    else 1%float in
  let opaque :=
    getOpaque (getSource (layer (this s))) (projection (viewState (frameState s))) in
  let alphaChanged := strictNe alpha (globalAlpha (context (this s))) in
  let drawnAlpha :=
    if alphaChanged && (PrimFloat.leb 0 alpha && PrimFloat.leb alpha 1)
    then alpha else globalAlpha (context (this s)) in
  exists s',
    drawTileImage tm tile x y w h gutter transition s = Some (tt, s')
    /\ trace s' =
         trace s
         ++ match image (tiles s tile) with
            | None => []
            | Some img =>
                (if strictEq alpha 1%float && negb opaque then [ClearRect x y w h] else [])
                ++ (if alphaChanged then [Save] else [])
                ++ [DrawImage img gutter gutter
                      (img_width img - 2 * gutter)%float
                      (img_height img - 2 * gutter)%float
                      x y w h drawnAlpha]
                ++ (if alphaChanged then [Restore] else [])
            end.
Proof.
  cbv zeta. unfold drawTileImage. run.
  destruct (image (tiles s tile)) as [img|];
    [|eexists; split; [reflexivity | now rewrite app_nil_r]].
  unfold strictNe, strictEq, ctx_clearRect, ctx_save, ctx_restore,
    ctx_set_globalAlpha.
  destruct transition; simpl.
  - destruct (getAlpha tm (tile_transition (tiles s tile)) (ol_uid (this s))
                (time (frameState s))) as [a tr]; simpl.
    destruct (PrimFloat.eqb a 1) eqn:E1;
      destruct (getOpaque (getSource (layer (this s)))
                  (projection (viewState (frameState s))));
      run;
      destruct (PrimFloat.eqb a (globalAlpha (context (this s)))) eqn:E2;
      run;
      try (destruct (PrimFloat.leb 0 a && PrimFloat.leb a 1); run);
      (eexists; split; [reflexivity|]; simpl;
       rewrite <- ?app_assoc; simpl; reflexivity).
  - destruct (getOpaque (getSource (layer (this s)))
                (projection (viewState (frameState s))));
      run;
      destruct (PrimFloat.eqb 1 (globalAlpha (context (this s)))) eqn:E2;
      run;
      (eexists; split; [reflexivity|]; simpl;
       rewrite <- ?app_assoc; simpl; reflexivity).
Qed.

(** In the events of [drawTileImage] a [save] is undone by the
    [restore] that follows the drawing of the image. *)
Lemma paired_drawTileImage (tile : TileRef) (x y w h gutter : number)
  (transition : bool) :
  keeps (appended (paired false)) (drawTileImage tm tile x y w h gutter transition).
Proof.
  intros s a s' H.
  destruct (drawTileImage_trace tile x y w h gutter transition s) as (s1 & Hrun & Htr).
  rewrite Hrun in H. injection H as _ <-.
  eexists. split; [exact Htr|].
  destruct (image (tiles s tile)) as [img|]; [|reflexivity].
  destruct (strictEq _ 1%float && negb _); destruct (strictNe _ _); reflexivity.
Qed.

Ltac keeps_paired :=
  repeat first
    [ apply paired_drawTileImage
    | apply appended_this; reflexivity
    | apply appended_emit; reflexivity
    | keeps_step paired_refl paired_trans
    | progress cbv zeta
    | match goal with
      | |- keeps _ (let '(_, _) := ?p in _) => destruct p
      end ].

(** Drawing the tiles leaves no [save] without its [restore], and undoes
    no [save] made before. *)
Lemma paired_drawTiles (fs : FrameState) (tileLayer : TileLayer) (g : FrameGeometry)
  (m : TilesByZ) :
  keeps (appended (paired false)) (drawTiles tm lib fs tileLayer g m).
Proof.
  unfold drawTiles, drawZoom, Tile_tileCoord.
  keeps_paired.
Qed.

(** The events of [prepareCanvas]: the canvas is sized or cleared, the
    clip is begun when the layer has an extent, and the pre-render hook
    is called. *)
Lemma prepareCanvas_trace (fs : FrameState) (g : FrameGeometry) (layerState : LayerState)
  (s : World) :
  exists s',
    prepareCanvas lib fs g layerState s = Some (tt, s')
    /\ trace s' =
         trace s
         ++ (if strictNe (canvas_width (canvas (context (this s)))) (g_width g)
                || strictNe (canvas_height (canvas (context (this s)))) (g_height g)
             then [SetCanvasWidth (g_width g); SetCanvasHeight (g_height g)]
             else [ClearRect 0%float 0%float (g_width g) (g_height g)])
         ++ match ls_extent layerState with
            | Some e => [Save; ClipUnrotated e]
            | None => []
            end
         ++ [PreRender].
Proof.
  unfold prepareCanvas, setCanvasWidth, setCanvasHeight, ctx_clearRect, clipUnrotated,
    ctx_save.
  run.
  destruct (strictNe (canvas_width (canvas (context (this s)))) (g_width g)
            || strictNe (canvas_height (canvas (context (this s)))) (g_height g));
    destruct (ls_extent layerState) as [e|]; run;
    (eexists; split; [reflexivity|]; simpl; rewrite <- ?app_assoc; reflexivity).
Qed.

(** The events of [finishFrame]: the tile pyramid, the cache, the
    post-render hook, and the end of the clip when the layer has an
    extent. *)
Lemma finishFrame_trace (tileLayer : TileLayer) (g : FrameGeometry)
  (layerState : LayerState) (s : World) :
  exists c s',
    finishFrame lib tileLayer g layerState s = Some (c, s')
    /\ trace s' =
         trace s
         ++ [ManageTilePyramid (g_extent g) (g_z g) (getPreload tileLayer);
             ScheduleExpireCache; PostRender]
         ++ match ls_extent layerState with
            | Some _ => [Restore]
            | None => []
            end.
Proof.
  unfold finishFrame, ctx_restore, setStyleOpacity, setStyleTransform.
  destruct s as [ts [l u [[cw ch so st] ga sv] pt ipt tt' rr re rv rt nt zd] fs tr].
  run.
  destruct (ls_extent layerState) as [e|]; [destruct sv as [|a0 sv]|]; run;
    destruct (strictNe (opacity layerState) so); run;
    destruct (String.eqb (transformToString lib pt) st); run;
    (eexists; eexists; split; [reflexivity|]; simpl; rewrite <- ?app_assoc;
     reflexivity).
Qed.

(** The finder and walk calls of [selectTile], for use with
    [selectTile_run]. *)
Lemma selectTile_trace (z : Z) (tileGrid : TileGrid)
  (findLoadedTiles : TileStore -> LoadedTileFinder) (x y : Z) (m : TilesByZ)
  (s : World) :
  tilesAtZ z m <> None ->
  exists tile s1,
    getTile tm z x y (pixelRatio (frameState s)) (projection (viewState (frameState s))) s
      = Some (tile, s1)
    /\ let drawable := isDrawable (layer (this s1)) (state (tiles s1 tile)) in
       let alpha :=
         fst (getAlpha tm (tile_transition (tiles s1 tile)) (ol_uid (this s1))
                (time (frameState s1))) in
       let coord := tileCoord (tiles s1 tile) in
       let children := getTileCoordChildTileRange tileGrid coord in
       exists m1 m' s',
         selectTile tm z tileGrid findLoadedTiles x y m s = Some (m', s')
         /\ (if drawable && TileState_eqb (state (tiles s1 tile)) LOADED
             then setTileToDraw z coord tile m = Some m1 else m1 = m)
         /\ if drawable && strictEq alpha 1%float then
              trace s' = trace s
            else
              let covered :=
                match children with
                | Some range => fst (findLoadedTiles (tiles s') (z + 1) range m1)
                | None => false
                end in
              trace s' =
                trace s
                ++ match children with
                   | Some range => [FindLoadedTiles (z + 1) range]
                   | None => []
                   end
                ++ (if covered then [] else [ForEachTileCoordParentTileRange coord]).
Proof.
  intros Hz.
  destruct (getTile_frame z x y (pixelRatio (frameState s))
              (projection (viewState (frameState s))) s)
    as (tile & s1 & Hget & Htr & Hfs & Huid & Hl).
  exists tile, s1. split; [exact Hget|]. cbv zeta.
  unfold selectTile. unfold bind at 1. unfold gets at 1.
  unfold bind at 1. rewrite Hget.
  unfold bind at 1. rewrite isDrawableTile_run.
  rewrite <- Hfs, <- Htr.
  destruct (isDrawable (layer (this s1)) (state (tiles s1 tile))) eqn:Hd; simpl.
  - assert (Hreg : exists m1,
               (if TileState_eqb (state (tiles s1 tile)) LOADED
                then setTileToDraw z (tileCoord (tiles s1 tile)) tile m
                else Some m) = Some m1).
    { destruct (TileState_eqb (state (tiles s1 tile)) LOADED);
        [now apply setTileToDraw_defined | now exists m]. }
    destruct Hreg as [m1 Hreg]. exists m1.
    run.
    destruct (TileState_eqb (state (tiles s1 tile)) LOADED); run;
      [rewrite Hreg; run;
       destruct (negb (newTiles_ (this s1))
                 && (inTransition tm (tile_transition (tiles s1 tile)) (ol_uid (this s1))
                     || negb (existsb (Nat.eqb tile) (renderedTiles (this s1)))));
       run
      | injection Hreg as <-];
      (destruct (getAlpha tm (tile_transition (tiles s1 tile)) (ol_uid (this s1))
                   (time (frameState s1))) as [a tr]; simpl;
       destruct (strictEq a 1%float); run;
       unfold with_tiles, update; simpl; rewrite ?Nat.eqb_refl; simpl;
       [ eexists; eexists; split; [reflexivity|]; split; reflexivity
       | destruct (getTileCoordChildTileRange tileGrid (tileCoord (tiles s1 tile)))
           as [range|]; run;
         [ match goal with
           | |- context [findLoadedTiles ?st ?zz ?rr ?mm] =>
               destruct (findLoadedTiles st zz rr mm) as [cov m2] eqn:Hf
           end; simpl; destruct cov; simpl
         | ];
         (eexists; eexists; split; [reflexivity|]; split; [reflexivity|]; simpl;
          rewrite ?Hf; simpl; rewrite <- ?app_assoc; reflexivity) ]).
  - exists m. run.
    destruct (getTileCoordChildTileRange tileGrid (tileCoord (tiles s1 tile)))
      as [range|]; run;
      [ destruct (findLoadedTiles (tiles s1) (z + 1) range m) as [cov m2] eqn:Hf;
        simpl; destruct cov; simpl
      | ];
      (eexists; eexists; split; [reflexivity|]; split; [reflexivity|]; simpl;
       rewrite ?Hf; simpl; rewrite <- ?app_assoc; reflexivity).
Qed.

(** The image a tile has is drawn; a tile without image leaves the
    world as it is. *)
Lemma drawTileImage_draws (tile : TileRef) (x y w h gutter : number)
  (transition : bool) (s : World) :
  exists s',
    drawTileImage tm tile x y w h gutter transition s = Some (tt, s')
    /\ match image (tiles s tile) with
       | None => s' = s
       | Some img =>
           exists before after alpha,
             trace s' =
               trace s ++ before
               ++ [DrawImage img gutter gutter
                     (img_width img - 2 * gutter)%float
                     (img_height img - 2 * gutter)%float
                     x y w h alpha]
               ++ after
       end.
Proof.
  destruct (image (tiles s tile)) as [img|] eqn:Himg.
  - destruct (drawTileImage_trace tile x y w h gutter transition s)
      as (s' & Hrun & Htr).
    exists s'. split; [exact Hrun|].
    rewrite Himg in Htr. cbv zeta in Htr.
    match type of Htr with
    | _ = _ ++ ?c ++ ?sv ++ [DrawImage _ _ _ _ _ _ _ _ _ ?a] ++ ?r =>
        exists (c ++ sv), r, a
    end.
    rewrite Htr, <- app_assoc. reflexivity.
  - exists s. split; [|reflexivity].
    unfold drawTileImage. run. now rewrite Himg.
Qed.

(** The selection of a coordinate whose tile [getTile] has turned from
    ERROR to LOADED. *)
Lemma error_tile_selected (z x y : Z) (s : World) (tile : TileRef) (s1 : World) :
  getTile tm z x y (pixelRatio (frameState s)) (projection (viewState (frameState s))) s
    = Some (tile, s1) ->
  tiles s1 tile = set_state LOADED (tiles s tile) ->
  this s1 = this s ->
  frameState s1 = frameState s ->
  forall (tileGrid : TileGrid) (findLoadedTiles : TileStore -> LoadedTileFinder)
         (m : TilesByZ),
    tilesAtZ z m <> None ->
    let alpha :=
      fst (getAlpha tm (tile_transition (tiles s tile)) (ol_uid (this s))
             (time (frameState s))) in
    let coord := tileCoord (tiles s tile) in
    let children := getTileCoordChildTileRange tileGrid coord in
    exists m1 m' s',
      selectTile tm z tileGrid findLoadedTiles x y m s = Some (m', s')
      /\ setTileToDraw z coord tile m = Some m1
      /\ if strictEq alpha 1%float then
           m' = m1 /\ trace s' = trace s
         else
           let found :=
             match children with
             | Some range => findLoadedTiles (tiles s') (z + 1) range m1
             | None => (false, m1)
             end in
           let covered :=
             match children with
             | Some range => fst (findLoadedTiles (tiles s') (z + 1) range m1)
             | None => false
             end in
           m' =
             (if fst found then snd found
              else snd (forEachTileCoordParentTileRange tileGrid coord
                          (findLoadedTiles (tiles s')) (snd found)))
           /\ trace s' =
                trace s
                ++ match children with
                   | Some range => [FindLoadedTiles (z + 1) range]
                   | None => []
                   end
                ++ (if covered then [] else [ForEachTileCoordParentTileRange coord]).
Proof.
  intros Hget Ht Hthis Hfs tileGrid findLoadedTiles m Hz.
  destruct (selectTile_run z tileGrid findLoadedTiles x y m s Hz)
    as (tile1 & s11 & m1 & m' & s' & Hget' & Hrun & Hreg & Hm' & _).
  destruct (selectTile_trace z tileGrid findLoadedTiles x y m s Hz)
    as (tile2 & s12 & Hget2 & m12 & m2 & s2 & Hrun2 & Hreg2 & Htr).
  rewrite Hget in Hget', Hget2.
  injection Hget' as <- <-. injection Hget2 as <- <-.
  rewrite Hrun in Hrun2. injection Hrun2 as <- <-.
  cbv zeta in Hreg, Hm', Hreg2, Htr.
  rewrite ?Ht, ?Hthis, ?Hfs in Hreg, Hm', Hreg2, Htr.
  unfold isDrawable in Hreg, Hm', Hreg2, Htr.
  cbn [state tileCoord tile_transition set_state TileState_eqb orb andb]
    in Hreg, Hm', Hreg2, Htr.
  rewrite Hfs in Hm', Htr.
  rewrite Hreg in Hreg2. injection Hreg2 as <-.
  exists m1, m', s'. split; [exact Hrun|]. split; [exact Hreg|].
  cbv zeta.
  destruct (strictEq _ 1%float).
  - split; [exact Hm' | exact Htr].
  - split; [exact Hm' | exact Htr].
Qed.

(** C6: the handling of a tile in state ERROR.  [getTile] treats it as
    loaded when the layer does not use interim tiles on error: it returns
    the tile itself, now in state LOADED and drawable, and leaves
    [newTiles_] alone.  When the layer uses interim tiles on error, the
    tile stays an error tile, its interim tile is returned, and
    [newTiles_] is set to true provided the layer's preload is greater
    than 0; with a preload of 0 the flag is left as it was.  The tile
    treated as loaded is then handled as any loaded tile: the selection
    registers it for drawing, and it stops the fallback search for it
    when, and only when, the alpha of the tile is 1: otherwise the finder
    is called on the child range the grid has for the tile and the
    ancestor walk is called unless the finder reports the range covered,
    and the collection they leave is the result; and [drawTileImage]
    draws the image of the tile when it has one: the tile is drawn as
    nothing only when it has no image. *)
Theorem getTile_error_tile (z x y : Z) (s : World) :
  (forall (pixelRatio : number) (proj : Projection),
     state (tiles s (source_getTile (getSource (layer (this s))) z x y pixelRatio proj))
       = ERROR ->
     let tileLayer := layer (this s) in
     let tile := source_getTile (getSource tileLayer) z x y pixelRatio proj in
     exists t s',
       getTile tm z x y pixelRatio proj s = Some (t, s')
       /\ layer (this s') = tileLayer
       /\ if getUseInterimTilesOnError tileLayer then
            t = getInterimTile tm (tiles s) tile
            /\ tiles s' = tiles s
            /\ newTiles_ (this s') =
                 (if getPreload tileLayer >? 0 then true else newTiles_ (this s))
          else
            t = tile
            /\ state (tiles s' tile) = LOADED
            /\ isDrawable tileLayer (state (tiles s' tile)) = true
            /\ newTiles_ (this s') = newTiles_ (this s))
  /\ (let fs := frameState s in
      let tile :=
        source_getTile (getSource (layer (this s))) z x y (pixelRatio fs)
          (projection (viewState fs)) in
      state (tiles s tile) = ERROR ->
      getUseInterimTilesOnError (layer (this s)) = false ->
      exists s1,
        getTile tm z x y (pixelRatio fs) (projection (viewState fs)) s = Some (tile, s1)
        /\ (forall (tileGrid : TileGrid)
                   (findLoadedTiles : TileStore -> LoadedTileFinder) (m : TilesByZ),
              tilesAtZ z m <> None ->
              let alpha :=
                fst (getAlpha tm (tile_transition (tiles s tile)) (ol_uid (this s))
                       (time fs)) in
              let coord := tileCoord (tiles s tile) in
              let children := getTileCoordChildTileRange tileGrid coord in
              exists m1 m' s',
                selectTile tm z tileGrid findLoadedTiles x y m s = Some (m', s')
                /\ setTileToDraw z coord tile m = Some m1
                /\ if strictEq alpha 1%float then
                     m' = m1 /\ trace s' = trace s
                   else
                     let found :=
                       match children with
                       | Some range => findLoadedTiles (tiles s') (z + 1) range m1
                       | None => (false, m1)
                       end in
                     let covered :=
                       match children with
                       | Some range => fst (findLoadedTiles (tiles s') (z + 1) range m1)
                       | None => false
                       end in
                     m' =
                       (if fst found then snd found
                        else snd (forEachTileCoordParentTileRange tileGrid coord
                                    (findLoadedTiles (tiles s')) (snd found)))
                     /\ trace s' =
                          trace s
                          ++ match children with
                             | Some range => [FindLoadedTiles (z + 1) range]
                             | None => []
                             end
                          ++ (if covered then []
                              else [ForEachTileCoordParentTileRange coord]))
        /\ (forall (dx dy w h gutter : number) (transition : bool),
              exists s2,
                drawTileImage tm tile dx dy w h gutter transition s1 = Some (tt, s2)
                /\ match image (tiles s tile) with
                   | None => s2 = s1
                   | Some img =>
                       exists before after alpha,
                         trace s2 =
                           trace s1 ++ before
                           ++ [DrawImage img gutter gutter
                                 (img_width img - 2 * gutter)%float
                                 (img_height img - 2 * gutter)%float
                                 dx dy w h alpha]
                           ++ after
                   end)).
Proof.
  split.
  - intros pixelRatio proj Hst. cbv zeta.
    rewrite getTile_run, Hst.
    destruct (getUseInterimTilesOnError (layer (this s))) eqn:Hu.
    + destruct (getPreload (layer (this s)) >? 0);
        (eexists; eexists; split; [reflexivity|]; repeat split).
    + eexists; eexists; split; [reflexivity|]. simpl.
      unfold update. rewrite Nat.eqb_refl. repeat split.
  - cbv zeta. intros Hst Hu.
    pose proof (getTile_run z x y (pixelRatio (frameState s))
                  (projection (viewState (frameState s))) s) as Hget.
    cbv zeta in Hget. rewrite Hst, Hu in Hget.
    eexists. split; [exact Hget|]. split.
    + apply (error_tile_selected z x y s _ _ Hget);
        [simpl; unfold update; now rewrite Nat.eqb_refl | reflexivity | reflexivity].
    + intros dx dy w h gutter transition.
      match goal with
      | |- exists s2, drawTileImage _ ?t _ _ _ _ _ _ ?w1 = _ /\ _ =>
          destruct (drawTileImage_draws t dx dy w h gutter transition w1)
            as (s2 & Hrun & Hdraw)
      end.
      exists s2. split; [exact Hrun|].
      simpl in Hdraw. unfold update in Hdraw. rewrite Nat.eqb_refl in Hdraw.
      exact Hdraw.
Qed.

(** *** The whole frame *)

Lemma setTileToDraw_entry (z : Z) (c : TileCoord) (t : TileRef) (m m1 : TilesByZ) :
  setTileToDraw z c t m = Some m1 -> tilesAtZ z m1 <> None.
Proof.
  intros H. destruct (setTileToDraw_lookup _ _ _ _ _ H) as (l & l1 & _ & Hl1 & _).
  rewrite Hl1. discriminate.
Qed.

Lemma forFrom_invariant {S : Type} (P : S -> Prop) (body : Z -> S -> Run S) :
  (forall i v s, P v -> exists v' s', body i v s = Some (v', s') /\ P v') ->
  forall n i v s, P v -> exists v' s', forFrom n i body v s = Some (v', s') /\ P v'.
Proof.
  intros Hb. induction n as [|n IH]; intros i v s Hv; simpl.
  - exists v, s. split; [reflexivity | exact Hv].
  - destruct (Hb i v s Hv) as (v1 & s1 & Hrun & Hv1).
    destruct (IH (i + 1) v1 s1 Hv1) as (v2 & s2 & Hrest & Hv2).
    exists v2, s2. split; [|exact Hv2].
    unfold bind. rewrite Hrun. exact Hrest.
Qed.

Section WellBehaved.

Variable z : Z.
Variable tileGrid : TileGrid.
Variable findLoadedTiles : @TileStore Transition -> LoadedTileFinder.

Hypothesis finder_keeps :
  forall store zoom range, keepsEntry z (findLoadedTiles store zoom range).
Hypothesis walk_keeps :
  forall coord callback,
    (forall zoom range, keepsEntry z (callback zoom range)) ->
    keepsEntry z (forEachTileCoordParentTileRange tileGrid coord callback).

(** With a finder and an ancestor walk that keep the entry of [z], the
    selection of a coordinate returns and keeps that entry. *)
Lemma selectTile_returns (x y : Z) (m : TilesByZ) (s : World) :
  tilesAtZ z m <> None ->
  exists m' s',
    selectTile tm z tileGrid findLoadedTiles x y m s = Some (m', s')
    /\ tilesAtZ z m' <> None.
Proof.
  intros Hz.
  destruct (selectTile_run z tileGrid findLoadedTiles x y m s Hz)
    as (tile & s1 & m1 & m' & s' & _ & Hrun & Hreg & Hm' & _).
  exists m', s'. split; [exact Hrun|].
  assert (Hm1 : tilesAtZ z m1 <> None).
  { destruct (_ && _) in Hreg; [now apply setTileToDraw_entry in Hreg | now subst m1]. }
  rewrite Hm'. destruct (_ && strictEq _ _); [exact Hm1|].
  cbv zeta.
  assert (Hc : tilesAtZ z
                 (snd match getTileCoordChildTileRange tileGrid
                              (tileCoord (tiles s1 tile)) with
                      | Some range => findLoadedTiles (tiles s') (z + 1) range m1
                      | None => (false, m1)
                      end) <> None).
  { destruct (getTileCoordChildTileRange _ _); [now apply finder_keeps | exact Hm1]. }
  destruct (fst _); [exact Hc|].
  apply walk_keeps; [|exact Hc].
  intros zoom range. apply finder_keeps.
Qed.

Lemma selection_returns (lo hi lo' hi' : Z) (s : World) :
  exists m s',
    forRange lo hi (fun x =>
      forRange lo' hi' (fun y => selectTile tm z tileGrid findLoadedTiles x y))
      [(z, [])] s = Some (m, s').
Proof.
  destruct (forFrom_invariant (fun m => tilesAtZ z m <> None)
              (fun x => forRange lo' hi'
                 (fun y => selectTile tm z tileGrid findLoadedTiles x y)))
    with (n := Z.to_nat (hi - lo + 1)) (i := lo) (v := [(z, @nil (TileCoord * TileRef))])
         (s := s)
    as (m & s' & Hrun & _).
  - intros i v s0 Hv. unfold forRange.
    apply forFrom_invariant; [|exact Hv].
    intros j v0 s1 Hv0. now apply selectTile_returns.
  - simpl. rewrite Z.eqb_refl. discriminate.
  - exists m, s'. exact Hrun.
Qed.

End WellBehaved.

(** X12: [renderFrame] returns, without a [TypeError], whenever the
    finder made by [createLoadedTileFinder] and the ancestor walk of the
    tile grid leave the entry of the ideal zoom in [tilesToDrawByZ] (they
    are meant to add tiles only): registering a tile is the one place
    where the frame can fail, and it needs that entry. *)
Theorem renderFrame_returns (layerState : LayerState) (s : World) :
  let tileSource := getSource (layer (this s)) in
  let proj := projection (viewState (frameState s)) in
  let z := g_z (frameGeometry lib (this s) (frameState s) layerState) in
  (forall store zoom range,
     keepsEntry z (createLoadedTileFinder lib tileSource proj store zoom range)) ->
  (forall coord callback,
     (forall zoom range, keepsEntry z (callback zoom range)) ->
     keepsEntry z (forEachTileCoordParentTileRange
                     (getTileGridForProjection tileSource proj) coord callback)) ->
  exists c s', renderFrame tm lib layerState s = Some (c, s').
Proof.
  cbv zeta. intros Hfind Hwalk.
  rewrite renderFrame_by_phases. unfold renderFrame_phases. cbv zeta.
  remember (frameGeometry lib (this s) (frameState s) layerState) as g eqn:Hg.
  destruct (selection_returns (g_z g) _ _ Hfind Hwalk
              (minX (g_tileRange g)) (maxX (g_tileRange g))
              (minY (g_tileRange g)) (maxY (g_tileRange g))
              (with_this (set_newTiles_ false) s)) as (m & s2 & Hsel).
  destruct (prepareCanvas_run (frameState s) g layerState s2) as (s7 & Hprep & _).
  destruct (drawTiles_drawn (frameState s) (layer (this s)) g m s7) as (s8 & Hdraw & _).
  destruct (finishFrame_run (layer (this s)) g layerState s8) as (c & s' & Hfin & _).
  exists c, s'.
  unfold bind at 1. unfold selectTiles. cbv zeta.
  unfold bind at 1, modify at 1. rewrite Hsel.
  unfold bind at 1. rewrite Hprep.
  unfold bind at 1. rewrite Hdraw. exact Hfin.
Qed.

(** The phases a returned frame went through. *)
Lemma renderFrame_inv (layerState : LayerState) (s : World) (c : Canvas) (s' : World) :
  renderFrame tm lib layerState s = Some (c, s') ->
  let g := frameGeometry lib (this s) (frameState s) layerState in
  exists m s2 s7 s8,
    selectTiles tm lib (frameState s) (layer (this s)) g s = Some (m, s2)
    /\ prepareCanvas lib (frameState s) g layerState s2 = Some (tt, s7)
    /\ drawTiles tm lib (frameState s) (layer (this s)) g m s7 = Some (tt, s8)
    /\ finishFrame lib (layer (this s)) g layerState s8 = Some (c, s').
Proof.
  rewrite renderFrame_by_phases. unfold renderFrame_phases. cbv zeta. intros H.
  apply bind_inv in H. destruct H as (m & s2 & Hsel & H).
  apply bind_inv in H. destruct H as ([] & s7 & Hprep & H).
  apply bind_inv in H. destruct H as ([] & s8 & Hdraw & H).
  exists m, s2, s7, s8. repeat split; assumption.
Qed.

Ltac frame_phases H :=
  apply renderFrame_inv in H; cbv zeta in H;
  destruct H as (m & s2 & s7 & s8 & Hsel & Hprep & Hdraw & Hfin);
  apply selected_selectTiles in Hsel;
  match type of Hprep with
  | prepareCanvas _ ?fs ?g ?ls ?s = _ =>
      destruct (prepareCanvas_run fs g ls s) as (sp & P & HP);
      rewrite P in Hprep; injection Hprep as <-; clear P
  end;
  match type of Hdraw with
  | drawTiles _ _ ?fs ?tl ?g ?m ?s = _ =>
      destruct (drawTiles_drawn fs tl g m s) as (sd & D & HD);
      rewrite D in Hdraw; injection Hdraw as <-; clear D
  end;
  match type of Hfin with
  | finishFrame _ ?tl ?g ?ls ?s = _ =>
      destruct (finishFrame_run tl g ls s) as (cf & sf & F & HF);
      rewrite F in Hfin; injection Hfin as <- <-; clear F
  end.

(** The canvas dimensions computed for a viewport of zero size. *)
Lemma frameGeometry_zero_size (layerState : LayerState) (s : World) :
  let g := frameGeometry lib (this s) (frameState s) layerState in
  strictEq (fst (size (frameState s))) 0%float = true ->
  strictEq (snd (size (frameState s))) 0%float = true ->
  PrimFloat.is_finite (g_tilePixelRatio g) = true ->
  exists sw sh,
    Prim2SF (g_width g) = S754_zero sw /\ Prim2SF (g_height g) = S754_zero sh.
Proof.
  cbv zeta. unfold frameGeometry. cbn [g_width g_height g_tilePixelRatio].
  intros Hw Hh Hfin.
  apply strictEq_zero_spec in Hw, Hh.
  destruct Hw as [sw Hw], Hh as [sh Hh].
  destruct (mul_zero _ _ _ Hw Hfin) as [sw' Hw'].
  destruct (mul_zero _ _ _ Hh Hfin) as [sh' Hh'].
  pose proof (Math_round_zero _ _ Hw') as Rw.
  pose proof (Math_round_zero _ _ Hh') as Rh.
  destruct (truthy (rotation (viewState (frameState s)))).
  - exists false, false. rewrite Rw, Rh.
    split; apply (rotated_zero _ _ sw' sh'); assumption.
  - exists sw', sh'. rewrite Rw, Rh. split; assumption.
Qed.

(** C8: degenerate frames.  When the tile range at the ideal zoom is
    empty, [renderFrame] returns without an error; it selects and draws
    no tile ([renderedTiles] is left empty and the trace has no
    [DrawImage]), it sizes or clears the canvas, clips when the layer has
    an extent, calls the pre- and post-render hooks and the tile pyramid
    management, sets [renderedRevision], [renderedResolution] and
    [renderedExtent_], and returns the canvas.  When the viewport has
    zero size, [renderFrame] returns without an error as well, provided,
    as for any frame, that the finder and the ancestor walk keep the
    entry of the ideal zoom; it sets [renderedRevision],
    [renderedResolution] and [renderedExtent_] and returns the canvas,
    whose width and height are then zero when the tile pixel ratio is
    finite.  But the size of the viewport does not stop the selection:
    [renderedTiles] is the list of the tiles the selection over the tile
    range registered, in drawing order, and these are the tiles handed to
    [updateUsedTiles]. *)
Theorem renderFrame_degenerate (layerState : LayerState) (s : World) :
  let g := frameGeometry lib (this s) (frameState s) layerState in
  let tileSource := getSource (layer (this s)) in
  let proj := projection (viewState (frameState s)) in
  (TileRange_isEmpty (g_tileRange g) = true ->
     exists c s',
       renderFrame tm lib layerState s = Some (c, s')
       /\ renderedTiles (this s') = []
       /\ trace s' =
            trace s
            ++ (if strictNe (canvas_width (canvas (context (this s)))) (g_width g)
                   || strictNe (canvas_height (canvas (context (this s)))) (g_height g)
                then [SetCanvasWidth (g_width g); SetCanvasHeight (g_height g)]
                else [ClearRect 0%float 0%float (g_width g) (g_height g)])
            ++ match ls_extent layerState with
               | Some e => [Save; ClipUnrotated e]
               | None => []
               end
            ++ [PreRender;
                ManageTilePyramid (g_extent g) (g_z g) (getPreload (layer (this s)));
                ScheduleExpireCache;
                PostRender]
            ++ match ls_extent layerState with
               | Some e => [Restore]
               | None => []
               end
       /\ renderedRevision (this s') = Some (getRevision (getSource (layer (this s))))
       /\ renderedResolution (this s') = Some (g_tileResolution g)
       /\ renderedExtent_ (this s') = Some (g_canvasExtent g)
       /\ c = canvas (context (this s'))
       /\ tiles s' = tiles s
       /\ frameState s' = frameState s)
  /\ (strictEq (fst (size (frameState s))) 0%float = true ->
      strictEq (snd (size (frameState s))) 0%float = true ->
      (forall store zoom range,
         keepsEntry (g_z g) (createLoadedTileFinder lib tileSource proj store zoom range)) ->
      (forall coord callback,
         (forall zoom range, keepsEntry (g_z g) (callback zoom range)) ->
         keepsEntry (g_z g)
           (forEachTileCoordParentTileRange
              (getTileGridForProjection tileSource proj) coord callback)) ->
      exists c s' m s2,
        renderFrame tm lib layerState s = Some (c, s')
        /\ selectTiles tm lib (frameState s) (layer (this s)) g s = Some (m, s2)
        /\ renderedTiles (this s') =
             flat_map (fun currentZ => tilesToDrawAt currentZ m) (drawOrder (g_z g) m)
        /\ usedTiles (trace s') = usedTiles (trace s) ++ renderedTiles (this s')
        /\ renderedRevision (this s') = Some (getRevision (getSource (layer (this s))))
        /\ renderedResolution (this s') = Some (g_tileResolution g)
        /\ renderedExtent_ (this s') = Some (g_canvasExtent g)
        /\ c = canvas (context (this s'))
        /\ (PrimFloat.is_finite (g_tilePixelRatio g) = true ->
            strictEq (canvas_width c) 0%float = true
            /\ strictEq (canvas_height c) 0%float = true)).
Proof.
  cbv zeta. split.
  - intros Hempty. unfold renderFrame.
    unfold bind at 1, gets at 1. unfold bind at 1, getLayer at 1, gets at 1.
    unfold bind at 1, gets at 1. cbv zeta.
    unfold bind at 1, modify at 1. unfold bind at 1.
    remember (frameGeometry lib (this s) (frameState s) layerState) as g eqn:Hg.
    rewrite (selection_empty (g_tileRange g) _ _ _ Hempty).
    unfold drawZoom, setCanvasWidth, setCanvasHeight, ctx_clearRect, clipUnrotated,
      ctx_save, ctx_restore, setStyleOpacity, setStyleTransform.
    run. rewrite Z.eqb_refl. run.
    destruct (strictNe (canvas_width (canvas (context (this s)))) (g_width g)
              || strictNe (canvas_height (canvas (context (this s)))) (g_height g));
      destruct (ls_extent layerState) as [e|]; run;
      destruct (strictNe (opacity layerState) (style_opacity (canvas (context (this s)))));
      run;
      match goal with
      | |- context [if negb (String.eqb ?a ?b) then _ else _] =>
          destruct (negb (String.eqb a b))
      end;
      run;
      (eexists; eexists; split; [reflexivity|]; simpl;
       rewrite <- ?app_assoc; simpl; repeat split; reflexivity).
  - intros Hw Hh Hfind Hwalk.
    pose proof (frameGeometry_zero_size layerState s Hw Hh) as Hzero.
    cbv zeta in Hzero.
    remember (frameGeometry lib (this s) (frameState s) layerState) as g eqn:Hg.
    destruct (selection_returns (g_z g) _ _ Hfind Hwalk
                (minX (g_tileRange g)) (maxX (g_tileRange g))
                (minY (g_tileRange g)) (maxY (g_tileRange g))
                (with_this (set_newTiles_ false) s)) as (m & s2 & Hsel).
    assert (Hselect :
              selectTiles tm lib (frameState s) (layer (this s)) g s = Some (m, s2)).
    { unfold selectTiles. cbv zeta. unfold bind at 1, modify at 1. exact Hsel. }
    destruct (prepareCanvas_run (frameState s) g layerState s2) as (s7 & Hprep & HP).
    destruct (drawTiles_drawn (frameState s) (layer (this s)) g m s7)
      as (s8 & Hdraw & HD).
    destruct (finishFrame_run (layer (this s)) g layerState s8)
      as (c & s' & Hfin & HF).
    exists c, s', m, s2. split.
    { rewrite renderFrame_by_phases. unfold renderFrame_phases. cbv zeta.
      rewrite <- Hg. unfold bind at 1. rewrite Hselect.
      unfold bind at 1. rewrite Hprep.
      unfold bind at 1. rewrite Hdraw. exact Hfin. }
    split; [exact Hselect|].
    apply selected_selectTiles in Hselect.
    destruct Hselect as (_ & _ & Hu2 & _).
    destruct HP as (_ & _ & _ & Hr7 & Hu7 & _ & _ & _ & Hcw & Hch).
    destruct HD as (Ht8 & Hu8 & _).
    destruct HF as (Hc & _ & _ & Hr & Hu & _ & Hrev & Hres & Hext & _ & _ & Hw' & Hh'
                    & _).
    rewrite Ht8 in Hr, Hw', Hh'. simpl in Hr, Hw', Hh'. rewrite Hr7 in Hr.
    simpl in Hr.
    split; [exact Hr|]. split; [rewrite Hu, Hu8, Hu7, Hu2, Hr; reflexivity|].
    split; [exact Hrev|]. split; [exact Hres|]. split; [exact Hext|].
    split; [exact Hc|].
    intros Hfinite. destruct (Hzero Hfinite) as (sw & sh & Hgw & Hgh).
    split.
    + rewrite Hw'. exact (dimension_zero _ _ sw Hcw Hgw).
    + rewrite Hh'. exact (dimension_zero _ _ sh Hch Hgh).
Qed.

(** X8: after a frame [renderedTiles] is the list of the tiles the frame
    handed to [updateUsedTiles], in the same order: every tile recorded
    as rendered is reported as used, and no other. *)
Theorem renderFrame_used_tiles (layerState : LayerState) (s : World) (c : Canvas)
  (s' : World) :
  renderFrame tm lib layerState s = Some (c, s') ->
  usedTiles (trace s') = usedTiles (trace s) ++ renderedTiles (this s').
Proof.
  intros H. frame_phases H.
  destruct Hsel as (_ & _ & Hu2 & _).
  destruct HP as (_ & _ & _ & Hr7 & Hu7 & _).
  destruct HD as (Ht8 & Hu8 & _).
  destruct HF as (_ & _ & _ & Hr & Hu & _).
  rewrite Hu, Hu8, Hu7, Hu2, Hr, Ht8. simpl. now rewrite Hr7.
Qed.

(** X9: over a frame the saves and restores of the drawing context are
    paired, each [restore] with the [save] it is meant for.  The events
    of a returned frame are: a first part without [save] or [restore]
    (the selection and the sizing or clearing of the canvas); then, when
    the layer has an extent, the [save] of [clipUnrotated], a middle part,
    and the [restore] of the frame as the very last event, and the middle
    part alone when the layer has no extent.  In the middle part saves
    and restores alternate without nesting, a [save] first, with nothing
    but the drawing of images between a [save] and its [restore]: no
    [restore] made for a tile undoes the [save] of the clip, and the last
    [restore] undoes that one.  The number of saves not yet undone is
    therefore the same after the frame as before. *)
Theorem renderFrame_balanced (layerState : LayerState) (s : World) (c : Canvas)
  (s' : World) :
  renderFrame tm lib layerState s = Some (c, s') ->
  saveDepth (trace s') = saveDepth (trace s)
  /\ exists before middle,
       trace s' =
         trace s ++ before
         ++ match ls_extent layerState with
            | Some e => [Save; ClipUnrotated e] ++ middle ++ [Restore]
            | None => middle
            end
       /\ saveFree before = true
       /\ paired false middle = true.
Proof.
  intros H. pose proof H as H0. split.
  - frame_phases H.
    destruct Hsel as (_ & _ & _ & Hd2).
    destruct HP as (_ & _ & _ & _ & _ & Hd7 & _).
    destruct HD as (_ & _ & Hd8 & _).
    destruct HF as (_ & _ & _ & _ & _ & Hd & _).
    rewrite Hd, Hd8, Hd7, Hd2. lia.
  - clear H. apply renderFrame_inv in H0. cbv zeta in H0.
    destruct H0 as (m & s2 & s7 & s8 & Hsel & Hprep & Hdraw & Hfin).
    apply saveFree_selectTiles in Hsel. destruct Hsel as (pre & Htr2 & Hpre).
    destruct (prepareCanvas_trace (frameState s)
                (frameGeometry lib (this s) (frameState s) layerState) layerState s2)
      as (sp & P & Htr7).
    rewrite P in Hprep. injection Hprep as <-.
    apply paired_drawTiles in Hdraw. destruct Hdraw as (mid & Htr8 & Hmid).
    destruct (finishFrame_trace (layer (this s))
                (frameGeometry lib (this s) (frameState s) layerState) layerState s8)
      as (cf & sf & F & Htr).
    rewrite F in Hfin. injection Hfin as <- <-.
    remember (frameGeometry lib (this s) (frameState s) layerState) as g eqn:Hg.
    exists (pre
            ++ (if strictNe (canvas_width (canvas (context (this s2)))) (g_width g)
                   || strictNe (canvas_height (canvas (context (this s2)))) (g_height g)
                then [SetCanvasWidth (g_width g); SetCanvasHeight (g_height g)]
                else [ClearRect 0%float 0%float (g_width g) (g_height g)])),
           ([PreRender] ++ mid
            ++ [ManageTilePyramid (g_extent g) (g_z g) (getPreload (layer (this s)));
                ScheduleExpireCache; PostRender]).
    split; [|split].
    + rewrite Htr, Htr8, Htr7, Htr2.
      destruct (ls_extent layerState) as [e|]; simpl;
        rewrite <- ?app_assoc; simpl; rewrite <- ?app_assoc; reflexivity.
    + rewrite saveFree_app, Hpre.
      now destruct (strictNe _ _ || strictNe _ _).
    + simpl. now rewrite (paired_app mid _ false Hmid).
Qed.

(** X10: whenever [renderFrame] returns, it has recorded the revision of
    the source, the resolution of the ideal zoom and the extent of the
    canvas of this frame, it returns the canvas of the context, and
    [getImage] then returns that canvas. *)
Theorem renderFrame_bookkeeping (layerState : LayerState) (s : World) (c : Canvas)
  (s' : World) :
  renderFrame tm lib layerState s = Some (c, s') ->
  let g := frameGeometry lib (this s) (frameState s) layerState in
  renderedRevision (this s') = Some (getRevision (getSource (layer (this s))))
  /\ renderedResolution (this s') = Some (g_tileResolution g)
  /\ renderedExtent_ (this s') = Some (g_canvasExtent g)
  /\ c = canvas (context (this s'))
  /\ getImage s' = Some (Some c, s').
Proof.
  intros H. cbv zeta. frame_phases H.
  destruct HF as (Hc & _ & _ & _ & _ & _ & Hrev & Hres & Hext & _).
  repeat split; try assumption.
  unfold getImage. run. now rewrite Hc.
Qed.

(** X11: what a returned frame leaves for presentation: the pixel
    transform composed for this frame with its inverse beside it, a
    canvas of the computed width and height (or of dimensions equal to
    them as numbers), the pixel transform as the style transform of the
    canvas, and the layer's opacity as its style opacity (or one equal to
    it as a number). *)
Theorem renderFrame_presentation (layerState : LayerState) (s : World) (c : Canvas)
  (s' : World) :
  renderFrame tm lib layerState s = Some (c, s') ->
  let g := frameGeometry lib (this s) (frameState s) layerState in
  pixelTransform_ (this s') =
    composeTransform lib
      (fst (size (frameState s)) / 2)%float (snd (size (frameState s)) / 2)%float
      (1 / g_tilePixelRatio g)%float (1 / g_tilePixelRatio g)%float
      (rotation (viewState (frameState s)))
      (- g_width g / 2)%float (- g_height g / 2)%float
  /\ inversePixelTransform_ (this s') = makeInverse lib (pixelTransform_ (this s'))
  /\ (canvas_width c = g_width g \/ strictNe (canvas_width c) (g_width g) = false)
  /\ (canvas_height c = g_height g \/ strictNe (canvas_height c) (g_height g) = false)
  /\ style_transform c = transformToString lib (pixelTransform_ (this s'))
  /\ (style_opacity c = opacity layerState
      \/ strictNe (opacity layerState) (style_opacity c) = false).
Proof.
  intros H. cbv zeta. frame_phases H.
  destruct HP as (_ & _ & _ & _ & _ & _ & Hpt & Hipt & Hw & Hh).
  destruct HD as (Ht8 & _).
  destruct HF as (_ & _ & _ & _ & _ & _ & _ & _ & _ & Hpt' & Hipt' & Hw' & Hh'
                  & Hst & Hop).
  rewrite Ht8 in Hpt', Hipt', Hw', Hh', Hst. simpl in Hpt', Hipt', Hw', Hh', Hst.
  rewrite Hpt', Hipt', Hw', Hh', Hst.
  repeat split; assumption.
Qed.

(** X13: after a frame [renderedTiles] lists the tiles the selection
    registered, zoom level by zoom level in drawing order and, within a
    level, in the order of registration; tiles without an image are
    listed as well. *)
Theorem renderFrame_rendered_tiles (layerState : LayerState) (s : World) (c : Canvas)
  (s' : World) :
  renderFrame tm lib layerState s = Some (c, s') ->
  let g := frameGeometry lib (this s) (frameState s) layerState in
  exists m s2,
    selectTiles tm lib (frameState s) (layer (this s)) g s = Some (m, s2)
    /\ renderedTiles (this s') =
         flat_map (fun currentZ => tilesToDrawAt currentZ m) (drawOrder (g_z g) m).
Proof.
  intros H. cbv zeta.
  apply renderFrame_inv in H. cbv zeta in H.
  destruct H as (m & s2 & s7 & s8 & Hsel & Hprep & Hdraw & Hfin).
  exists m, s2. split; [exact Hsel|].
  destruct (prepareCanvas_run (frameState s)
              (frameGeometry lib (this s) (frameState s) layerState) layerState s2)
    as (sp & P & HP).
  rewrite P in Hprep. injection Hprep as <-.
  destruct (drawTiles_drawn (frameState s) (layer (this s))
              (frameGeometry lib (this s) (frameState s) layerState) m sp)
    as (sd & D & HD).
  rewrite D in Hdraw. injection Hdraw as <-.
  destruct (finishFrame_run (layer (this s))
              (frameGeometry lib (this s) (frameState s) layerState) layerState sd)
    as (cf & sf & F & HF).
  rewrite F in Hfin. injection Hfin as <- <-.
  destruct HP as (_ & _ & _ & Hr7 & _).
  destruct HD as (Ht8 & _).
  destruct HF as (_ & _ & _ & Hr & _).
  rewrite Hr, Ht8. simpl. now rewrite Hr7.
Qed.

End RendererProperties.

(** ** More on the zoom order *)

(** X14: the drawing order is fixed by the set of zoom levels alone: for
    duplicate-free keys that hold the ideal zoom, every arrangement of
    the keys that is in sorted order for the comparator of [renderFrame]
    is the one [Array_sort] gives, whatever order the keys were
    enumerated in; neither the sorting algorithm of the engine nor the
    order of [Object.keys] can change what is drawn on top of what. *)
Theorem draw_order_unique (z : Z) (zs zs' l : list Z) :
  NoDup zs -> In z zs -> Permutation zs zs' -> Permutation zs l ->
  sortedBy (compareZoom z) l ->
  l = Array_sort (compareZoom z) zs'.
Proof.
  intros Hnd Hz Hp Hl Hs.
  rewrite (sort_any_order z zs zs' Hnd Hz Hp).
  now apply sort_unique.
Qed.

(** ** Colours *)

(** X15: [ol.Color.equals] is symmetric and transitive: the order of its
    arguments does not matter, and two colours equal to a third are equal
    to each other (equality of components is that of numbers, so a
    component [-0] equals [0]). *)
Theorem Color_equals_sym_trans :
  (forall c1 c2, Color.equals c1 c2 = Color.equals c2 c1)
  /\ (forall c1 c2 c3,
        Color.equals c1 c2 = true -> Color.equals c2 c3 = true ->
        Color.equals c1 c3 = true).
Proof.
  split.
  - intros c1 c2. unfold Color.equals.
    now rewrite (strictEq_sym (Color.r c1)), (strictEq_sym (Color.g c1)),
      (strictEq_sym (Color.b c1)), (strictEq_sym (Color.a c1)).
  - intros c1 c2 c3. unfold Color.equals. rewrite !andb_true_iff.
    intros [[[Hr Hg] Hb] Ha] [[[Hr' Hg'] Hb'] Ha'].
    repeat split; eapply strictEq_trans; eassumption.
Qed.

(** X16: the alpha of a colour made from a string is never 0 and never
    [NaN]: an alpha that is left out, 0 or [NaN] is replaced by 255 (so a
    fully transparent colour cannot be asked for), any other alpha is
    kept; the alpha has no influence on the three colour components, and
    the only failure is that of parsing the string. *)
Theorem Color_createFromString_alpha (parse_hex : string -> option string)
  (hexToRgb : string -> number * number * number) (str : string)
  (opt_a : option number) :
  (Color.createFromString parse_hex hexToRgb str opt_a = None <-> parse_hex str = None)
  /\ forall c,
       Color.createFromString parse_hex hexToRgb str opt_a = Some c ->
       truthy (Color.a c) = true
       /\ (match opt_a with
           | Some x => if truthy x then Color.a c = x else Color.a c = 255%float
           | None => Color.a c = 255%float
           end)
       /\ forall opt_a',
            exists c',
              Color.createFromString parse_hex hexToRgb str opt_a' = Some c'
              /\ Color.r c' = Color.r c /\ Color.g c' = Color.g c
              /\ Color.b c' = Color.b c.
Proof.
  unfold Color.createFromString.
  destruct (parse_hex str) as [hex|]; split;
    try (split; [discriminate | reflexivity]); try (split; congruence);
    try discriminate.
  intros c H. injection H as <-. simpl. repeat split.
  - destruct opt_a as [x|]; [|reflexivity].
    destruct (truthy x) eqn:Hx; [exact Hx | reflexivity].
  - destruct opt_a as [x|]; [|reflexivity].
    destruct (truthy x); reflexivity.
  - intros opt_a'. eexists. split; [reflexivity|]. simpl. repeat split.
Qed.

(** ** The properties on the sample layer *)

Import Sample.

(** Zoom ordering for the zoom levels 3, 5 and 7 with ideal zoom 5. *)
Lemma zoom_draw_order_witness :
  exists rest,
    Array_sort (compareZoom 5) [3; 5; 7] = rest ++ [5]
    /\ ~ In 5 rest
    /\ StronglySorted Z.lt rest
    /\ Permutation [3; 5; 7] (rest ++ [5]).
Proof.
  apply (zoom_draw_order 5 [3; 5; 7]).
  - repeat constructor; simpl; intuition lia.
  - simpl. auto.
Defined.

(** The failed tile has no image: drawing it changes nothing. *)
Lemma drawTileImage_no_image_witness :
  image (tiles plain 1%nat) = None
  /\ drawTileImage tileMethods 1%nat 0%float 0%float 256%float 256%float 0%float true
       plain = Some (tt, plain).
Proof.
  split; [reflexivity|].
  apply (drawTileImage_no_image tileMethods 1%nat); reflexivity.
Defined.

(** Drawing the tile that is half-way through its transition. *)
Lemma drawTileImage_blend_witness :
  image (tiles plain 3%nat) = Some picture
  /\ exists s',
       drawTileImage tileMethods 3%nat 0%float 0%float 256%float 256%float 0%float true
         plain = Some (tt, s')
       /\ trace s' =
            [Save;
             DrawImage picture 0%float 0%float 256%float 256%float
               0%float 0%float 256%float 256%float 0.5%float;
             Restore]
       /\ animate (frameState s') = true
       /\ tile_transition (tiles s' 3%nat) = 0.5%float
       /\ globalAlpha (context (this s')) = 1%float.
Proof.
  split; [reflexivity|].
  apply (drawTileImage_blend tileMethods 3%nat 0%float 0%float 256%float 256%float
           0%float true picture plain).
  reflexivity.
Defined.

(** A tile drawn mid-transition is not cleared first: the alpha of the
    tile is 0.5, less than 1, the source is not opaque, and the image is
    drawn with no [ClearRect] before it. *)
Lemma drawTileImage_mid_transition_no_clear :
  PrimFloat.ltb
    (fst (getAlpha tileMethods (tile_transition (tiles plain 3%nat)) (ol_uid (this plain))
            (time (frameState plain)))) 1 = true
  /\ getOpaque (getSource (layer (this plain)))
       (projection (viewState (frameState plain))) = false
  /\ option_map (fun r => trace (snd r))
       (drawTileImage tileMethods 3%nat 0%float 0%float 256%float 256%float 0%float true
          plain)
     = Some [Save;
             DrawImage picture 0%float 0%float 256%float 256%float
               0%float 0%float 256%float 256%float 0.5%float;
             Restore].
Proof. vm_compute. repeat split; reflexivity. Qed.

(** The error tile of the sample store, under a layer that does not use
    interim tiles on error: its alpha is 1 and it has no image, so the
    search is stopped and nothing is drawn. *)
Lemma getTile_error_tile_witness :
  state (tiles plain (source_getTile (getSource (layer (this plain))) 4 1 0 1%float
                        "EPSG:3857"%string)) = ERROR
  /\ getUseInterimTilesOnError (layer (this plain)) = false
  /\ (exists t s',
        getTile tileMethods 4 1 0 1%float "EPSG:3857"%string plain = Some (t, s')
        /\ layer (this s') = layer (this plain)
        /\ t = 1%nat
        /\ state (tiles s' 1%nat) = LOADED
        /\ isDrawable (layer (this plain)) (state (tiles s' 1%nat)) = true
        /\ newTiles_ (this s') = false)
  /\ exists s1,
       getTile tileMethods 4 1 0 1%float "EPSG:3857"%string plain = Some (1%nat, s1)
       /\ (exists m1 m' s',
             selectTile tileMethods 4 (grid oneTile (Some childTiles))
               (createLoadedTileFinder library (getSource (layer (this plain)))
                  "EPSG:3857"%string)
               1 0 [(4, [])] plain = Some (m', s')
             /\ setTileToDraw 4 (4, 1, 0) 1%nat [(4, [])] = Some m1
             /\ m' = m1 /\ trace s' = trace plain)
       /\ (exists s2,
             drawTileImage tileMethods 1%nat 0%float 0%float 256%float 256%float
               0%float true s1 = Some (tt, s2)
             /\ s2 = s1).
Proof.
  destruct (getTile_error_tile tileMethods 4 1 0 plain) as [Hget Hnext].
  split; [reflexivity|]. split; [reflexivity|]. split.
  - exact (Hget 1%float "EPSG:3857"%string eq_refl).
  - destruct (Hnext eq_refl eq_refl) as (s1 & Hs1 & Hsel & Hdraw).
    exists s1. split; [exact Hs1|]. split.
    + apply (Hsel (grid oneTile (Some childTiles))
               (createLoadedTileFinder library (getSource (layer (this plain)))
                  "EPSG:3857"%string)
               [(4, [])]).
      discriminate.
    + exact (Hdraw 0%float 0%float 256%float 256%float 0%float true).
Defined.

(** The error handling is not as claimed, on two counts.  Interim tiles
    on error do not set [newTiles_] by themselves: the tile is in state
    ERROR and the layer uses interim tiles on error, with a preload of 0;
    [newTiles_] is false before [getTile] and false after it.  And a tile
    treated as loaded is not always drawn as nothing with the search
    stopped: under a layer that does not use interim tiles on error, the
    error tile that has an image and is half-way through its transition
    has both the finder and the ancestor walk called for it, and its
    image is drawn. *)
Lemma error_tile_handling_differs :
  (state (tiles interim 1%nat) = ERROR
   /\ getUseInterimTilesOnError (layer (this interim)) = true
   /\ newTiles_ (this interim) = false
   /\ option_map (fun r => newTiles_ (this (snd r)))
        (getTile tileMethods 4 1 0 1%float "EPSG:3857"%string interim) = Some false)
  /\ (state (tiles failedHalfway 1%nat) = ERROR
      /\ getUseInterimTilesOnError (layer (this failedHalfway)) = false
      /\ option_map (fun r => trace (snd r))
           (renderFrame tileMethods library layerState failedHalfway)
         = Some [FindLoadedTiles 5 childTiles;
                 ForEachTileCoordParentTileRange (4, 1, 0);
                 SetCanvasWidth 500%float; SetCanvasHeight 300%float; PreRender;
                 Save;
                 DrawImage picture 0%float 0%float 256%float 256%float
                   506%float (-106)%float 256%float 256%float 0.5%float;
                 Restore;
                 UpdateUsedTiles 1%nat;
                 ManageTilePyramid (mkExtent 0%float 0%float 0%float 0%float) 4 0;
                 ScheduleExpireCache; PostRender]).
Proof. vm_compute. repeat split; reflexivity. Qed.

(** [getTile] does change a lifecycle state: the layer does not use
    interim tiles on error, and the state of the error tile goes from
    ERROR to LOADED. *)
Lemma getTile_changes_state :
  state (tiles plain 1%nat) = ERROR
  /\ getUseInterimTilesOnError (layer (this plain)) = false
  /\ option_map (fun r => state (tiles (snd r) 1%nat))
       (getTile tileMethods 4 1 0 1%float "EPSG:3857"%string plain) = Some LOADED.
Proof. vm_compute. repeat split; reflexivity. Qed.

(** A frame over four tiles, one of them failed: the state of the
    failed tile is bounded as the theorem says. *)
Lemma tile_states_over_frame_witness :
  exists c s',
    renderFrame tileMethods library layerState fourInRange = Some (c, s')
    /\ (state (tiles s' 1%nat) = state (tiles fourInRange 1%nat)
        \/ (state (tiles fourInRange 1%nat) = ERROR
            /\ getUseInterimTilesOnError (layer (this fourInRange)) = false
            /\ state (tiles s' 1%nat) = LOADED)).
Proof.
  destruct (renderFrame tileMethods library layerState fourInRange)
    as [[c s']|] eqn:Hrun.
  - exists c, s'. split; [reflexivity|].
    exact (proj2 (proj2 (tile_states_over_frame tileMethods library)) _ _ _ _ Hrun 1%nat).
  - vm_compute in Hrun. discriminate Hrun.
Defined.

(** The selection of the column of the idle tile, on a grid that has a
    child range for it. *)
Lemma selectTile_gating_witness :
  tilesAtZ 4 [(4, [])] <> None
  /\ exists m' s',
       selectTile tileMethods 4 (grid oneTile (Some childTiles))
         (createLoadedTileFinder library (getSource (layer (this withChildren)))
            "EPSG:3857"%string)
         2 0 [(4, [])] withChildren = Some (m', s')
       /\ trace s' = [FindLoadedTiles 5 childTiles;
                      ForEachTileCoordParentTileRange (4, 2, 0)].
Proof.
  split; [discriminate|].
  destruct (selectTile_gating tileMethods 4 (grid oneTile (Some childTiles))
              (createLoadedTileFinder library (getSource (layer (this withChildren)))
                 "EPSG:3857"%string)
              2 0 [(4, [])] withChildren)
    as (tile & s1 & Hget & m1 & m' & s' & Hrun & _ & Htrace).
  - discriminate.
  - injection Hget as <- <-. exists m', s'. split; [exact Hrun | exact Htrace].
Defined.

(** Without a child range the children are not checked: the tile
    selected for the column of the idle tile is not drawable, the grid has
    no child range for it, and the only call is the ancestor walk. *)
Lemma selectTile_without_child_range :
  option_map (fun r => isDrawable (layer (this plain)) (state (tiles (snd r) (fst r))))
    (getTile tileMethods 4 2 0 1%float "EPSG:3857"%string plain) = Some false
  /\ getTileCoordChildTileRange (grid oneTile None) (4, 2, 0) = None
  /\ option_map (fun r => trace (snd r))
       (selectTile tileMethods 4 (grid oneTile None)
          (createLoadedTileFinder library (getSource (layer (this plain)))
             "EPSG:3857"%string)
          2 0 [(4, [])] plain)
     = Some [ForEachTileCoordParentTileRange (4, 2, 0)].
Proof. vm_compute. repeat split; reflexivity. Qed.

(** A frame whose tile range is empty, and a frame whose viewport has
    zero size. *)
Lemma renderFrame_degenerate_witness :
  (TileRange_isEmpty
     (g_tileRange (frameGeometry library (this noneInRange) (frameState noneInRange)
                     layerState)) = true
   /\ exists c s',
        renderFrame tileMethods library layerState noneInRange = Some (c, s')
        /\ renderedTiles (this s') = []
        /\ renderedRevision (this s') = Some 7
        /\ c = canvas (context (this s')))
  /\ (strictEq (fst (size (frameState zeroSize))) 0%float = true
      /\ strictEq (snd (size (frameState zeroSize))) 0%float = true
      /\ exists c s' m s2,
           renderFrame tileMethods library layerState zeroSize = Some (c, s')
           /\ selectTiles tileMethods library (frameState zeroSize)
                (layer (this zeroSize))
                (frameGeometry library (this zeroSize) (frameState zeroSize) layerState)
                zeroSize = Some (m, s2)
           /\ renderedTiles (this s') =
                flat_map (fun currentZ => tilesToDrawAt currentZ m) (drawOrder 4 m)
           /\ renderedRevision (this s') = Some 7
           /\ c = canvas (context (this s'))
           /\ strictEq (canvas_width c) 0%float = true
           /\ strictEq (canvas_height c) 0%float = true).
Proof.
  split.
  - split; [reflexivity|].
    destruct (proj1 (renderFrame_degenerate tileMethods library layerState noneInRange)
                eq_refl)
      as (c & s' & Hrun & Htiles & _ & Hrev & _ & _ & Hc & _).
    exists c, s'. repeat split; assumption.
  - split; [reflexivity|]. split; [reflexivity|].
    destruct (proj2 (renderFrame_degenerate tileMethods library layerState zeroSize)
                eq_refl eq_refl)
      as (c & s' & m & s2 & Hrun & Hsel & Htiles & _ & Hrev & _ & _ & Hc & Hzero).
    + intros st zoom range m H. exact H.
    + intros coord callback _ m H. exact H.
    + destruct (Hzero eq_refl) as [Hw Hh].
      exists c, s', m, s2. repeat split; assumption.
Defined.

(** A viewport of zero size does not stop the drawing: the grid still
    answers with one tile, and that tile is drawn on the canvas of size
    0 x 0 and recorded in [renderedTiles]. *)
Lemma renderFrame_zero_size_draws :
  size (frameState zeroSize) = (0%float, 0%float)
  /\ option_map (fun r => renderedTiles (this (snd r)))
       (renderFrame tileMethods library layerState zeroSize) = Some [0%nat]
  /\ option_map (fun r => trace (snd r))
       (renderFrame tileMethods library layerState zeroSize)
     = Some [SetCanvasWidth 0%float; SetCanvasHeight 0%float; PreRender;
             ClearRect 0%float (-256)%float 256%float 256%float;
             DrawImage picture 0%float 0%float 256%float 256%float
               0%float (-256)%float 256%float 256%float 1%float;
             UpdateUsedTiles 0%nat;
             ManageTilePyramid (mkExtent 0%float 0%float 0%float 0%float) 4 0;
             ScheduleExpireCache; PostRender].
Proof. vm_compute. repeat split; reflexivity. Qed.

(** ** Further properties on the sample layer *)

(** Fetching the failed tile twice: the second call changes nothing. *)
Lemma getTile_idempotent_witness :
  exists t s1,
    getTile tileMethods 4 1 0 1%float "EPSG:3857"%string plain = Some (t, s1)
    /\ getTile tileMethods 4 1 0 1%float "EPSG:3857"%string s1 = Some (t, s1).
Proof.
  destruct (getTile tileMethods 4 1 0 1%float "EPSG:3857"%string plain)
    as [[t s1]|] eqn:Hrun.
  - exists t, s1. split; [reflexivity|].
    exact (getTile_idempotent tileMethods 4 1 0 1%float "EPSG:3857"%string plain s1 t Hrun).
  - vm_compute in Hrun. discriminate Hrun.
Defined.

(** Selecting the column of the loaded tile in the first frame. *)
Lemma selectTile_newTiles_witness :
  tilesAtZ 4 [(4, [])] <> None
  /\ exists tile s1 m' s',
       getTile tileMethods 4 0 0 (pixelRatio (frameState plain))
         (projection (viewState (frameState plain))) plain = Some (tile, s1)
       /\ selectTile tileMethods 4 (grid oneTile None)
            (createLoadedTileFinder library (getSource (layer (this plain)))
               "EPSG:3857"%string)
            0 0 [(4, [])] plain = Some (m', s')
       /\ (state (tiles s1 tile) = LOADED ->
           inTransition tileMethods (tile_transition (tiles s1 tile)) (ol_uid (this s1))
             = true
           \/ ~ In tile (renderedTiles (this plain)) ->
           newTiles_ (this s') = true)
       /\ (newTiles_ (this plain) = true -> newTiles_ (this s') = true)
       /\ (state (tiles s1 tile) <> LOADED -> newTiles_ (this s') = newTiles_ (this s1)).
Proof.
  split; [discriminate|].
  apply (selectTile_newTiles tileMethods 4 (grid oneTile None)
           (createLoadedTileFinder library (getSource (layer (this plain)))
              "EPSG:3857"%string)
           0 0 [(4, [])] plain).
  discriminate.
Defined.

(** Selecting the column of the loaded, opaque tile registers it. *)
Lemma selectTile_registers_witness :
  tilesAtZ 4 [(4, [])] <> None
  /\ exists tile s1 m' s',
       getTile tileMethods 4 0 0 (pixelRatio (frameState plain))
         (projection (viewState (frameState plain))) plain = Some (tile, s1)
       /\ selectTile tileMethods 4 (grid oneTile None)
            (createLoadedTileFinder library (getSource (layer (this plain)))
               "EPSG:3857"%string)
            0 0 [(4, [])] plain = Some (m', s')
       /\ (state (tiles s1 tile) = LOADED ->
           strictEq (fst (getAlpha tileMethods (tile_transition (tiles s1 tile))
                            (ol_uid (this s1)) (time (frameState s1)))) 1%float = true ->
           exists l l',
             tilesAtZ 4 [(4, [])] = Some l
             /\ tilesAtZ 4 m' = Some l'
             /\ tileAt (tileCoord (tiles s1 tile)) l' = Some tile
             /\ (forall c, c <> tileCoord (tiles s1 tile) -> tileAt c l' = tileAt c l)
             /\ (forall z', z' <> 4 -> tilesAtZ z' m' = tilesAtZ z' [(4, [])])).
Proof.
  split; [discriminate|].
  apply (selectTile_registers tileMethods 4 (grid oneTile None)
           (createLoadedTileFinder library (getSource (layer (this plain)))
              "EPSG:3857"%string)
           0 0 [(4, [])] plain).
  discriminate.
Defined.

(** The sample finder and the sample grid hand the collection back as
    they got it, so the frame over four tiles returns. *)
Lemma renderFrame_returns_witness :
  exists c s', renderFrame tileMethods library layerState fourInRange = Some (c, s').
Proof.
  apply (renderFrame_returns tileMethods library layerState fourInRange).
  - intros st zoom range m H. exact H.
  - intros coord callback _ m H. exact H.
Defined.

(** The tiles reported as used by the frame over four tiles. *)
Lemma renderFrame_used_tiles_witness :
  exists c s',
    renderFrame tileMethods library layerState fourInRange = Some (c, s')
    /\ usedTiles (trace s') = usedTiles (trace fourInRange) ++ renderedTiles (this s').
Proof.
  destruct (renderFrame tileMethods library layerState fourInRange)
    as [[c s']|] eqn:Hrun.
  - exists c, s'. split; [reflexivity|].
    exact (renderFrame_used_tiles tileMethods library layerState fourInRange c s' Hrun).
  - vm_compute in Hrun. discriminate Hrun.
Defined.

(** Saves and restores of the frame over four tiles, clipped to a layer
    extent. *)
Lemma renderFrame_balanced_witness :
  exists c s',
    renderFrame tileMethods library
      (mkLayerState (Some (mkExtent 0%float 0%float 256%float 256%float)) 1%float)
      fourInRange = Some (c, s')
    /\ saveDepth (trace s') = saveDepth (trace fourInRange)
    /\ exists before middle,
         trace s' =
           trace fourInRange ++ before
           ++ [Save; ClipUnrotated (mkExtent 0%float 0%float 256%float 256%float)]
           ++ middle ++ [Restore]
         /\ saveFree before = true
         /\ paired false middle = true.
Proof.
  destruct (renderFrame tileMethods library
              (mkLayerState (Some (mkExtent 0%float 0%float 256%float 256%float)) 1%float)
              fourInRange) as [[c s']|] eqn:Hrun.
  - exists c, s'. split; [reflexivity|].
    exact (renderFrame_balanced tileMethods library _ fourInRange c s' Hrun).
  - vm_compute in Hrun. discriminate Hrun.
Defined.

(** What the frame over four tiles records in the renderer. *)
Lemma renderFrame_bookkeeping_witness :
  exists c s',
    renderFrame tileMethods library layerState fourInRange = Some (c, s')
    /\ renderedRevision (this s') = Some 7
    /\ c = canvas (context (this s'))
    /\ getImage s' = Some (Some c, s').
Proof.
  destruct (renderFrame tileMethods library layerState fourInRange)
    as [[c s']|] eqn:Hrun.
  - exists c, s'. split; [reflexivity|].
    destruct (renderFrame_bookkeeping tileMethods library layerState fourInRange c s' Hrun)
      as (Hrev & _ & _ & Hc & Himg).
    repeat split; assumption.
  - vm_compute in Hrun. discriminate Hrun.
Defined.

(** The transforms and the style of the canvas after the frame over four
    tiles. *)
Lemma renderFrame_presentation_witness :
  exists c s',
    renderFrame tileMethods library layerState fourInRange = Some (c, s')
    /\ inversePixelTransform_ (this s') = makeInverse library (pixelTransform_ (this s'))
    /\ style_transform c = transformToString library (pixelTransform_ (this s')).
Proof.
  destruct (renderFrame tileMethods library layerState fourInRange)
    as [[c s']|] eqn:Hrun.
  - exists c, s'. split; [reflexivity|].
    destruct (renderFrame_presentation tileMethods library layerState fourInRange c s' Hrun)
      as (_ & Hinv & _ & _ & Hst & _).
    split; assumption.
  - vm_compute in Hrun. discriminate Hrun.
Defined.

(** The tiles listed as rendered by the frame over four tiles. *)
Lemma renderFrame_rendered_tiles_witness :
  exists c s' m s2,
    renderFrame tileMethods library layerState fourInRange = Some (c, s')
    /\ selectTiles tileMethods library (frameState fourInRange) (layer (this fourInRange))
         (frameGeometry library (this fourInRange) (frameState fourInRange) layerState)
         fourInRange = Some (m, s2)
    /\ renderedTiles (this s') =
         flat_map (fun currentZ => tilesToDrawAt currentZ m)
           (drawOrder
              (g_z (frameGeometry library (this fourInRange) (frameState fourInRange)
                      layerState)) m).
Proof.
  destruct (renderFrame tileMethods library layerState fourInRange)
    as [[c s']|] eqn:Hrun.
  - destruct (renderFrame_rendered_tiles tileMethods library layerState fourInRange c s'
                Hrun) as (m & s2 & Hsel & Hr).
    exists c, s', m, s2. split; [reflexivity|]. split; assumption.
  - vm_compute in Hrun. discriminate Hrun.
Defined.

(** The zoom levels 3, 5 and 7 with ideal zoom 5, enumerated backwards. *)
Lemma draw_order_unique_witness :
  [3; 7; 5] = Array_sort (compareZoom 5) [7; 5; 3].
Proof.
  apply (draw_order_unique 5 [3; 5; 7] [7; 5; 3] [3; 7; 5]).
  - repeat constructor; simpl; intuition lia.
  - simpl. auto.
  - apply Permutation_rev.
  - apply perm_skip. apply perm_swap.
  - unfold sortedBy, compareZoom. repeat constructor; simpl; lia.
Defined.

(** Three equal colours, the middle one written with a negative zero. *)
Lemma Color_equals_sym_trans_witness :
  Color.equals (Color.mkColor 0%float 128%float 255%float 255%float) (Color.mkColor 0%float 128%float 255%float 255%float) = true.
Proof.
  apply (proj2 Color_equals_sym_trans
           (Color.mkColor 0%float 128%float 255%float 255%float) (Color.mkColor (-0)%float 128%float 255%float 255%float)
           (Color.mkColor 0%float 128%float 255%float 255%float)); reflexivity.
Defined.

(** A colour asked for with alpha 0 gets alpha 255. *)
Lemma Color_createFromString_alpha_witness :
  truthy (Color.a (Color.mkColor 255%float 0%float 0%float 255%float)) = true
  /\ Color.a (Color.mkColor 255%float 0%float 0%float 255%float) = 255%float.
Proof.
  destruct (proj2 (Color_createFromString_alpha (fun s => Some s)
                     (fun _ => (255%float, 0%float, 0%float)) "#ff0000"%string
                     (Some 0%float))
              (Color.mkColor 255%float 0%float 0%float 255%float) eq_refl) as (Ht & Ha & _).
  split; [exact Ht | exact Ha].
Defined.

(** The sample renderer is as the constructor leaves it. *)
Lemma constructor_first_selection_witness :
  this plain = constructor (this plain)
  /\ tilesAtZ 4 [(4, [])] <> None
  /\ exists tile s1 m' s',
       getTile tileMethods 4 3 0 (pixelRatio (frameState plain))
         (projection (viewState (frameState plain))) plain = Some (tile, s1)
       /\ selectTile tileMethods 4 (grid oneTile None)
            (createLoadedTileFinder library (getSource (layer (this plain)))
               "EPSG:3857"%string)
            3 0 [(4, [])] plain = Some (m', s')
       /\ (state (tiles s1 tile) = LOADED -> newTiles_ (this s') = true).
Proof.
  split; [reflexivity|]. split; [discriminate|].
  apply (constructor_first_selection tileMethods (this plain) 4 (grid oneTile None)
           (createLoadedTileFinder library (getSource (layer (this plain)))
              "EPSG:3857"%string)
           3 0 [(4, [])] plain).
  - reflexivity.
  - discriminate.
Defined.
